(** * limepacker, package [ssl]: certificate issuance engine

    A shallow embedding of [pkg/ssl] (key policy and generation, request
    parsing, host classification, template construction, CA and leaf
    issuance, private key loading) together with the properties stated
    about it.

    Conventions.
    - Go's [int] and [time.Duration] values are integers of [Z]; the code
      only compares key sizes, and the one arithmetic operation on
      durations ([Time.Add]) cannot overflow for a wall-clock instant.
    - Go strings and byte slices are [string] (a sequence of bytes).
    - A Go function returning [(T, error)] returns a [result T]; a run-time
      panic (zerolog's [log.Panic] or a nil dereference) is the third
      outcome [Panic].
    - Code that reads the random source or the clock threads a [World]
      explicitly: [M T := World -> result T * World].
    - Functions of the Go standard library and of the YAML decoder are not
      part of the repository; they are operations of the class [GoRuntime],
      except for the few whose definition the properties depend on. *)

From Stdlib Require Import ZArith QArith Lia.
From stdpp Require Import base option list strings gmap.

Local Open Scope string_scope.
Local Open Scope list_scope.
Local Open Scope Z_scope.

(** ** Errors, panics and the two monads *)

(** The error values the package creates itself, and the ones it passes on
    from a library call. *)
Inductive error : Type :=
  | ErrUnknownKeyType (alg : string)   (* "unknown key type: %s" *)
  | ErrInvalidECDSAKeySize (size : Z)  (* "invalid ecdsa key size %d - ..." *)
  | ErrInvalidRSAKeySize (size : Z)    (* "invalid rsa key size %d - ..." *)
  | ErrNoSubject                       (* "no subject information provided" *)
  | ErrNoKeyUsage                      (* "no key usage(s) specified" *)
  | ErrCannotParsePrivateKey           (* "cannot parse private key" *)
  | ErrUnknownPrivateKeyType           (* "unknown private key type" *)
  | ErrLibrary (msg : string).         (* an error returned by a library *)

Inductive panic : Type :=
  | PanicLog (msg : string)            (* log.Panic().Msg(msg) *)
  | PanicLogf (fmt : string) (arg : Z) (* log.Panic().Msgf(fmt, arg) *)
  | PanicNilDereference.               (* field access through a nil pointer *)

Inductive result (A : Type) : Type :=
  | Ok (a : A)
  | Err (e : error)
  | Panic (p : panic).
Arguments Ok {A} a.
Arguments Err {A} e.
Arguments Panic {A} p.

Definition rbind {A B} (r : result A) (k : A -> result B) : result B :=
  match r with
  | Ok a => k a
  | Err e => Err e
  | Panic p => Panic p
  end.

Definition is_Ok {A} (r : result A) : bool :=
  match r with Ok _ => true | _ => false end.
Definition is_Err {A} (r : result A) : bool :=
  match r with Err _ => true | _ => false end.
Definition is_Panic {A} (r : result A) : bool :=
  match r with Panic _ => true | _ => false end.

(** A library call returning [(T, error)]. *)
Definition libresult (A : Type) : Type := (string + A)%type.

Definition of_lib {A} (r : libresult A) : result A :=
  match r with
  | inl msg => Err (ErrLibrary msg)
  | inr a => Ok a
  end.

Notation "'let*' x ':=' r 'in' k" := (rbind r (fun x => k))
  (at level 10, x pattern, r at level 100, k at level 200).

(** ** The parts of the Go standard library the package computes with *)

Module elliptic.
(** The named curves [crypto/x509] can decode a key for. *)
Inductive Curve : Type := P224 | P256 | P384 | P521.

#[global] Instance Curve_eq_dec : EqDecision Curve.
Proof. solve_decision. Defined.
End elliptic.

Module ecdsa.
Record PublicKey : Type := { Curve : elliptic.Curve; X : Z; Y : Z }.
Record PrivateKey : Type := { Public : PublicKey; D : Z }.
End ecdsa.

Module rsa.
Record PublicKey : Type := { N : Z; E : Z }.
Record PrivateKey : Type := { Public : PublicKey; D : Z }.

(** [big.Int.BitLen]: the length of the absolute value in bits, 0 for 0. *)
Definition BitLen (x : Z) : Z :=
  if x =? 0 then 0 else Z.log2 (Z.abs x) + 1.

(** [PublicKey.Size], promoted to [PrivateKey] through the embedded
    field: "Size returns the modulus size in bytes",
    [(pub.N.BitLen() + 7) / 8]. *)
Definition Size (priv : PrivateKey) : Z :=
  (BitLen (N (Public priv)) + 7) / 8.
End rsa.

Module crypto.
(** [crypto.PrivateKey] and [crypto.PublicKey] are empty interfaces; these
    are the dynamic types [crypto/x509] puts into them. *)
Inductive PrivateKey : Type :=
  | RSAPrivate (k : rsa.PrivateKey)        (* *rsa.PrivateKey *)
  | ECDSAPrivate (k : ecdsa.PrivateKey)    (* *ecdsa.PrivateKey *)
  | OtherPrivate (k : string).             (* ed25519.PrivateKey, ... *)
Inductive PublicKey : Type :=
  | RSAPublic (k : rsa.PublicKey)
  | ECDSAPublic (k : ecdsa.PublicKey).
End crypto.

Module pem.
(** [pem.Block]; the package never sets [Headers]. *)
Record Block : Type := { Type_ : string; Bytes : string }.
End pem.

Module pkix.
Record Name : Type := {
  Country : list string;
  Organization : list string;
  OrganizationalUnit : list string;
  Locality : list string;
  Province : list string;
  SerialNumber : string;
  CommonName : string
}.

(** The zero value [pkix.Name{}]. *)
Definition zero : Name :=
  {| Country := []; Organization := []; OrganizationalUnit := [];
     Locality := []; Province := []; SerialNumber := ""; CommonName := "" |}.
End pkix.

Module net.
(** [net.IP], a byte slice. *)
Definition IP : Type := list Z.
End net.

Module url.
Record URL : Type := { Scheme : string; Host : string; Path : string }.

(** [URL.IsAbs]: "reports whether the URL is absolute. Absolute means that
    it has a non-empty scheme." *)
Definition IsAbs (u : URL) : bool := negb (String.eqb (Scheme u) "").
End url.

Module mail.
Record Address : Type := { Name : string; Address_ : string }.
End mail.

Module time.
(** [time.Duration]: a count of nanoseconds. *)
Definition Duration : Type := Z.
Definition Nanosecond : Duration := 1.
Definition Microsecond : Duration := 1000 * Nanosecond.
Definition Millisecond : Duration := 1000 * Microsecond.
Definition Second : Duration := 1000 * Millisecond.
Definition Minute : Duration := 60 * Second.
Definition Hour : Duration := 60 * Minute.

(** [Duration.Seconds]: [float64(d / Second) + float64(d % Second) / 1e9],
    over the rationals. Go's [/] and [%] truncate towards zero. The only
    use made of the value is the comparison with 0, and no non-zero
    operand here is small enough to round to 0.0. *)
Definition Seconds (d : Duration) : Q :=
  (inject_Z (Z.quot d Second) + inject_Z (Z.rem d Second) / inject_Z 1000000000)%Q.

Inductive Location : Type := Local | UTCLoc.

(** [time.Time]: an instant (nanoseconds since the Unix epoch) shown in a
    location. *)
Record Time : Type := { instant : Z; location : Location }.

Definition Add (t : Time) (d : Duration) : Time :=
  {| instant := instant t + d; location := location t |}.

Definition UTC (t : Time) : Time :=
  {| instant := instant t; location := UTCLoc |}.
End time.

Module x509.
(** [x509.KeyUsage], a bit set: [1 << iota]. *)
Definition KeyUsage : Type := Z.
Definition KeyUsageDigitalSignature : KeyUsage := Z.shiftl 1 0.
Definition KeyUsageContentCommitment : KeyUsage := Z.shiftl 1 1.
Definition KeyUsageKeyEncipherment : KeyUsage := Z.shiftl 1 2.
Definition KeyUsageDataEncipherment : KeyUsage := Z.shiftl 1 3.
Definition KeyUsageKeyAgreement : KeyUsage := Z.shiftl 1 4.
Definition KeyUsageCertSign : KeyUsage := Z.shiftl 1 5.
Definition KeyUsageCRLSign : KeyUsage := Z.shiftl 1 6.
Definition KeyUsageEncipherOnly : KeyUsage := Z.shiftl 1 7.
Definition KeyUsageDecipherOnly : KeyUsage := Z.shiftl 1 8.

Inductive ExtKeyUsage : Type :=
  | ExtKeyUsageAny
  | ExtKeyUsageServerAuth
  | ExtKeyUsageClientAuth
  | ExtKeyUsageCodeSigning
  | ExtKeyUsageEmailProtection
  | ExtKeyUsageIPSECEndSystem
  | ExtKeyUsageIPSECTunnel
  | ExtKeyUsageIPSECUser
  | ExtKeyUsageTimeStamping
  | ExtKeyUsageOCSPSigning
  | ExtKeyUsageMicrosoftServerGatedCrypto
  | ExtKeyUsageNetscapeServerGatedCrypto.

Inductive SignatureAlgorithm : Type :=
  | SHA256WithRSA | SHA384WithRSA | SHA512WithRSA
  | ECDSAWithSHA256 | ECDSAWithSHA384 | ECDSAWithSHA512.

Inductive PublicKeyAlgorithm : Type := RSA | ECDSA.

(** The fields of [x509.Certificate] the package fills in. *)
Record Certificate : Type := {
  Subject : pkix.Name;
  PublicKey : crypto.PublicKey;
  PublicKeyAlgorithm_ : PublicKeyAlgorithm;
  SignatureAlgorithm_ : SignatureAlgorithm;
  IPAddresses : list net.IP;
  EmailAddresses : list string;
  URIs : list url.URL;
  DNSNames : list string;
  SerialNumber : Z;
  NotBefore : time.Time;
  NotAfter : time.Time;
  KeyUsage_ : KeyUsage;
  ExtKeyUsage_ : list ExtKeyUsage;
  BasicConstraintsValid : bool;
  IsCA : bool
}.
End x509.

Module math.
Definition MaxInt64 : Z := 2 ^ 63 - 1.
End math.

(** ** Key algorithm policy *)

Definition minRSAKeySize : Z := 2048.
Definition maxRSAKeySize : Z := 8192.

Inductive KeyAlgorithm : Type :=
  | keyAlgorithmNotSet
  | ECDSAKey
  | RSAKey.

#[global] Instance KeyAlgorithm_eq_dec : EqDecision KeyAlgorithm.
Proof. solve_decision. Defined.

Definition ParseKeyAlgorithm (s : string) : result KeyAlgorithm :=
  if String.eqb s "ecdsa" then Ok ECDSAKey
  else if String.eqb s "rsa" then Ok RSAKey
  else Err (ErrUnknownKeyType s).

Definition unexpected_key_algorithm {A} : result A :=
  Panic (PanicLog "unexpected key algorithm").

Definition KeyAlgorithm_String (a : KeyAlgorithm) : result string :=
  match a with
  | ECDSAKey => Ok "ecdsa"
  | RSAKey => Ok "rsa"
  | keyAlgorithmNotSet => unexpected_key_algorithm
  end.

Definition DefaultSize (a : KeyAlgorithm) : result Z :=
  match a with
  | ECDSAKey => Ok 256
  | RSAKey => Ok 4096
  | keyAlgorithmNotSet => unexpected_key_algorithm
  end.

(** [ValidKeySize] returns a Go [error]: [Ok tt] is the nil error. *)
Definition ValidKeySize (a : KeyAlgorithm) (size : Z) : result unit :=
  match a with
  | ECDSAKey =>
      if negb ((size =? 0) || (size =? 256) || (size =? 384) || (size =? 521))
      then Err (ErrInvalidECDSAKeySize size)
      else Ok tt
  | RSAKey =>
      if negb ((size =? 0) ||
               ((size >=? minRSAKeySize) && (size <=? maxRSAKeySize)))
      then Err (ErrInvalidRSAKeySize size)
      else Ok tt
  | keyAlgorithmNotSet => unexpected_key_algorithm
  end.

Definition validateKey (algorithm : string) (size : Z) : result unit :=
  let* a := ParseKeyAlgorithm algorithm in
  let* _ := ValidKeySize a size in
  Ok tt.

(** ** Requests: data *)

Record CertificateName : Type := {
  n_C : string;             (* Country *)
  n_ST : string;            (* Province *)
  n_L : string;             (* Locality *)
  n_O : string;             (* OrganizationName *)
  n_OU : string;            (* OrganizationalUnitName *)
  n_SerialNumber : string   (* SerialNumber *)
}.

Record CertificateRequest : Type := {
  csr_Algorithm : string;
  csr_Size : Z;
  csr_CommonName : string;
  csr_Names : list CertificateName;
  csr_Hosts : list string;
  csr_SerialNumber : string
}.

(** ** The library operations the package calls

    [World] is the state of the random source and the clock. A pointer
    result that may be nil is an [option]. *)
Class GoRuntime : Type := {
  World : Type;
  strings_TrimSpace : string -> string;
  yaml_Unmarshal : string -> libresult CertificateRequest;
  net_ParseIP : string -> option net.IP;
  mail_ParseAddress : string -> libresult mail.Address;
  url_ParseRequestURI : string -> libresult url.URL;
  pem_Decode : string -> option pem.Block;
  pem_EncodeToMemory : pem.Block -> string;
  x509_ParsePKCS8PrivateKey : string -> libresult crypto.PrivateKey;
  x509_ParsePKCS1PrivateKey : string -> libresult rsa.PrivateKey;
  x509_ParseECPrivateKey : string -> libresult ecdsa.PrivateKey;
  x509_ParseCertificate : string -> libresult x509.Certificate;
  x509_MarshalECPrivateKey : ecdsa.PrivateKey -> libresult string;
  x509_MarshalPKCS1PrivateKey : rsa.PrivateKey -> string;
  ecdsa_GenerateKey :
    elliptic.Curve -> World -> libresult ecdsa.PrivateKey * World;
  rsa_GenerateKey : Z -> World -> libresult rsa.PrivateKey * World;
  rand_Int : Z -> World -> libresult Z * World;
  time_Now : World -> time.Time * World;
  x509_CreateCertificate :
    x509.Certificate -> x509.Certificate -> crypto.PublicKey ->
    crypto.PrivateKey -> World -> libresult string * World
}.

(** Computations that use the random source or the clock. *)
Definition M `{GoRuntime} (A : Type) : Type := World -> result A * World.

Definition ret `{GoRuntime} {A} (a : A) : M A := fun w => (Ok a, w).

Definition bindM `{GoRuntime} {A B} (m : M A) (k : A -> M B) : M B :=
  fun w =>
    match m w with
    | (Ok a, w') => k a w'
    | (Err e, w') => (Err e, w')
    | (Panic p, w') => (Panic p, w')
    end.

(** A pure step inside a computation. *)
Definition lift `{GoRuntime} {A} (r : result A) : M A := fun w => (r, w).

(** A library call that reads the world. *)
Definition call `{GoRuntime} {A} (f : World -> libresult A * World) : M A :=
  fun w => let '(r, w') := f w in (of_lib r, w').

Notation "'let!' x ':=' m 'in' k" := (bindM m (fun x => k))
  (at level 10, x pattern, m at level 100, k at level 200).

(** Reading a field through a pointer that may be nil. *)
Definition deref {A} (p : option A) : result A :=
  match p with
  | Some a => Ok a
  | None => Panic PanicNilDereference
  end.

(** ** Keys *)

Record baseKey : Type := {
  algorithm : KeyAlgorithm;
  size : Z;
  encoded : string;
  privateKey : crypto.PrivateKey
}.

(** The two implementations of the interface [Key]; both embed [baseKey]. *)
Inductive Key : Type :=
  | ecdsaKey (k : baseKey)
  | rsaKey (k : baseKey).

Definition base (k : Key) : baseKey :=
  match k with ecdsaKey b => b | rsaKey b => b end.

Definition Algorithm (k : Key) : KeyAlgorithm := algorithm (base k).
Definition Size (k : Key) : Z := size (base k).
Definition Encoded (k : Key) : string := encoded (base k).
Definition PrivateKey (k : Key) : crypto.PrivateKey := privateKey (base k).

Definition PublicKey (k : Key) : result crypto.PublicKey :=
  match privateKey (base k) with
  | crypto.ECDSAPrivate pub => Ok (crypto.ECDSAPublic (ecdsa.Public pub))
  | crypto.RSAPrivate pub => Ok (crypto.RSAPublic (rsa.Public pub))
  | _ => unexpected_key_algorithm
  end.

Definition unexpected_key_size {A} : result A :=
  Panic (PanicLog "unexpected key size").

Definition SignatureAlgorithm (k : Key) : result x509.SignatureAlgorithm :=
  match k with
  | ecdsaKey b =>
      if size b =? 256 then Ok x509.ECDSAWithSHA256
      else if size b =? 384 then Ok x509.ECDSAWithSHA384
      else if size b =? 521 then Ok x509.ECDSAWithSHA512
      else unexpected_key_size
  | rsaKey b =>
      if size b >=? 4096 then Ok x509.SHA512WithRSA
      else if size b >=? 3072 then Ok x509.SHA384WithRSA
      else if size b >=? 2048 then Ok x509.SHA256WithRSA
      else unexpected_key_size
  end.

Definition PublicKeyAlgorithm (k : Key) : x509.PublicKeyAlgorithm :=
  match k with
  | ecdsaKey _ => x509.ECDSA
  | rsaKey _ => x509.RSA
  end.

Section KeyOperations.
Context `{GoRuntime}.

Definition generateECDSAKey (size : Z) : M Key :=
  let! size := lift (if size =? 0 then DefaultSize ECDSAKey else Ok size) in
  let! curve :=
    lift (if size =? 256 then Ok elliptic.P256
          else if size =? 384 then Ok elliptic.P384
          else if size =? 521 then Ok elliptic.P521
          else Panic (PanicLogf "unexpected key size %d" size)) in
  let! key := call (ecdsa_GenerateKey curve) in
  let! encoded := lift (of_lib (x509_MarshalECPrivateKey key)) in
  ret (ecdsaKey
         {| algorithm := ECDSAKey;
            size := size;
            encoded := pem_EncodeToMemory
                         {| pem.Type_ := "EC PRIVATE KEY";
                            pem.Bytes := encoded |};
            privateKey := crypto.ECDSAPrivate key |}).

Definition generateRSAKey (size : Z) : M Key :=
  let! size := lift (if size =? 0 then DefaultSize RSAKey else Ok size) in
  let! key := call (rsa_GenerateKey size) in
  let encoded := x509_MarshalPKCS1PrivateKey key in
  ret (rsaKey
         {| algorithm := RSAKey;
            size := size;
            encoded := pem_EncodeToMemory
                         {| pem.Type_ := "RSA PRIVATE KEY";
                            pem.Bytes := encoded |};
            privateKey := crypto.RSAPrivate key |}).

Definition GenerateKey (algorithm : KeyAlgorithm) (size : Z) : M Key :=
  let! _ := lift (ValidKeySize algorithm size) in
  match algorithm with
  | ECDSAKey => generateECDSAKey size
  | RSAKey => generateRSAKey size
  | keyAlgorithmNotSet => lift unexpected_key_algorithm
  end.

Definition getCurveSize (c : elliptic.Curve) : result Z :=
  match c with
  | elliptic.P256 => Ok 256
  | elliptic.P384 => Ok 384
  | elliptic.P521 => Ok 521
  | _ => DefaultSize ECDSAKey
  end.

Definition parsePrivateKey (keyPEM : string) : result Key :=
  let p := pem_Decode keyPEM in
  let* keyDER := (let* b := deref p in Ok (pem.Bytes b)) in
  let* key :=
    match x509_ParsePKCS8PrivateKey keyDER with
    | inr key => Ok key
    | inl _ =>
        match x509_ParsePKCS1PrivateKey keyDER with
        | inr key => Ok (crypto.RSAPrivate key)
        | inl _ =>
            match x509_ParseECPrivateKey keyDER with
            | inr key => Ok (crypto.ECDSAPrivate key)
            | inl _ => Err ErrCannotParsePrivateKey
            end
        end
    end in
  match key with
  | crypto.RSAPrivate priv =>
      Ok (rsaKey {| algorithm := RSAKey;
                    size := rsa.Size priv;
                    encoded := keyPEM;
                    privateKey := crypto.RSAPrivate priv |})
  | crypto.ECDSAPrivate priv =>
      let* sz := getCurveSize (ecdsa.Curve (ecdsa.Public priv)) in
      Ok (ecdsaKey {| algorithm := ECDSAKey;
                      size := sz;
                      encoded := keyPEM;
                      privateKey := crypto.ECDSAPrivate priv |})
  | _ => Err ErrUnknownPrivateKeyType
  end.
End KeyOperations.

(** ** Requests: operations *)

Definition Empty (n : CertificateName) : bool :=
  (String.length (n_C n) + String.length (n_ST n) + String.length (n_L n) +
   String.length (n_O n) + String.length (n_OU n) =? 0)%nat.

Definition nonempty (s : string) : bool := (0 <? String.length s)%nat.

(** One iteration of the loop of [subject]. The third assignment stores
    [append(subject.Locality, n.L)] into [subject.Province], as the source
    does. *)
Definition subject_step (subject : pkix.Name) (n : CertificateName)
  : pkix.Name :=
  let country :=
    if nonempty (n_C n) then pkix.Country subject ++ [n_C n]
    else pkix.Country subject in
  let province :=
    if nonempty (n_ST n) then pkix.Province subject ++ [n_ST n]
    else pkix.Province subject in
  let province :=
    if nonempty (n_L n) then pkix.Locality subject ++ [n_L n]
    else province in
  let organization :=
    if nonempty (n_O n) then pkix.Organization subject ++ [n_O n]
    else pkix.Organization subject in
  let organizationalUnit :=
    if nonempty (n_OU n) then pkix.OrganizationalUnit subject ++ [n_OU n]
    else pkix.OrganizationalUnit subject in
  {| pkix.Country := country;
     pkix.Organization := organization;
     pkix.OrganizationalUnit := organizationalUnit;
     pkix.Locality := pkix.Locality subject;
     pkix.Province := province;
     pkix.SerialNumber := pkix.SerialNumber subject;
     pkix.CommonName := pkix.CommonName subject |}.

Definition with_CommonName (subject : pkix.Name) (cn : string) : pkix.Name :=
  {| pkix.Country := pkix.Country subject;
     pkix.Organization := pkix.Organization subject;
     pkix.OrganizationalUnit := pkix.OrganizationalUnit subject;
     pkix.Locality := pkix.Locality subject;
     pkix.Province := pkix.Province subject;
     pkix.SerialNumber := pkix.SerialNumber subject;
     pkix.CommonName := cn |}.

Definition with_SerialNumber (subject : pkix.Name) (sn : string) : pkix.Name :=
  {| pkix.Country := pkix.Country subject;
     pkix.Organization := pkix.Organization subject;
     pkix.OrganizationalUnit := pkix.OrganizationalUnit subject;
     pkix.Locality := pkix.Locality subject;
     pkix.Province := pkix.Province subject;
     pkix.SerialNumber := sn;
     pkix.CommonName := pkix.CommonName subject |}.

Definition subject (csr : CertificateRequest) : pkix.Name :=
  let subject := with_CommonName pkix.zero (csr_CommonName csr) in
  let subject := foldl subject_step subject (csr_Names csr) in
  with_SerialNumber subject (csr_SerialNumber csr).

(** ** Host classification (hosts.go): data and operations *)

Record certificateHosts : Type := {
  h_DNSNames : list string;
  h_EmailAddresses : list string;
  h_IPAddresses : list net.IP;
  h_URIs : list url.URL
}.

Section Requests.
Context `{GoRuntime}.

Definition trim (n : CertificateName) : CertificateName :=
  {| n_C := strings_TrimSpace (n_C n);
     n_ST := strings_TrimSpace (n_ST n);
     n_L := strings_TrimSpace (n_L n);
     n_O := strings_TrimSpace (n_O n);
     n_OU := strings_TrimSpace (n_OU n);
     n_SerialNumber := strings_TrimSpace (n_SerialNumber n) |}.

(** One iteration of the loop over [csr.Names]. *)
Definition names_step (names : list CertificateName) (n : CertificateName)
  : list CertificateName :=
  let n := trim n in
  if Empty n then names else names ++ [n].

Definition ParseCertificateRequest (input : string)
  : result CertificateRequest :=
  let* csr := of_lib (yaml_Unmarshal input) in
  let* _ := validateKey (csr_Algorithm csr) (csr_Size csr) in
  let commonName := strings_TrimSpace (csr_CommonName csr) in
  let serialNumber := strings_TrimSpace (csr_SerialNumber csr) in
  let names := foldl names_step [] (csr_Names csr) in
  let hosts := strings_TrimSpace <$> csr_Hosts csr in
  if String.eqb commonName "" && (length names =? 0)%nat
  then Err ErrNoSubject
  else Ok {| csr_Algorithm := csr_Algorithm csr;
             csr_Size := csr_Size csr;
             csr_CommonName := commonName;
             csr_Names := names;
             csr_Hosts := hosts;
             csr_SerialNumber := serialNumber |}.

Definition generateKey (csr : CertificateRequest) : M Key :=
  let! algorithm := lift (ParseKeyAlgorithm (csr_Algorithm csr)) in
  GenerateKey algorithm (csr_Size csr).

(** One iteration of the loop of [parseHosts]. *)
Definition parseHosts_step (out : certificateHosts) (host : string)
  : certificateHosts :=
  match net_ParseIP host with
  | Some ip =>
      {| h_DNSNames := h_DNSNames out;
         h_EmailAddresses := h_EmailAddresses out;
         h_IPAddresses := h_IPAddresses out ++ [ip];
         h_URIs := h_URIs out |}
  | None =>
      match mail_ParseAddress host with
      | inr email =>
          {| h_DNSNames := h_DNSNames out;
             h_EmailAddresses :=
               h_EmailAddresses out ++ [mail.Address_ email];
             h_IPAddresses := h_IPAddresses out;
             h_URIs := h_URIs out |}
      | inl _ =>
          match url_ParseRequestURI host with
          | inr uri =>
              {| h_DNSNames := h_DNSNames out;
                 h_EmailAddresses := h_EmailAddresses out;
                 h_IPAddresses := h_IPAddresses out;
                 h_URIs := h_URIs out ++ [uri] |}
          | inl _ =>
              {| h_DNSNames := h_DNSNames out ++ [host];
                 h_EmailAddresses := h_EmailAddresses out;
                 h_IPAddresses := h_IPAddresses out;
                 h_URIs := h_URIs out |}
          end
      end
  end.

Definition parseHosts (csr : CertificateRequest) : certificateHosts :=
  foldl parseHosts_step
    {| h_DNSNames := []; h_EmailAddresses := [];
       h_IPAddresses := []; h_URIs := [] |}
    (csr_Hosts csr).
End Requests.

(** ** Certificates *)

Definition DefaultCertificateExpiration : time.Duration :=
  10 * 8760 * time.Hour.

Definition keyUsage : gmap string x509.KeyUsage :=
  list_to_map
    [ ("signing", x509.KeyUsageDigitalSignature);
      ("digital signature", x509.KeyUsageDigitalSignature);
      ("content commitment", x509.KeyUsageContentCommitment);
      ("key encipherment", x509.KeyUsageKeyEncipherment);
      ("key agreement", x509.KeyUsageKeyAgreement);
      ("data encipherment", x509.KeyUsageDataEncipherment);
      ("cert sign", x509.KeyUsageCertSign);
      ("crl sign", x509.KeyUsageCRLSign);
      ("encipher only", x509.KeyUsageEncipherOnly);
      ("decipher only", x509.KeyUsageDecipherOnly) ].

Definition extKeyUsage : gmap string x509.ExtKeyUsage :=
  list_to_map
    [ ("any", x509.ExtKeyUsageAny);
      ("server auth", x509.ExtKeyUsageServerAuth);
      ("client auth", x509.ExtKeyUsageClientAuth);
      ("code signing", x509.ExtKeyUsageCodeSigning);
      ("email protection", x509.ExtKeyUsageEmailProtection);
      ("s/mime", x509.ExtKeyUsageEmailProtection);
      ("ipsec end system", x509.ExtKeyUsageIPSECEndSystem);
      ("ipsec tunnel", x509.ExtKeyUsageIPSECTunnel);
      ("ipsec user", x509.ExtKeyUsageIPSECUser);
      ("timestamping", x509.ExtKeyUsageTimeStamping);
      ("ocsp signing", x509.ExtKeyUsageOCSPSigning);
      ("microsoft sgc", x509.ExtKeyUsageMicrosoftServerGatedCrypto);
      ("netscape sgc", x509.ExtKeyUsageNetscapeServerGatedCrypto) ].

(** One iteration of the loop of [sortUsages]. *)
Definition sortUsages_step
    (acc : x509.KeyUsage * list x509.ExtKeyUsage) (u : string)
  : x509.KeyUsage * list x509.ExtKeyUsage :=
  let '(ku, eku) := acc in
  match keyUsage !! u with
  | Some kuse => (Z.lor ku kuse, eku)
  | None =>
      match extKeyUsage !! u with
      | Some ekuse => (ku, eku ++ [ekuse])
      | None => (ku, eku)
      end
  end.

Definition sortUsages (usages : list string)
  : x509.KeyUsage * list x509.ExtKeyUsage :=
  foldl sortUsages_step (0, []) usages.

Section Certificates.
Context `{GoRuntime}.

Definition now : M time.Time :=
  fun w => let '(t, w') := time_Now w in (Ok t, w').

Definition generateCertificateTemplate
    (csrData : string) (expires : time.Duration) (usage : list string)
    (isCA : bool) : M (x509.Certificate * Key) :=
  let! csr := lift (ParseCertificateRequest csrData) in
  let expires :=
    if Qeq_bool (time.Seconds expires) 0
    then DefaultCertificateExpiration else expires in
  let! serialNumber := call (rand_Int math.MaxInt64) in
  let! key := generateKey csr in
  let hosts := parseHosts csr in
  let '(ku, eku) := sortUsages usage in
  if (ku =? 0) && (length eku =? 0)%nat
  then lift (Err ErrNoKeyUsage)
  else
    let! now := now in
    let! publicKey := lift (PublicKey key) in
    let! signatureAlgorithm := lift (SignatureAlgorithm key) in
    ret ({| x509.Subject := subject csr;
            x509.PublicKey := publicKey;
            x509.PublicKeyAlgorithm_ := PublicKeyAlgorithm key;
            x509.SignatureAlgorithm_ := signatureAlgorithm;
            x509.IPAddresses := h_IPAddresses hosts;
            x509.EmailAddresses := h_EmailAddresses hosts;
            x509.URIs := h_URIs hosts;
            x509.DNSNames := h_DNSNames hosts;
            x509.SerialNumber := serialNumber;
            x509.NotBefore :=
              time.UTC (time.Add now (-5 * time.Minute));
            x509.NotAfter := time.UTC (time.Add now expires);
            x509.KeyUsage_ := ku;
            x509.ExtKeyUsage_ := eku;
            x509.BasicConstraintsValid := true;
            x509.IsCA := isCA |},
         key).

Definition GenerateCA (csrData : string) (expires : time.Duration)
  : M (string * string) :=
  let! (template, key) :=
    generateCertificateTemplate csrData expires
      ["cert sign"; "crl sign"] true in
  let! publicKey := lift (PublicKey key) in
  let! cert :=
    call (x509_CreateCertificate template template publicKey
            (PrivateKey key)) in
  ret (pem_EncodeToMemory
         {| pem.Type_ := "CERTIFICATE"; pem.Bytes := cert |},
       Encoded key).

Definition Generate (csrData ca caKey : string) (expires : time.Duration)
    (usage : list string) : M (string * string) :=
  let! (template, key) :=
    generateCertificateTemplate csrData expires usage false in
  let p := pem_Decode ca in
  let! caDER := lift (let* b := deref p in Ok (pem.Bytes b)) in
  let! caCert := lift (of_lib (x509_ParseCertificate caDER)) in
  let! caPrivateKey := lift (parsePrivateKey caKey) in
  let! publicKey := lift (PublicKey key) in
  let! cert :=
    call (x509_CreateCertificate template caCert publicKey
            (PrivateKey caPrivateKey)) in
  ret (pem_EncodeToMemory
         {| pem.Type_ := "CERTIFICATE"; pem.Bytes := cert |},
       Encoded key).
End Certificates.

(** ** A runtime to run the model on the inputs of the package's tests

    Each library operation is a table over the inputs that occur in the
    tests of the package; the world is a counter that every read of the
    random source or of the clock advances. *)
Module Sample.
(** The request of [testCSR], as the YAML decoder fills it in. *)
Definition testCSR : CertificateRequest :=
  {| csr_Algorithm := "ecdsa";
     csr_Size := 384;
     csr_CommonName := "test.example.com";
     csr_Names :=
       [ {| n_C := "CA"; n_ST := "QC"; n_L := "Montreal";
            n_O := "test org"; n_OU := "test org unit";
            n_SerialNumber := "" |} ];
     csr_Hosts := ["example.com"; "admin@example.com"; "localhost";
                   "10.1.0.1"];
     csr_SerialNumber := "" |}.

(** [testCSREmptyNames]: one name whose fields are blank. *)
Definition testCSREmptyNames : CertificateRequest :=
  {| csr_Algorithm := "ecdsa";
     csr_Size := 384;
     csr_CommonName := "";
     csr_Names :=
       [ {| n_C := " "; n_ST := ""; n_L := ""; n_O := ""; n_OU := "";
            n_SerialNumber := "" |} ];
     csr_Hosts := [];
     csr_SerialNumber := "" |}.

(** A request with a common name and nothing else. *)
Definition onlyCommonName : CertificateRequest :=
  {| csr_Algorithm := "rsa";
     csr_Size := 0;
     csr_CommonName := " test.example.com ";
     csr_Names := [];
     csr_Hosts := [];
     csr_SerialNumber := "" |}.

Definition asciiSpace (c : Ascii.ascii) : bool :=
  let n := Ascii.nat_of_ascii c in
  ((n =? 9) || (n =? 10) || (n =? 11) || (n =? 12) || (n =? 13) ||
   (n =? 32))%nat.

Fixpoint TrimLeft (s : string) : string :=
  match s with
  | String c s' => if asciiSpace c then TrimLeft s' else s
  | EmptyString => EmptyString
  end.

(** [strings.TrimSpace] on ASCII text. *)
Definition TrimSpace (s : string) : string :=
  String.rev (TrimLeft (String.rev (TrimLeft s))).

Definition Unmarshal (input : string) : libresult CertificateRequest :=
  if String.eqb input "testCSR" then inr testCSR
  else if String.eqb input "testCSREmptyNames" then inr testCSREmptyNames
  else if String.eqb input "onlyCommonName" then inr onlyCommonName
  else inl "yaml: unmarshal errors".

Definition ParseIP (s : string) : option net.IP :=
  if String.eqb s "10.1.0.1"
  then Some [0; 0; 0; 0; 0; 0; 0; 0; 0; 0; 255; 255; 10; 1; 0; 1]
  else None.

Definition ParseAddress (s : string) : libresult mail.Address :=
  if String.eqb s "admin@example.com"
  then inr {| mail.Name := ""; mail.Address_ := "admin@example.com" |}
  else inl "mail: missing '@' or angle-addr".

(** [url.ParseRequestURI] reads its argument "only as an absolute URI or
    an absolute path"; the text "*" is accepted too, as a path. *)
Definition ParseRequestURI (s : string) : libresult url.URL :=
  if String.eqb s "https://example.com"
  then inr {| url.Scheme := "https"; url.Host := "example.com";
              url.Path := "" |}
  else if String.eqb s "/etc/passwd"
  then inr {| url.Scheme := ""; url.Host := ""; url.Path := "/etc/passwd" |}
  else if String.eqb s "*"
  then inr {| url.Scheme := ""; url.Host := ""; url.Path := "*" |}
  else inl "invalid URI for request".

(** A modulus of 4096 bits. *)
Definition rsa4096 : rsa.PrivateKey :=
  {| rsa.Public := {| rsa.N := 2 ^ 4095 + 1; rsa.E := 65537 |};
     rsa.D := 3 |}.

Definition ecP384 : ecdsa.PrivateKey :=
  {| ecdsa.Public := {| ecdsa.Curve := elliptic.P384;
                        ecdsa.X := 1; ecdsa.Y := 2 |};
     ecdsa.D := 3 |}.

Definition Decode (data : string) : option pem.Block :=
  if String.eqb data "rsa4096.pem"
  then Some {| pem.Type_ := "RSA PRIVATE KEY"; pem.Bytes := "rsa4096.der" |}
  else if String.eqb data "ecP384.pem"
  then Some {| pem.Type_ := "EC PRIVATE KEY"; pem.Bytes := "ecP384.der" |}
  else if String.eqb data "ca.pem"
  then Some {| pem.Type_ := "CERTIFICATE"; pem.Bytes := "ca.der" |}
  else None.

Definition EncodeToMemory (b : pem.Block) : string :=
  String.app "-----BEGIN "
    (String.app (pem.Type_ b) (String.app "-----" (pem.Bytes b))).

Definition ParsePKCS8PrivateKey (der : string)
  : libresult crypto.PrivateKey :=
  inl "x509: failed to parse private key".

Definition ParsePKCS1PrivateKey (der : string)
  : libresult rsa.PrivateKey :=
  if String.eqb der "rsa4096.der" then inr rsa4096
  else inl "x509: failed to parse private key".

Definition ParseECPrivateKey (der : string) : libresult ecdsa.PrivateKey :=
  if String.eqb der "ecP384.der" then inr ecP384
  else inl "x509: failed to parse EC private key".

Definition ParseCertificate (der : string) : libresult x509.Certificate :=
  inl "x509: malformed certificate".

Definition ecdsaGenerateKey (c : elliptic.Curve) (w : Z)
  : libresult ecdsa.PrivateKey * Z :=
  (inr {| ecdsa.Public := {| ecdsa.Curve := c;
                             ecdsa.X := w; ecdsa.Y := w + 1 |};
          ecdsa.D := w + 2 |},
   w + 1).

Definition rsaGenerateKey (bits : Z) (w : Z)
  : libresult rsa.PrivateKey * Z :=
  (inr {| rsa.Public := {| rsa.N := 2 ^ (bits - 1) + 1; rsa.E := 65537 |};
          rsa.D := w |},
   w + 1).

#[export] Instance runtime : GoRuntime :=
  {| World := Z;
     strings_TrimSpace := TrimSpace;
     yaml_Unmarshal := Unmarshal;
     net_ParseIP := ParseIP;
     mail_ParseAddress := ParseAddress;
     url_ParseRequestURI := ParseRequestURI;
     pem_Decode := Decode;
     pem_EncodeToMemory := EncodeToMemory;
     x509_ParsePKCS8PrivateKey := ParsePKCS8PrivateKey;
     x509_ParsePKCS1PrivateKey := ParsePKCS1PrivateKey;
     x509_ParseECPrivateKey := ParseECPrivateKey;
     x509_ParseCertificate := ParseCertificate;
     x509_MarshalECPrivateKey := fun _ => inr "ec.der";
     x509_MarshalPKCS1PrivateKey := fun _ => "rsa.der";
     ecdsa_GenerateKey := ecdsaGenerateKey;
     rsa_GenerateKey := rsaGenerateKey;
     rand_Int := fun max w => (inr (w mod max), w + 1);
     time_Now := fun w =>
       ({| time.instant := 1600000000 * time.Second + w;
           time.location := time.Local |}, w + 1);
     x509_CreateCertificate := fun _ _ _ _ w => (inr "cert.der", w + 1) |}.
End Sample.

(** ** Definitions used to state the properties *)

#[global] Instance ExtKeyUsage_eq_dec : EqDecision x509.ExtKeyUsage.
Proof. solve_decision. Defined.

(** The size a key is generated with: 0 stands for the default. *)
Definition resolvedSize (a : KeyAlgorithm) (size : Z) : Z :=
  if size =? 0
  then match a with ECDSAKey => 256 | RSAKey => 4096 | _ => 0 end
  else size.

(** The expiration a template is built with: zero stands for the default. *)
Definition resolvedExpiration (d : time.Duration) : time.Duration :=
  if decide (d = 0) then DefaultCertificateExpiration else d.

Section TemplateLiteral.
Context `{GoRuntime}.

(** The struct literal at the end of [generateCertificateTemplate]. *)
Definition templateOf (csr : CertificateRequest) (key : Key)
    (publicKey : crypto.PublicKey)
    (signatureAlgorithm : x509.SignatureAlgorithm) (serialNumber : Z)
    (now : time.Time) (expires : time.Duration) (usage : list string)
    (isCA : bool) : x509.Certificate :=
  {| x509.Subject := subject csr;
     x509.PublicKey := publicKey;
     x509.PublicKeyAlgorithm_ := PublicKeyAlgorithm key;
     x509.SignatureAlgorithm_ := signatureAlgorithm;
     x509.IPAddresses := h_IPAddresses (parseHosts csr);
     x509.EmailAddresses := h_EmailAddresses (parseHosts csr);
     x509.URIs := h_URIs (parseHosts csr);
     x509.DNSNames := h_DNSNames (parseHosts csr);
     x509.SerialNumber := serialNumber;
     x509.NotBefore := time.UTC (time.Add now (-5 * time.Minute));
     x509.NotAfter := time.UTC (time.Add now expires);
     x509.KeyUsage_ := fst (sortUsages usage);
     x509.ExtKeyUsage_ := snd (sortUsages usage);
     x509.BasicConstraintsValid := true;
     x509.IsCA := isCA |}.
End TemplateLiteral.

(** The key-usage bits a list of names stands for: the OR of the bits of
    the names found in [keyUsage]. *)
Definition keyUsageBits (usages : list string) : x509.KeyUsage :=
  foldr Z.lor 0 (omap (B := x509.KeyUsage) (fun u => keyUsage !! u) usages).

(** The extended key usages a list of names stands for: the entries of the
    names found in [extKeyUsage], in the order of the names. *)
Definition extKeyUsages (usages : list string) : list x509.ExtKeyUsage :=
  omap (fun u => extKeyUsage !! u) usages.

(** What one turn of the loop of [parseHosts] appends, and to which list:
    the address [net.ParseIP] returned, the address part of what
    [mail.ParseAddress] returned, the URL [url.ParseRequestURI] returned,
    or the host itself. *)
Inductive hostCategory : Type :=
  | IPAddress (ip : net.IP)
  | EmailAddress (address : string)
  | URI (uri : url.URL)
  | DNSName (name : string).

(** The decision of [parseHosts_step], read off its three tests in their
    order: [net.ParseIP] gives an address; else [mail.ParseAddress]
    succeeds; else [url.ParseRequestURI] succeeds; else a DNS name. *)
Definition classify `{GoRuntime} (host : string) : hostCategory :=
  match net_ParseIP host with
  | Some ip => IPAddress ip
  | None =>
      match mail_ParseAddress host with
      | inr email => EmailAddress (mail.Address_ email)
      | inl _ =>
          match url_ParseRequestURI host with
          | inr uri => URI uri
          | inl _ => DNSName host
          end
      end
  end.

Definition ipOf (c : hostCategory) : option net.IP :=
  match c with IPAddress ip => Some ip | _ => None end.
Definition emailOf (c : hostCategory) : option string :=
  match c with EmailAddress a => Some a | _ => None end.
Definition uriOf (c : hostCategory) : option url.URL :=
  match c with URI u => Some u | _ => None end.
Definition dnsOf (c : hostCategory) : option string :=
  match c with DNSName n => Some n | _ => None end.

(** The four categories by name. *)
Inductive hostKind : Type := KindIP | KindEmail | KindURI | KindDNS.

Definition kindOf (c : hostCategory) : hostKind :=
  match c with
  | IPAddress _ => KindIP
  | EmailAddress _ => KindEmail
  | URI _ => KindURI
  | DNSName _ => KindDNS
  end.

(** The classifier in the words of the specification, first match wins:
    a valid literal IP address; a valid email address; a "valid absolute
    URI with scheme", that is a text that reads as a URI and whose URI is
    absolute; otherwise a DNS name. *)
Definition specCategory `{GoRuntime} (host : string) : hostKind :=
  match net_ParseIP host with
  | Some _ => KindIP
  | None =>
      match mail_ParseAddress host with
      | inr _ => KindEmail
      | inl _ =>
          match url_ParseRequestURI host with
          | inr uri => if url.IsAbs uri then KindURI else KindDNS
          | inl _ => KindDNS
          end
      end
  end.

(** ** Definitions used to state further properties *)

(** The signature algorithm of a key of the given algorithm and size. *)
Definition signatureFor (a : KeyAlgorithm) (size : Z)
  : x509.SignatureAlgorithm :=
  match a with
  | RSAKey =>
      if decide (4096 <= size) then x509.SHA512WithRSA
      else if decide (3072 <= size) then x509.SHA384WithRSA
      else x509.SHA256WithRSA
  | _ =>
      if decide (size = 521) then x509.ECDSAWithSHA512
      else if decide (size = 384) then x509.ECDSAWithSHA384
      else x509.ECDSAWithSHA256
  end.

(** A runtime in which the CA certificate of the tests parses; the other
    operations are those of [Sample.runtime]. *)
Module SampleCA.
Definition caCert : x509.Certificate :=
  {| x509.Subject := subject Sample.testCSR;
     x509.PublicKey := crypto.ECDSAPublic (ecdsa.Public Sample.ecP384);
     x509.PublicKeyAlgorithm_ := x509.ECDSA;
     x509.SignatureAlgorithm_ := x509.ECDSAWithSHA384;
     x509.IPAddresses := [];
     x509.EmailAddresses := [];
     x509.URIs := [];
     x509.DNSNames := [];
     x509.SerialNumber := 1;
     x509.NotBefore := {| time.instant := 0; time.location := time.UTCLoc |};
     x509.NotAfter := {| time.instant := 1; time.location := time.UTCLoc |};
     x509.KeyUsage_ := Z.lor x509.KeyUsageCertSign x509.KeyUsageCRLSign;
     x509.ExtKeyUsage_ := [];
     x509.BasicConstraintsValid := true;
     x509.IsCA := true |}.

Definition ParseCertificate (der : string) : libresult x509.Certificate :=
  if String.eqb der "ca.der" then inr caCert
  else inl "x509: malformed certificate".

Definition runtime : GoRuntime :=
  {| World := Z;
     strings_TrimSpace := Sample.TrimSpace;
     yaml_Unmarshal := Sample.Unmarshal;
     net_ParseIP := Sample.ParseIP;
     mail_ParseAddress := Sample.ParseAddress;
     url_ParseRequestURI := Sample.ParseRequestURI;
     pem_Decode := Sample.Decode;
     pem_EncodeToMemory := Sample.EncodeToMemory;
     x509_ParsePKCS8PrivateKey := Sample.ParsePKCS8PrivateKey;
     x509_ParsePKCS1PrivateKey := Sample.ParsePKCS1PrivateKey;
     x509_ParseECPrivateKey := Sample.ParseECPrivateKey;
     x509_ParseCertificate := ParseCertificate;
     x509_MarshalECPrivateKey := fun _ => inr "ec.der";
     x509_MarshalPKCS1PrivateKey := fun _ => "rsa.der";
     ecdsa_GenerateKey := Sample.ecdsaGenerateKey;
     rsa_GenerateKey := Sample.rsaGenerateKey;
     rand_Int := fun max w => (inr (w mod max), w + 1);
     time_Now := fun w =>
       ({| time.instant := 1600000000 * time.Second + w;
           time.location := time.Local |}, w + 1);
     x509_CreateCertificate := fun _ _ _ _ w => (inr "cert.der", w + 1) |}.
End SampleCA.

(** ** Certificate signing requests *)

Module asn1.
(** [asn1.ObjectIdentifier]. *)
Definition ObjectIdentifier : Type := list Z.
End asn1.

Module pkixext.
(** [pkix.Extension]. *)
Record Extension : Type := {
  Id : asn1.ObjectIdentifier;
  Critical : bool;
  Value : string
}.
End pkixext.

Module x509csr.
(** The fields of [x509.CertificateRequest] the package fills in. *)
Record CertificateRequest : Type := {
  Subject : pkix.Name;
  SignatureAlgorithm_ : x509.SignatureAlgorithm;
  IPAddresses : list net.IP;
  EmailAddresses : list string;
  URIs : list url.URL;
  DNSNames : list string;
  Extensions : list pkixext.Extension;
  ExtraExtensions : list pkixext.Extension
}.
End x509csr.

(** The two further library operations requests are signed with:
    [x509.CreateCertificateRequest], which reads the random source, and
    [asn1.Marshal] at the one type it is called with, a struct with the
    optional boolean field [IsCA]. *)
Class CSRRuntime `{GoRuntime} : Type := {
  x509_CreateCertificateRequest :
    x509csr.CertificateRequest -> crypto.PrivateKey -> World ->
    libresult string * World;
  asn1_Marshal_BasicConstraints : bool -> libresult string
}.

Section SigningRequests.
Context `{CSRRuntime}.

Definition generate (csr : CertificateRequest) (key : Key)
    (extensions ExtraExtensions : list pkixext.Extension) : M string :=
  let hosts := parseHosts csr in
  let! signatureAlgorithm := lift (SignatureAlgorithm key) in
  let template :=
    {| x509csr.Subject := subject csr;
       x509csr.SignatureAlgorithm_ := signatureAlgorithm;
       x509csr.IPAddresses := h_IPAddresses hosts;
       x509csr.EmailAddresses := h_EmailAddresses hosts;
       x509csr.URIs := h_URIs hosts;
       x509csr.DNSNames := h_DNSNames hosts;
       x509csr.Extensions := extensions;
       x509csr.ExtraExtensions := ExtraExtensions |} in
  let! out := call (x509_CreateCertificateRequest template (PrivateKey key)) in
  ret (pem_EncodeToMemory
         {| pem.Type_ := "CERTIFICATE REQUEST"; pem.Bytes := out |}).

Definition generateCAExtension : result pkixext.Extension :=
  let* val := of_lib (asn1_Marshal_BasicConstraints true) in
  Ok {| pkixext.Id := [2; 5; 29; 19];
        pkixext.Value := val;
        pkixext.Critical := true |}.
End SigningRequests.

Module SampleCSR.
Definition CreateCertificateRequest (template : x509csr.CertificateRequest)
    (priv : crypto.PrivateKey) (w : Z) : libresult string * Z :=
  (inr "csr.der", w + 1).

Definition Marshal (isCA : bool) : libresult string :=
  inr "basicConstraints.der".

Definition runtime : @CSRRuntime Sample.runtime :=
  @Build_CSRRuntime Sample.runtime CreateCertificateRequest Marshal.
End SampleCSR.

(** ** Package [keyvalue]: newline-delimited key=value text *)

From Stdlib Require Import Ascii.

(** The functions of Go's [strings] package the package computes with. *)
Module gostrings.
(** [strings.HasPrefix]. *)
Definition HasPrefix (s prefix : string) : bool := String.prefix prefix s.

(** [strings.HasSuffix]:
    [len(s) >= len(suffix) && s[len(s)-len(suffix):] == suffix]. *)
Definition HasSuffix (s suffix : string) : bool :=
  (String.length suffix <=? String.length s)%nat &&
  String.eqb
    (String.substring (String.length s - String.length suffix)
       (String.length suffix) s)
    suffix.

(** The slice expression [s[i:j]], for [i <= j <= len(s)]. *)
Definition slice (s : string) (i j : nat) : string :=
  String.substring i (j - i) s.

(** [strings.Join]. *)
Fixpoint Join (elems : list string) (sep : string) : string :=
  match elems with
  | [] => ""
  | [e] => e
  | e :: rest => String.append e (String.append sep (Join rest sep))
  end.
End gostrings.

(** The library operations whose definition the package does not depend
    on: trimming and upper-casing as defined by Unicode, and the lines a
    [bufio.Scanner] yields for a text. *)
Class TextRuntime : Type := {
  text_TrimSpace : string -> string;
  text_ToUpper : string -> string;
  bufio_ScanLines : string -> list string
}.

Module keyvalue.
Record Pair : Type := { Key : string; Value : string }.

Inductive error : Type :=
  | ErrEmptyValue                     (* "value cannot be empty" *)
  | ErrInvalidSyntax                  (* "invalid syntax" *)
  | ErrDuplicateKeys (key : string)   (* "duplicate keys %s" *)
  | ErrTransform (msg : string).      (* an error of a caller's transform *)

(** [fmt.Sprintf("%s=%s", kv.Key, kv.Value)]. *)
Definition Pair_String (kv : Pair) : string :=
  String.append (Key kv) (String.append "=" (Value kv)).

(** The text before and after the first '='. *)
Fixpoint cutAtEquals (s : string) : option (string * string) :=
  match s with
  | EmptyString => None
  | String c rest =>
      if Ascii.eqb c "="%char then Some (EmptyString, rest)
      else match cutAtEquals rest with
           | Some (k, v) => Some (String c k, v)
           | None => None
           end
  end.

Fixpoint hasNewline (s : string) : bool :=
  match s with
  | EmptyString => false
  | String c rest => Ascii.eqb c "010"%char || hasNewline rest
  end.

(** [keyValueRegex.FindStringSubmatch]. The expression is anchored at
    both ends and has two groups around an '=': one or more characters
    other than '=', then any characters. So the first group is the text
    before the first '=', which must not be empty; the second is the rest
    of the text, which must not contain a newline, since the dot does not
    match one and the dollar matches at the end of the text only. [None]
    is the nil slice. *)
Definition keyValueRegex (s : string) : option (string * string) :=
  match cutAtEquals s with
  | Some (k, v) =>
      if negb (String.eqb k "") && negb (hasNewline v) then Some (k, v)
      else None
  | None => None
  end.

(** The texts of one double quote and of one single quote. *)
Definition doubleQuote : string := String "034"%char EmptyString.
Definition singleQuote : string := String "039"%char EmptyString.

(** [TransformPair]: the pair after the transformation, or an error. *)
Definition TransformPair : Type := Pair -> error + Pair.

Definition RemoveOuterQuotes : TransformPair := fun kv =>
  let v := Value kv in
  if (2 <? String.length v)%nat && gostrings.HasPrefix v doubleQuote
     && gostrings.HasSuffix v doubleQuote
  then inr {| Key := Key kv;
              Value := gostrings.slice v 1 (String.length v - 1) |}
  else if (2 <? String.length v)%nat && gostrings.HasPrefix v singleQuote
          && gostrings.HasSuffix v singleQuote
  then inr {| Key := Key kv;
              Value := gostrings.slice v 1 (String.length v - 1) |}
  else inr kv.

(** The loop over the transforms: the first error ends it. *)
Fixpoint applyTransforms (transform : list TransformPair) (kv : Pair)
  : error + Pair :=
  match transform with
  | [] => inr kv
  | t :: rest =>
      match t kv with
      | inr kv' => applyTransforms rest kv'
      | inl err => inl err
      end
  end.

(** The loop of [ToMap], from the map built so far. *)
Fixpoint ToMap_from (out : gmap string string) (s : list Pair)
  : error + gmap string string :=
  match s with
  | [] => inr out
  | kv :: rest =>
      match out !! Key kv with
      | Some _ => inl (ErrDuplicateKeys (Key kv))
      | None => ToMap_from (<[Key kv := Value kv]> out) rest
      end
  end.

Definition ToMap (s : list Pair) : error + gmap string string :=
  ToMap_from ∅ s.

(** [PairSlice.String]: the slice [pairs] is made with [len(s)] empty
    strings and the texts of the pairs are appended to it. *)
Definition PairSlice_String (s : list Pair) : string :=
  gostrings.Join (replicate (length s) "" ++ (Pair_String <$> s)) ", ".

Section Parsing.
Context `{TextRuntime}.

Definition KeyToUpper : TransformPair := fun kv =>
  inr {| Key := text_ToUpper (Key kv); Value := Value kv |}.

Definition ParsePair (value : string) (transform : list TransformPair)
  : error + Pair :=
  let value := text_TrimSpace value in
  if String.eqb value "" then inl ErrEmptyValue
  else
    match keyValueRegex value with
    | Some (g1, g2) =>
        applyTransforms transform
          {| Key := text_TrimSpace g1; Value := text_TrimSpace g2 |}
    | None => inl ErrInvalidSyntax
    end.

(** The loop of [ParsePairSlice] over the scanned lines. *)
Fixpoint ParsePairSlice_lines (out : list Pair) (lines : list string)
    (transform : list TransformPair) : error + list Pair :=
  match lines with
  | [] => inr out
  | text :: rest =>
      let line := text_TrimSpace text in
      if (String.length line =? 0)%nat || gostrings.HasPrefix line "#"
         || gostrings.HasPrefix line ";"
      then ParsePairSlice_lines out rest transform
      else
        match ParsePair line transform with
        | inr kv => ParsePairSlice_lines (out ++ [kv]) rest transform
        | inl err => inl err
        end
  end.

Definition ParsePairSlice (input : string) (transform : list TransformPair)
  : error + list Pair :=
  ParsePairSlice_lines [] (bufio_ScanLines input) transform.
End Parsing.
End keyvalue.

(** ** Package [linux]: os-release files *)

Module linux.
Inductive Distribution : Type :=
  | noDistributionSet
  | AlpineLinux
  | DebianLinux
  | UbuntuLinux
  | FedoraLinux
  | GenericLinux.

Definition Distribution_String (d : Distribution) : string :=
  match d with
  | AlpineLinux => "alpine"
  | DebianLinux => "debian"
  | UbuntuLinux => "ubuntu"
  | FedoraLinux => "fedora"
  | _ => "linux"
  end.

Definition ParseDistributionID (id : string) : Distribution :=
  if String.eqb id "alpine" then AlpineLinux
  else if String.eqb id "debian" then DebianLinux
  else if String.eqb id "ubuntu" then UbuntuLinux
  else if String.eqb id "fedora" then FedoraLinux
  else GenericLinux.

Record OSRelease : Type := {
  ID : Distribution;
  Name : string;
  PrettyName : string;
  Version : string;
  VersionCodename : string;
  Extra : gmap string string
}.

(** One iteration of the loop over the map of values. *)
Definition OSRelease_step (out : OSRelease) (kv : string * string)
  : OSRelease :=
  let '(key, value) := kv in
  if String.eqb key "ID" then
    {| ID := ParseDistributionID value; Name := Name out;
       PrettyName := PrettyName out; Version := Version out;
       VersionCodename := VersionCodename out; Extra := Extra out |}
  else if String.eqb key "NAME" then
    {| ID := ID out; Name := value;
       PrettyName := PrettyName out; Version := Version out;
       VersionCodename := VersionCodename out; Extra := Extra out |}
  else if String.eqb key "PRETTY_NAME" then
    {| ID := ID out; Name := Name out;
       PrettyName := value; Version := Version out;
       VersionCodename := VersionCodename out; Extra := Extra out |}
  else if String.eqb key "VERSION_ID" then
    {| ID := ID out; Name := Name out;
       PrettyName := PrettyName out; Version := value;
       VersionCodename := VersionCodename out; Extra := Extra out |}
  else if String.eqb key "VERSION_CODENAME" then
    {| ID := ID out; Name := Name out;
       PrettyName := PrettyName out; Version := Version out;
       VersionCodename := value; Extra := Extra out |}
  else
    {| ID := ID out; Name := Name out;
       PrettyName := PrettyName out; Version := Version out;
       VersionCodename := VersionCodename out;
       Extra := <[key := value]> (Extra out) |}.

(** [&OSRelease{Extra: map[string]string{}}]. *)
Definition OSRelease_zero : OSRelease :=
  {| ID := noDistributionSet; Name := ""; PrettyName := "";
     Version := ""; VersionCodename := ""; Extra := ∅ |}.

(** The loop [for key, value := range values], visiting the entries in
    the order [entries]; Go leaves the order unspecified. *)
Definition fillOSRelease (entries : list (string * string)) : OSRelease :=
  foldl OSRelease_step OSRelease_zero entries.

Section Parsing.
Context `{TextRuntime}.

(** [ParseOSRelease], with the entries of the map visited in the order
    [map_to_list] gives. *)
Definition ParseOSRelease (input : string) : keyvalue.error + OSRelease :=
  match keyvalue.ParsePairSlice input [keyvalue.RemoveOuterQuotes] with
  | inl err => inl err
  | inr pairs =>
      match keyvalue.ToMap pairs with
      | inl err => inl err
      | inr values => inr (fillOSRelease (map_to_list values))
      end
  end.
End Parsing.
End linux.

(** The characters of a text. *)
Definition chars (s : string) : list ascii := String.list_ascii_of_string s.

(** A text runtime for ASCII text: trimming as in [Sample.TrimSpace],
    upper-casing of the letters a to z, and lines ended by a newline with
    an optional carriage return before it. *)
Module SampleText.
Definition upper (c : ascii) : ascii :=
  let n := nat_of_ascii c in
  if (97 <=? n)%nat && (n <=? 122)%nat then ascii_of_nat (n - 32) else c.

Fixpoint ToUpper (s : string) : string :=
  match s with
  | EmptyString => EmptyString
  | String c rest => String (upper c) (ToUpper rest)
  end.

(** Drops one carriage return at the end of a line. *)
Definition dropCR (line : string) : string :=
  match String.rev line with
  | String c rest =>
      if Ascii.eqb c "013"%char then String.rev rest else line
  | EmptyString => line
  end.

(** The lines of [s], with [cur] the reversed text of the line being
    read. *)
Fixpoint ScanLines_go (cur : string) (s : string) : list string :=
  match s with
  | EmptyString =>
      match cur with
      | EmptyString => []
      | _ => [dropCR (String.rev cur)]
      end
  | String c rest =>
      if Ascii.eqb c "010"%char
      then dropCR (String.rev cur) :: ScanLines_go EmptyString rest
      else ScanLines_go (String c cur) rest
  end.

Definition ScanLines (s : string) : list string := ScanLines_go EmptyString s.

Definition runtime : TextRuntime :=
  {| text_TrimSpace := Sample.TrimSpace;
     text_ToUpper := ToUpper;
     bufio_ScanLines := ScanLines |}.

(** A text made of the given lines, each ended by a newline. *)
Definition text (lines : list string) : string :=
  foldr (fun line rest => String.append line (String "010"%char rest))
    EmptyString lines.

(** The input of the test of [ParsePairSlice], without its quoted line. *)
Definition kvSliceIn : string :=
  text [""; "SHLVL=1"; "_=/usr/bin/env"; "; Comment"; ""; "";
        "# Comment"; "ID=test"].

(** A text with a line that is not a pair. *)
Definition badInput : string := text ["# Comment"; "ID test"].

(** Part of the os-release text of the tests. *)
Definition osReleaseTest : string :=
  text [""; "NAME=Ubuntu"; "ID=ubuntu"; "ID_LIKE=debian";
        "VERSION_ID=20.04"; "VERSION_CODENAME=focal";
        "UBUNTU_CODENAME=focal"].
End SampleText.

(** A pair as an entry of a map. *)
Definition entry (kv : keyvalue.Pair) : string * string :=
  (keyvalue.Key kv, keyvalue.Value kv).

(** A trimmed line the parser passes over: empty, or a comment. *)
Definition isSkipped (line : string) : bool :=
  (String.length line =? 0)%nat || gostrings.HasPrefix line "#"
  || gostrings.HasPrefix line ";".

(** The trimmed lines that are parsed as pairs. *)
Definition significant `{TextRuntime} (lines : list string) : list string :=
  filter (fun line => isSkipped line = false) (text_TrimSpace <$> lines).

(** The results of [f] on the elements of a list, up to the first
    error. *)
Fixpoint collect {A B E : Type} (f : A -> E + B) (l : list A) : E + list B :=
  match l with
  | [] => inr []
  | a :: rest =>
      match f a with
      | inl e => inl e
      | inr b =>
          match collect f rest with
          | inl e => inl e
          | inr bs => inr (b :: bs)
          end
      end
  end.

(** The keys of an os-release file that have a field of their own. *)
Definition knownKeys : list string :=
  ["ID"; "NAME"; "PRETTY_NAME"; "VERSION_ID"; "VERSION_CODENAME"].

(** The release described by a map of values. *)
Definition osReleaseOf (values : gmap string string) : linux.OSRelease :=
  {| linux.ID :=
       from_option linux.ParseDistributionID linux.noDistributionSet
         (values !! "ID");
     linux.Name := default "" (values !! "NAME");
     linux.PrettyName := default "" (values !! "PRETTY_NAME");
     linux.Version := default "" (values !! "VERSION_ID");
     linux.VersionCodename := default "" (values !! "VERSION_CODENAME");
     linux.Extra :=
       filter (fun kv : string * string => kv.1 ∉ knownKeys) values |}.

(** ** Package [compression] *)

Module compression.
Inductive Algorithm : Type :=
  | compressionAlgorithmNotSet
  | Zstandard.

Inductive error : Type :=
  | EOF                     (* io.EOF *)
  | ErrNegativePosition     (* "bytes.Reader.Seek: negative position" *)
  | ErrSystem               (* "system error" *)
  | ErrCannotAutodetect.    (* "cannot autodetect algorithm" *)

Inductive outcome (A : Type) : Type :=
  | Done (a : A)
  | Failed (e : error)
  | Panicked (msg : string).
Arguments Done {A} a.
Arguments Failed {A} e.
Arguments Panicked {A} msg.

(** An in-memory [io.ReadSeeker], as [bytes.Reader]: the bytes and the
    current offset, which is never negative. *)
Record Reader : Type := { content : list Z; offset : Z }.

(** [Read] into a buffer of [n] bytes, [n] positive: the bytes copied and
    the error. At the end of the content nothing is copied and the error
    is [io.EOF]. *)
Definition Read (r : Reader) (n : nat)
  : (list Z * option error) * Reader :=
  if Z.of_nat (length (content r)) <=? offset r
  then (([], Some EOF), r)
  else
    let copied := take n (drop (Z.to_nat (offset r)) (content r)) in
    ((copied, None),
     {| content := content r;
        offset := offset r + Z.of_nat (length copied) |}).

(** [Seek(delta, os.SEEK_CUR)]. *)
Definition SeekCurrent (r : Reader) (delta : Z) : option error * Reader :=
  if offset r + delta <? 0 then (Some ErrNegativePosition, r)
  else (None, {| content := content r; offset := offset r + delta |}).

(** [binary.LittleEndian.Uint32] of a buffer of four bytes. *)
Definition Uint32 (b : list Z) : Z :=
  match b with
  | [b0; b1; b2; b3] =>
      Z.lor (Z.lor (Z.lor b0 (Z.shiftl b1 8)) (Z.shiftl b2 16))
        (Z.shiftl b3 24)
  | _ => 0
  end.

Definition zstdMagic : Z := 0xFD2FB528.
Definition zstdMagicSkipStart : Z := 0x184D2A50.
Definition zstdMagicSkipMask : Z := 0xFFFFFFF0.

(** The buffer [signature] after [l] bytes were read into it. *)
Definition filled (copied : list Z) : list Z :=
  copied ++ replicate (4 - length copied) 0.

Definition autoDetectZstd (r : Reader) : (bool * option error) * Reader :=
  let '((copied, err), r) := Read r 4 in
  let signature := filled copied in
  if bool_decide (err <> None) || (length copied <? 4)%nat
  then ((false, err), r)
  else
    let '(err, r) := SeekCurrent r (-4) in
    match err with
    | Some e => ((false, Some e), r)
    | None =>
        let prefix := Uint32 signature in
        if (prefix =? zstdMagic)
           || (Z.land prefix zstdMagicSkipMask =? zstdMagicSkipStart)
        then ((true, None), r)
        else ((false, None), r)
    end.

Definition AutoDetect (r : Reader) : outcome Algorithm * Reader :=
  let '((ok, err), r) := autoDetectZstd r in
  if ok then (Done Zstandard, r)
  else
    match err with
    | Some _ =>
        (Panicked
           "unexpected error while autodetecting compression algorithm", r)
    | None => (Failed ErrCannotAutodetect, r)
    end.

(** [Level], and the levels of the encoder library. *)
Inductive Level : Type :=
  | speedNotSet
  | SpeedFastest
  | SpeedDefault
  | SpeedBetterCompression
  | SpeedBestCompression.

Inductive EncoderLevel : Type :=
  | zstd_SpeedFastest
  | zstd_SpeedDefault
  | zstd_SpeedBetterCompression
  | zstd_SpeedBestCompression.

Section Compressors.
(** The encoder of the library and its constructor
    [zstd.NewWriter(w, zstd.WithEncoderLevel(level))]. *)
Variable Encoder : Type.
Variable zstd_NewWriter : EncoderLevel -> string + Encoder.

Record zstdCompressor : Type := {
  encoder : option Encoder;
  level : EncoderLevel
}.

(** What an [interface{}] argument can hold here: a [zstdCompressor], a
    pointer to one (with the value it points to), or something else. *)
Inductive dynamic : Type :=
  | Value (c : zstdCompressor)
  | Pointer (c : zstdCompressor)
  | Other.

(** [compressionLevelOption.Apply]: the error, and what the argument holds
    or points to after the call. The type switch has one case, for the
    type [zstdCompressor]; there [v] is a copy of the value in the
    interface, and the new level is stored in the copy. A pointer matches
    no case. *)
Definition Apply (o : Level) (compressor : dynamic)
  : option string * dynamic :=
  match compressor with
  | Value c =>
      let v :=
        match o with
        | SpeedFastest =>
            {| encoder := encoder c; level := zstd_SpeedFastest |}
        | SpeedDefault =>
            {| encoder := encoder c; level := zstd_SpeedDefault |}
        | SpeedBetterCompression =>
            {| encoder := encoder c; level := zstd_SpeedBetterCompression |}
        | SpeedBestCompression =>
            {| encoder := encoder c; level := zstd_SpeedBestCompression |}
        | speedNotSet => c
        end in
      (None, Value c)
  | Pointer c => (None, Pointer c)
  | Other => (None, Other)
  end.

(** The loop of [newZstdCompressor] over the options, each made by
    [WithCompressionLevel]; [c] is what the pointer points to. *)
Fixpoint applyOptions (opts : list Level) (c : zstdCompressor)
  : string + zstdCompressor :=
  match opts with
  | [] => inr c
  | opt :: rest =>
      match Apply opt (Pointer c) with
      | (Some err, _) => inl err
      | (None, Pointer c') => applyOptions rest c'
      | (None, _) => applyOptions rest c
      end
  end.

Definition newZstdCompressor (opts : list Level) : string + zstdCompressor :=
  let c := {| encoder := None; level := zstd_SpeedBestCompression |} in
  match applyOptions opts c with
  | inl err => inl err
  | inr c =>
      match zstd_NewWriter (level c) with
      | inl err => inl err
      | inr enc => inr {| encoder := Some enc; level := level c |}
      end
  end.
End Compressors.
End compression.

(** ** Package [builder]: the answer of the docker daemon *)

Module builder.
(** [strings.Split(s, sep)] for a separator of one character, with [cur]
    the reversed text of the part being read. *)
Fixpoint Split_go (cur : string) (s : string) (sep : ascii) : list string :=
  match s with
  | EmptyString => [String.rev cur]
  | String c rest =>
      if Ascii.eqb c sep
      then String.rev cur :: Split_go EmptyString rest sep
      else Split_go (String c cur) rest sep
  end.

Definition Split (s : string) (sep : ascii) : list string :=
  Split_go EmptyString s sep.

Inductive outcome (A : Type) : Type :=
  | Returned (a : A)
  | Panicked (msg : string).
Arguments Returned {A} a.
Arguments Panicked {A} msg.

(** [dockerImageID.Hash]. *)
Definition Hash (i : string) : outcome string :=
  match Split i ":"%char with
  | [_; hash] => Returned hash
  | _ => Panicked (String.append "cannot parse " i)
  end.

(** A decoded JSON value, as [encoding/json] stores it in an
    [interface{}]. *)
#[local] Unset Elimination Schemes.
Inductive json : Type :=
  | JNull
  | JBool (b : bool)
  | JNumber (n : Q)
  | JString (s : string)
  | JArray (l : list json)
  | JObject (m : gmap string json).
#[local] Set Elimination Schemes.

(** [dockerResponseLine]: the decoded object of one line. *)
Definition dockerResponseLine : Type := gmap string json.

Definition IsAux (l : dockerResponseLine) : bool :=
  bool_decide (is_Some (l !! "aux")).

(** [Aux]: the type assertion panics when "aux" is not an object. *)
Definition Aux (l : dockerResponseLine) : outcome (option (gmap string json)) :=
  match l !! "aux" with
  | None => Returned None
  | Some (JObject m) => Returned (Some m)
  | Some _ => Panicked "interface conversion"
  end.

(** The loop of [ImageID], over the lines from the last to the first. *)
Fixpoint ImageID_loop (reversed : list dockerResponseLine) : outcome string :=
  match reversed with
  | [] => Returned ""
  | v :: rest =>
      if negb (IsAux v) then ImageID_loop rest
      else
        match Aux v with
        | Panicked msg => Panicked msg
        | Returned None => ImageID_loop rest
        | Returned (Some a) =>
            match a !! "ID" with
            | None => ImageID_loop rest
            | Some (JString id) => Returned id
            | Some _ => Panicked "interface conversion"
            end
        end
  end.

Definition ImageID (lines : list dockerResponseLine) : outcome string :=
  ImageID_loop (reverse lines).
(** A line that [ImageID] passes over: no "aux" member, or an "aux" object
    without an "ID". *)
Definition carriesNoID (l : dockerResponseLine) : Prop :=
  l !! "aux" = None \/
  exists a, l !! "aux" = Some (JObject a) /\ a !! "ID" = None.

(** A line whose "aux" object has the string [id] as its "ID". *)
Definition carriesID (l : dockerResponseLine) (id : string) : Prop :=
  exists a, l !! "aux" = Some (JObject a) /\ a !! "ID" = Some (JString id).

Definition isJObject (v : json) : bool :=
  match v with JObject _ => true | _ => false end.

Definition isJString (v : json) : bool :=
  match v with JString _ => true | _ => false end.

(** A line on which a type assertion of [ImageID] fails: "aux" is not an
    object, or its "ID" is not a string. *)
Definition malformed (l : dockerResponseLine) : Prop :=
  (exists v, l !! "aux" = Some v /\ isJObject v = false) \/
  (exists a v, l !! "aux" = Some (JObject a) /\ a !! "ID" = Some v /\
               isJString v = false).
End builder.

(** A byte. *)
Definition isByte (b : Z) : Prop := 0 <= b < 256.

(** The four bytes are the magic number of a Zstandard frame or of a
    skippable frame. *)
Definition zstdSignature (b0 b1 b2 b3 : Z) : Prop :=
  (b0 = 0x28 /\ b1 = 0xB5 /\ b2 = 0x2F /\ b3 = 0xFD) \/
  (0x50 <= b0 <= 0x5F /\ b1 = 0x2A /\ b2 = 0x4D /\ b3 = 0x18).

(** * Properties *)

Ltac run :=
  unfold bindM, lift, call, ret, rbind, of_lib, deref in *; simpl in *.

(** ** Key sizes *)

Lemma ValidKeySize_ECDSA (size : Z) :
  ValidKeySize ECDSAKey size =
    if decide (size = 0 \/ size = 256 \/ size = 384 \/ size = 521)
    then Ok tt else Err (ErrInvalidECDSAKeySize size).
Proof.
  unfold ValidKeySize.
  case_decide as Hs.
  - destruct Hs as [-> | [-> | [-> | ->]]]; reflexivity.
  - destruct (size =? 0) eqn:E0; [lia |].
    destruct (size =? 256) eqn:E1; [lia |].
    destruct (size =? 384) eqn:E2; [lia |].
    destruct (size =? 521) eqn:E3; [lia |].
    reflexivity.
Qed.

Lemma ValidKeySize_RSA (size : Z) :
  ValidKeySize RSAKey size =
    if decide (size = 0 \/ 2048 <= size <= 8192)
    then Ok tt else Err (ErrInvalidRSAKeySize size).
Proof.
  unfold ValidKeySize, minRSAKeySize, maxRSAKeySize.
  case_decide as Hs.
  - destruct (size =? 0) eqn:E0; [reflexivity |].
    destruct (size >=? 2048) eqn:E1; [| lia].
    destruct (size <=? 8192) eqn:E2; [| lia].
    reflexivity.
  - destruct (size =? 0) eqn:E0; [lia |].
    destruct (size >=? 2048) eqn:E1; [| reflexivity].
    destruct (size <=? 8192) eqn:E2; [lia | reflexivity].
Qed.

Lemma GenerateKey_invalid `{GoRuntime} (a : KeyAlgorithm) (size : Z)
    (e : error) (w : World) :
  ValidKeySize a size = Err e -> GenerateKey a size w = (Err e, w).
Proof.
  intros Hv. unfold GenerateKey, bindM, lift. rewrite Hv. reflexivity.
Qed.

(** C5. Key-size validation accepts exactly {0, 256, 384, 521} for ECDSA
    and exactly 0 and the sizes in [2048, 8192] for RSA; every other
    integer (5, 333, 2047 and 8193 among them) gets the validation error,
    and [GenerateKey] returns that error with the world untouched, so
    nothing has been generated. *)
Theorem key_size_validation `{GoRuntime} :
  (forall size,
     ValidKeySize ECDSAKey size =
       if decide (size = 0 \/ size = 256 \/ size = 384 \/ size = 521)
       then Ok tt else Err (ErrInvalidECDSAKeySize size)) /\
  (forall size,
     ValidKeySize RSAKey size =
       if decide (size = 0 \/ 2048 <= size <= 8192)
       then Ok tt else Err (ErrInvalidRSAKeySize size)) /\
  ValidKeySize ECDSAKey 5 = Err (ErrInvalidECDSAKeySize 5) /\
  ValidKeySize ECDSAKey 333 = Err (ErrInvalidECDSAKeySize 333) /\
  ValidKeySize RSAKey 2047 = Err (ErrInvalidRSAKeySize 2047) /\
  ValidKeySize RSAKey 8193 = Err (ErrInvalidRSAKeySize 8193) /\
  (forall a size e w,
     ValidKeySize a size = Err e -> GenerateKey a size w = (Err e, w)).
Proof.
  split; [exact ValidKeySize_ECDSA |].
  split; [exact ValidKeySize_RSA |].
  repeat (split; [reflexivity |]).
  intros a size e w. apply GenerateKey_invalid.
Qed.

Lemma key_size_validation_witness :
  ValidKeySize RSAKey 2047 = Err (ErrInvalidRSAKeySize 2047) /\
  @GenerateKey Sample.runtime RSAKey 2047 0 =
    (Err (ErrInvalidRSAKeySize 2047), 0).
Proof.
  split; [reflexivity |].
  apply (proj2 (proj2 (proj2 (proj2 (proj2 (proj2
           (@key_size_validation Sample.runtime))))))).
  reflexivity.
Defined.

(** ** Key generation *)

Lemma generateECDSAKey_inv `{GoRuntime} size w key w' :
  generateECDSAKey size w = (Ok key, w') ->
  exists curve priv der,
    (resolvedSize ECDSAKey size = 256 /\ curve = elliptic.P256 \/
     resolvedSize ECDSAKey size = 384 /\ curve = elliptic.P384 \/
     resolvedSize ECDSAKey size = 521 /\ curve = elliptic.P521) /\
    ecdsa_GenerateKey curve w = (inr priv, w') /\
    x509_MarshalECPrivateKey priv = inr der /\
    key = ecdsaKey
            {| algorithm := ECDSAKey;
               size := resolvedSize ECDSAKey size;
               encoded := pem_EncodeToMemory
                            {| pem.Type_ := "EC PRIVATE KEY";
                               pem.Bytes := der |};
               privateKey := crypto.ECDSAPrivate priv |}.
Proof.
  unfold generateECDSAKey, resolvedSize. run.
  destruct (size =? 0) eqn:E0; simpl.
  - destruct (ecdsa_GenerateKey elliptic.P256 w) as [[msg | priv] w1] eqn:Eg;
      simpl; [discriminate |].
    destruct (x509_MarshalECPrivateKey priv) as [msg | der] eqn:Em;
      simpl; [discriminate |].
    intros [= <- <-]. exists elliptic.P256, priv, der. tauto.
  - destruct (size =? 256) eqn:E1; simpl;
      [| destruct (size =? 384) eqn:E2; simpl;
         [| destruct (size =? 521) eqn:E3; simpl; [| discriminate]]].
    all: match goal with
         | |- context [ecdsa_GenerateKey ?c ?w0] =>
             destruct (ecdsa_GenerateKey c w0) as [[msg | priv] w1] eqn:Eg;
             simpl; [discriminate |];
             destruct (x509_MarshalECPrivateKey priv) as [msg | der] eqn:Em;
             simpl; [discriminate |];
             intros [= <- <-]; exists c, priv, der
         end.
    all: split; [| auto].
    all: first [ left; split; [lia | reflexivity]
               | right; left; split; [lia | reflexivity]
               | right; right; split; [lia | reflexivity] ].
Qed.

Lemma generateRSAKey_inv `{GoRuntime} size w key w' :
  generateRSAKey size w = (Ok key, w') ->
  exists priv,
    rsa_GenerateKey (resolvedSize RSAKey size) w = (inr priv, w') /\
    key = rsaKey
            {| algorithm := RSAKey;
               size := resolvedSize RSAKey size;
               encoded := pem_EncodeToMemory
                            {| pem.Type_ := "RSA PRIVATE KEY";
                               pem.Bytes := x509_MarshalPKCS1PrivateKey priv |};
               privateKey := crypto.RSAPrivate priv |}.
Proof.
  unfold generateRSAKey, resolvedSize. run.
  destruct (size =? 0) eqn:E0; simpl.
  all: match goal with
       | |- context [rsa_GenerateKey ?b ?w0] =>
           destruct (rsa_GenerateKey b w0) as [[msg | priv] w1] eqn:Eg;
           simpl; [discriminate |]; intros [= <- <-]; exists priv
       end.
  all: split; reflexivity.
Qed.

Lemma GenerateKey_inv `{GoRuntime} a size w key w' :
  GenerateKey a size w = (Ok key, w') ->
  ValidKeySize a size = Ok tt /\
  (a = ECDSAKey /\ generateECDSAKey size w = (Ok key, w') \/
   a = RSAKey /\ generateRSAKey size w = (Ok key, w')).
Proof.
  unfold GenerateKey, bindM, lift.
  destruct (ValidKeySize a size) as [[] | e | p] eqn:Ev; [| discriminate ..].
  destruct a; [discriminate | |]; intros Hg; split; auto.
Qed.

(** With a valid size, [GenerateKey] succeeds whenever the library
    generator (and, for ECDSA, the marshaller) does. *)
Lemma GenerateKey_RSA_run `{GoRuntime} size w priv w' :
  ValidKeySize RSAKey size = Ok tt ->
  rsa_GenerateKey (resolvedSize RSAKey size) w = (inr priv, w') ->
  exists key, GenerateKey RSAKey size w = (Ok key, w').
Proof.
  intros Hv Hg. unfold GenerateKey, generateRSAKey, resolvedSize in *. run.
  rewrite Hv. destruct (size =? 0); simpl; rewrite Hg; simpl; eauto.
Qed.

Lemma GenerateKey_ECDSA_run `{GoRuntime} size w curve priv der w' :
  resolvedSize ECDSAKey size = 256 /\ curve = elliptic.P256 \/
  resolvedSize ECDSAKey size = 384 /\ curve = elliptic.P384 \/
  resolvedSize ECDSAKey size = 521 /\ curve = elliptic.P521 ->
  ecdsa_GenerateKey curve w = (inr priv, w') ->
  x509_MarshalECPrivateKey priv = inr der ->
  exists key, GenerateKey ECDSAKey size w = (Ok key, w').
Proof.
  intros Hs Hg Hm.
  unfold GenerateKey, generateECDSAKey, resolvedSize in *. run.
  destruct (size =? 0) eqn:E0; simpl.
  - destruct Hs as [[_ ->] | [[? _] | [? _]]]; [| discriminate ..].
    rewrite Hg; simpl. rewrite Hm; simpl. eauto.
  - apply Z.eqb_neq in E0.
    destruct Hs as [[-> ->] | [[-> ->] | [-> ->]]]; simpl;
      rewrite Hg; simpl; rewrite Hm; simpl; eauto.
Qed.

(** A generated key answers [PublicKey] and [SignatureAlgorithm] without
    panicking: its size went through [ValidKeySize]. *)
Lemma GenerateKey_usable `{GoRuntime} a size w key w' :
  GenerateKey a size w = (Ok key, w') ->
  exists pub sig, PublicKey key = Ok pub /\ SignatureAlgorithm key = Ok sig.
Proof.
  intros Hg. apply GenerateKey_inv in Hg as [Hv [[-> Hg] | [-> Hg]]].
  - apply generateECDSAKey_inv in Hg
      as (curve & priv & der & Hs & _ & _ & ->).
    exists (crypto.ECDSAPublic (ecdsa.Public priv)).
    unfold SignatureAlgorithm, PublicKey; simpl.
    destruct Hs as [[-> _] | [[-> _] | [-> _]]]; simpl; eauto.
  - apply generateRSAKey_inv in Hg as (priv & _ & ->).
    exists (crypto.RSAPublic (rsa.Public priv)).
    unfold SignatureAlgorithm, PublicKey; simpl.
    rewrite ValidKeySize_RSA in Hv. case_decide as Hs; [| discriminate].
    unfold resolvedSize.
    destruct (size =? 0) eqn:E0; simpl; [eauto |].
    destruct (size >=? 4096) eqn:E1; [eauto |].
    destruct (size >=? 3072) eqn:E2; [eauto |].
    destruct (size >=? 2048) eqn:E3; [eauto | lia].
Qed.

(** With the curve of the resolved size, [generateECDSAKey] returns the
    key that the library generated, encoded from what the marshaller
    gave. *)
Lemma generateECDSAKey_run `{GoRuntime} size w curve priv der w' :
  resolvedSize ECDSAKey size = 256 /\ curve = elliptic.P256 \/
  resolvedSize ECDSAKey size = 384 /\ curve = elliptic.P384 \/
  resolvedSize ECDSAKey size = 521 /\ curve = elliptic.P521 ->
  ecdsa_GenerateKey curve w = (inr priv, w') ->
  x509_MarshalECPrivateKey priv = inr der ->
  generateECDSAKey size w =
    (Ok (ecdsaKey
           {| algorithm := ECDSAKey;
              size := resolvedSize ECDSAKey size;
              encoded := pem_EncodeToMemory
                           {| pem.Type_ := "EC PRIVATE KEY";
                              pem.Bytes := der |};
              privateKey := crypto.ECDSAPrivate priv |}), w').
Proof.
  intros Hs Hg Hm.
  unfold generateECDSAKey, resolvedSize in *. run.
  destruct (size =? 0) eqn:E0; simpl.
  - destruct Hs as [[_ ->] | [[? _] | [? _]]]; [| discriminate ..].
    rewrite Hg; simpl. rewrite Hm; simpl. reflexivity.
  - apply Z.eqb_neq in E0.
    destruct Hs as [[-> ->] | [[-> ->] | [-> ->]]]; simpl;
      rewrite Hg; simpl; rewrite Hm; simpl; reflexivity.
Qed.

Lemma generateRSAKey_run `{GoRuntime} size w priv w' :
  rsa_GenerateKey (resolvedSize RSAKey size) w = (inr priv, w') ->
  generateRSAKey size w =
    (Ok (rsaKey
           {| algorithm := RSAKey;
              size := resolvedSize RSAKey size;
              encoded := pem_EncodeToMemory
                           {| pem.Type_ := "RSA PRIVATE KEY";
                              pem.Bytes := x509_MarshalPKCS1PrivateKey priv |};
              privateKey := crypto.RSAPrivate priv |}), w').
Proof.
  intros Hg. unfold generateRSAKey, resolvedSize in *. run.
  destruct (size =? 0); simpl; rewrite Hg; simpl; reflexivity.
Qed.

(** The sizes [ValidKeySize] accepts for ECDSA are those with a curve. *)
Lemma ValidKeySize_ECDSA_curve (size : Z) :
  ValidKeySize ECDSAKey size = Ok tt <->
  resolvedSize ECDSAKey size = 256 \/ resolvedSize ECDSAKey size = 384 \/
  resolvedSize ECDSAKey size = 521.
Proof.
  rewrite ValidKeySize_ECDSA. unfold resolvedSize.
  case_decide as Hs; destruct (Z.eqb_spec size 0) as [-> | Hn];
    split; try discriminate; try lia; try reflexivity.
Qed.

(** C10. [GenerateKey] resolves size 0 to the default of the algorithm
    (256 for ECDSA, 4096 for RSA) before it generates, and keys are
    produced. For ECDSA, whenever the library generates a key on the curve
    of the resolved size and marshals it, [GenerateKey] returns a key of
    the resolved size whose encoding is the PEM block "EC PRIVATE KEY" of
    the marshalled bytes. For RSA, whenever the size is valid and the
    library generates a key of the resolved number of bits, [GenerateKey]
    returns a key of the resolved size whose encoding is the PEM block
    "RSA PRIVATE KEY" of its PKCS#1 bytes. And every key that [GenerateKey]
    returns was made that way: it has the requested algorithm, the resolved
    size, and the block type of its algorithm around the marshalled bytes
    of the generated private key. *)
Theorem GenerateKey_size_and_block `{GoRuntime} :
  resolvedSize ECDSAKey 0 = 256 /\
  resolvedSize RSAKey 0 = 4096 /\
  (forall size curve priv der w w',
     resolvedSize ECDSAKey size = 256 /\ curve = elliptic.P256 \/
     resolvedSize ECDSAKey size = 384 /\ curve = elliptic.P384 \/
     resolvedSize ECDSAKey size = 521 /\ curve = elliptic.P521 ->
     ecdsa_GenerateKey curve w = (inr priv, w') ->
     x509_MarshalECPrivateKey priv = inr der ->
     exists key,
       GenerateKey ECDSAKey size w = (Ok key, w') /\
       Algorithm key = ECDSAKey /\
       Size key = resolvedSize ECDSAKey size /\
       PrivateKey key = crypto.ECDSAPrivate priv /\
       Encoded key =
         pem_EncodeToMemory
           {| pem.Type_ := "EC PRIVATE KEY"; pem.Bytes := der |}) /\
  (forall size priv w w',
     ValidKeySize RSAKey size = Ok tt ->
     rsa_GenerateKey (resolvedSize RSAKey size) w = (inr priv, w') ->
     exists key,
       GenerateKey RSAKey size w = (Ok key, w') /\
       Algorithm key = RSAKey /\
       Size key = resolvedSize RSAKey size /\
       PrivateKey key = crypto.RSAPrivate priv /\
       Encoded key =
         pem_EncodeToMemory
           {| pem.Type_ := "RSA PRIVATE KEY";
              pem.Bytes := x509_MarshalPKCS1PrivateKey priv |}) /\
  (forall a size w w' key,
     GenerateKey a size w = (Ok key, w') ->
     DefaultSize a = Ok (resolvedSize a 0) /\
     Algorithm key = a /\
     Size key = resolvedSize a size /\
     match a with
     | ECDSAKey =>
         exists curve priv der,
           (resolvedSize a size = 256 /\ curve = elliptic.P256 \/
            resolvedSize a size = 384 /\ curve = elliptic.P384 \/
            resolvedSize a size = 521 /\ curve = elliptic.P521) /\
           ecdsa_GenerateKey curve w = (inr priv, w') /\
           x509_MarshalECPrivateKey priv = inr der /\
           PrivateKey key = crypto.ECDSAPrivate priv /\
           Encoded key =
             pem_EncodeToMemory
               {| pem.Type_ := "EC PRIVATE KEY"; pem.Bytes := der |}
     | RSAKey =>
         exists priv,
           rsa_GenerateKey (resolvedSize a size) w = (inr priv, w') /\
           PrivateKey key = crypto.RSAPrivate priv /\
           Encoded key =
             pem_EncodeToMemory
               {| pem.Type_ := "RSA PRIVATE KEY";
                  pem.Bytes := x509_MarshalPKCS1PrivateKey priv |}
     | keyAlgorithmNotSet => False
     end).
Proof.
  split; [reflexivity |]. split; [reflexivity |]. split; [| split].
  - intros size curve priv der w w' Hs Hg Hm.
    assert (Hv : ValidKeySize ECDSAKey size = Ok tt).
    { apply ValidKeySize_ECDSA_curve. tauto. }
    eexists. split.
    { unfold GenerateKey, bindM, lift. rewrite Hv.
      exact (generateECDSAKey_run size w curve priv der w' Hs Hg Hm). }
    unfold Algorithm, Size, PrivateKey, Encoded. simpl. auto.
  - intros size priv w w' Hv Hg.
    eexists. split.
    { unfold GenerateKey, bindM, lift. rewrite Hv.
      exact (generateRSAKey_run size w priv w' Hg). }
    unfold Algorithm, Size, PrivateKey, Encoded. simpl. auto.
  - intros a size w w' key Hg.
    apply GenerateKey_inv in Hg as [_ [[-> Hg] | [-> Hg]]].
    + apply generateECDSAKey_inv in Hg
        as (curve & priv & der & Hc & Hgen & Hm & ->).
      repeat (split; [reflexivity |]).
      exists curve, priv, der. auto.
    + apply generateRSAKey_inv in Hg as (priv & Hgen & ->).
      repeat (split; [reflexivity |]).
      exists priv. auto.
Qed.

Lemma GenerateKey_size_and_block_witness :
  (exists key,
     @GenerateKey Sample.runtime ECDSAKey 0 7 = (Ok key, 8) /\
     Algorithm key = ECDSAKey /\
     Size key = 256 /\
     PrivateKey key =
       crypto.ECDSAPrivate
         {| ecdsa.Public := {| ecdsa.Curve := elliptic.P256;
                               ecdsa.X := 7; ecdsa.Y := 8 |};
            ecdsa.D := 9 |} /\
     Encoded key =
       Sample.EncodeToMemory
         {| pem.Type_ := "EC PRIVATE KEY"; pem.Bytes := "ec.der" |}) /\
  (exists key,
     @GenerateKey Sample.runtime RSAKey 0 7 = (Ok key, 8) /\
     Algorithm key = RSAKey /\
     Size key = 4096 /\
     PrivateKey key =
       crypto.RSAPrivate
         {| rsa.Public := {| rsa.N := 2 ^ 4095 + 1; rsa.E := 65537 |};
            rsa.D := 7 |} /\
     Encoded key =
       Sample.EncodeToMemory
         {| pem.Type_ := "RSA PRIVATE KEY"; pem.Bytes := "rsa.der" |}).
Proof.
  pose proof (@GenerateKey_size_and_block Sample.runtime)
    as (_ & _ & Hec & Hrsa & _).
  split.
  - apply (Hec 0 elliptic.P256 _ "ec.der"%string 7 8).
    + left. split; reflexivity.
    + reflexivity.
    + reflexivity.
  - apply (Hrsa 0 _ 7 8); reflexivity.
Defined.

(** ** Loading a private key *)

Lemma parsePrivateKey_inv `{GoRuntime} keyPEM key :
  parsePrivateKey keyPEM = Ok key ->
  exists blk,
    pem_Decode keyPEM = Some blk /\
    ((exists priv,
        key = rsaKey {| algorithm := RSAKey;
                        size := rsa.Size priv;
                        encoded := keyPEM;
                        privateKey := crypto.RSAPrivate priv |}) \/
     (exists priv sz,
        getCurveSize (ecdsa.Curve (ecdsa.Public priv)) = Ok sz /\
        key = ecdsaKey {| algorithm := ECDSAKey;
                          size := sz;
                          encoded := keyPEM;
                          privateKey := crypto.ECDSAPrivate priv |})).
Proof.
  unfold parsePrivateKey. run.
  destruct (pem_Decode keyPEM) as [blk |]; [| discriminate].
  intros Hk. exists blk. split; [reflexivity |].
  destruct (x509_ParsePKCS8PrivateKey (pem.Bytes blk)) as [m8 | k8].
  - destruct (x509_ParsePKCS1PrivateKey (pem.Bytes blk)) as [m1 | k1].
    + destruct (x509_ParseECPrivateKey (pem.Bytes blk)) as [mec | kec];
        [discriminate |].
      right. exists kec.
      destruct (getCurveSize (ecdsa.Curve (ecdsa.Public kec))) as [sz | |];
        [| discriminate ..].
      exists sz. split; congruence.
    + left. exists k1. congruence.
  - destruct k8 as [priv | priv |]; [| | discriminate].
    + left. exists priv. congruence.
    + right. exists priv.
      destruct (getCurveSize (ecdsa.Curve (ecdsa.Public priv))) as [sz | |];
        [| discriminate ..].
      exists sz. split; congruence.
Qed.

(** What [Size] is for a loaded ECDSA key: the size of a recognised curve,
    and the default 256 for any other curve. *)
Lemma parsePrivateKey_ecdsa_size `{GoRuntime} keyPEM key priv :
  parsePrivateKey keyPEM = Ok key ->
  PrivateKey key = crypto.ECDSAPrivate priv ->
  Size key = match ecdsa.Curve (ecdsa.Public priv) with
             | elliptic.P256 => 256
             | elliptic.P384 => 384
             | elliptic.P521 => 521
             | elliptic.P224 => 256
             end.
Proof.
  intros Hk Hp.
  apply parsePrivateKey_inv in Hk
    as (blk & _ & [(priv' & ->) | (priv' & sz & Hsz & ->)]);
    simpl in Hp; [discriminate |].
  injection Hp as ->. unfold Size; simpl.
  destruct (ecdsa.Curve (ecdsa.Public priv)); simpl in Hsz; congruence.
Qed.

(** A structure none of the three decoders accepts is reported as an
    error. *)
Lemma parsePrivateKey_unparsable `{GoRuntime} keyPEM blk m8 m1 mec :
  pem_Decode keyPEM = Some blk ->
  x509_ParsePKCS8PrivateKey (pem.Bytes blk) = inl m8 ->
  x509_ParsePKCS1PrivateKey (pem.Bytes blk) = inl m1 ->
  x509_ParseECPrivateKey (pem.Bytes blk) = inl mec ->
  parsePrivateKey keyPEM = Err ErrCannotParsePrivateKey.
Proof.
  intros Hd H8 H1 Hec. unfold parsePrivateKey. run.
  rewrite Hd; simpl. rewrite H8, H1, Hec. reflexivity.
Qed.

(** C3. The size of a loaded RSA key is the size of its modulus in bytes:
    a key with a modulus of 4096 bits reports 512, where the effective bit
    size is 4096. *)
Theorem parsePrivateKey_rsa_size_in_bytes `{GoRuntime}
    (keyPEM : string) (key : Key) (priv : rsa.PrivateKey) :
  parsePrivateKey keyPEM = Ok key ->
  PrivateKey key = crypto.RSAPrivate priv ->
  Size key = (rsa.BitLen (rsa.N (rsa.Public priv)) + 7) / 8 /\
  (rsa.BitLen (rsa.N (rsa.Public priv)) = 4096 -> Size key = 512).
Proof.
  intros Hk Hp.
  apply parsePrivateKey_inv in Hk
    as (blk & _ & [(priv' & ->) | (priv' & sz & Hsz & ->)]);
    simpl in Hp; [| discriminate].
  injection Hp as ->. unfold Size, rsa.Size; simpl.
  split; [reflexivity |]. intros ->. reflexivity.
Qed.

Lemma parsePrivateKey_rsa_size_in_bytes_witness :
  exists key,
    @parsePrivateKey Sample.runtime "rsa4096.pem" = Ok key /\
    rsa.BitLen (rsa.N (rsa.Public Sample.rsa4096)) = 4096 /\
    Size key = 512.
Proof.
  eexists. split; [reflexivity |].
  split; [vm_compute; reflexivity |].
  apply (@parsePrivateKey_rsa_size_in_bytes Sample.runtime "rsa4096.pem" _
           Sample.rsa4096 eq_refl eq_refl).
  vm_compute; reflexivity.
Defined.

(** ** Certificate templates *)

(** [expires.Seconds() == 0] holds for the zero duration only. *)
Lemma Seconds_zero (d : time.Duration) :
  Qeq_bool (time.Seconds d) 0 = true <-> d = 0.
Proof.
  rewrite Qeq_bool_iff. unfold time.Seconds.
  unfold Qeq, Qplus, Qdiv, Qmult, Qinv, inject_Z. simpl.
  change time.Second with 1000000000.
  pose proof (Z.quot_rem' d 1000000000) as Hd.
  lia.
Qed.

Lemma resolvedExpiration_eq (d : time.Duration) :
  (if Qeq_bool (time.Seconds d) 0 then DefaultCertificateExpiration else d)
  = resolvedExpiration d.
Proof.
  unfold resolvedExpiration.
  destruct (Qeq_bool (time.Seconds d) 0) eqn:E; case_decide as Hd; auto.
  - apply Seconds_zero in E. contradiction.
  - apply Seconds_zero in Hd. congruence.
Qed.

Lemma no_usage_test (ku : x509.KeyUsage) (eku : list x509.ExtKeyUsage) :
  (ku =? 0) && (length eku =? 0)%nat = true <-> (ku, eku) = (0, []).
Proof.
  rewrite andb_true_iff, Z.eqb_eq, Nat.eqb_eq. split.
  - intros [-> Hl]. destruct eku; [reflexivity | discriminate].
  - intros [= -> ->]. auto.
Qed.

Section Templates.
Context `{GoRuntime}.

Lemma generateKey_usable csr w key w' :
  generateKey csr w = (Ok key, w') ->
  exists pub sig, PublicKey key = Ok pub /\ SignatureAlgorithm key = Ok sig.
Proof.
  unfold generateKey, bindM, lift.
  destruct (ParseKeyAlgorithm (csr_Algorithm csr)) as [a | e | p];
    [| discriminate ..].
  apply GenerateKey_usable.
Qed.

(** Once the request is parsed, the serial number drawn and the key
    generated, template construction depends on the usages only. *)
Lemma generateCertificateTemplate_run
    csrData expires usage isCA w csr sn w1 key w2 :
  ParseCertificateRequest csrData = Ok csr ->
  rand_Int math.MaxInt64 w = (inr sn, w1) ->
  generateKey csr w1 = (Ok key, w2) ->
  exists pub sig,
    PublicKey key = Ok pub /\ SignatureAlgorithm key = Ok sig /\
    generateCertificateTemplate csrData expires usage isCA w =
      if decide (sortUsages usage = (0, []))
      then (Err ErrNoKeyUsage, w2)
      else (Ok (templateOf csr key pub sig sn (fst (time_Now w2))
                  (resolvedExpiration expires) usage isCA, key),
            snd (time_Now w2)).
Proof.
  intros Hp Hr Hk.
  destruct (generateKey_usable _ _ _ _ Hk) as (pub & sig & Hpub & Hsig).
  exists pub, sig. split; [assumption |]. split; [assumption |].
  unfold generateCertificateTemplate, bindM, lift, call, ret, now.
  rewrite Hp, Hr; simpl. rewrite Hk.
  rewrite resolvedExpiration_eq.
  unfold templateOf.
  destruct (sortUsages usage) as [ku eku]; simpl.
  destruct ((ku =? 0) && (length eku =? 0)%nat) eqn:E.
  - apply no_usage_test in E. rewrite decide_True by assumption.
    reflexivity.
  - rewrite decide_False
      by (intros Hz; apply no_usage_test in Hz; congruence).
    destruct (time_Now w2) as [t w3]; simpl.
    rewrite Hpub, Hsig. reflexivity.
Qed.

Lemma generateCertificateTemplate_inv
    csrData expires usage isCA w tpl key w' :
  generateCertificateTemplate csrData expires usage isCA w
    = (Ok (tpl, key), w') ->
  exists csr sn w1 w2 t pub sig,
    ParseCertificateRequest csrData = Ok csr /\
    rand_Int math.MaxInt64 w = (inr sn, w1) /\
    generateKey csr w1 = (Ok key, w2) /\
    sortUsages usage <> (0, []) /\
    time_Now w2 = (t, w') /\
    PublicKey key = Ok pub /\
    SignatureAlgorithm key = Ok sig /\
    tpl = templateOf csr key pub sig sn t
            (resolvedExpiration expires) usage isCA.
Proof.
  intros Hg.
  destruct (ParseCertificateRequest csrData) as [csr | e | p] eqn:Hp;
    [| unfold generateCertificateTemplate, bindM, lift in Hg;
       rewrite Hp in Hg; discriminate ..].
  destruct (rand_Int math.MaxInt64 w) as [[m | sn] w1] eqn:Hr;
    [unfold generateCertificateTemplate, bindM, lift, call in Hg;
     rewrite Hp, Hr in Hg; discriminate |].
  destruct (generateKey csr w1) as [[key' | e | p] w2] eqn:Hk;
    [| unfold generateCertificateTemplate, bindM, lift, call in Hg;
       rewrite Hp, Hr in Hg; simpl in Hg; rewrite Hk in Hg;
       discriminate ..].
  destruct (generateCertificateTemplate_run csrData expires usage isCA
              w csr sn w1 key' w2 Hp Hr Hk)
    as (pub & sig & Hpub & Hsig & Hrun).
  rewrite Hrun in Hg. case_decide as Hu; [discriminate |].
  injection Hg as <- <- <-.
  exists csr, sn, w1, w2, (fst (time_Now w2)), pub, sig.
  repeat (split; [first [assumption | reflexivity] |]).
  split; [apply surjective_pairing |].
  repeat (split; [assumption |]). reflexivity.
Qed.
End Templates.

(** C4. A template built at the instant [t] the clock shows, with
    expiration [d], is valid from [t] minus 5 minutes to [t] plus [d], both
    in UTC, where a zero [d] stands for the default of 10 years
    (10 * 8760 hours). *)
Theorem template_validity_window `{GoRuntime}
    (csrData : string) (d : time.Duration) (usage : list string)
    (isCA : bool) (w w' : World) (tpl : x509.Certificate) (key : Key) :
  generateCertificateTemplate csrData d usage isCA w = (Ok (tpl, key), w') ->
  exists w2 t,
    time_Now w2 = (t, w') /\
    x509.NotBefore tpl =
      {| time.instant := time.instant t - 5 * 60 * 1000000000;
         time.location := time.UTCLoc |} /\
    x509.NotAfter tpl =
      {| time.instant := time.instant t + resolvedExpiration d;
         time.location := time.UTCLoc |} /\
    resolvedExpiration 0 = 10 * 8760 * 3600 * 1000000000 /\
    (d <> 0 -> resolvedExpiration d = d).
Proof.
  intros Hg.
  apply generateCertificateTemplate_inv in Hg
    as (csr & sn & w1 & w2 & t & pub & sig & _ & _ & _ & _ & Ht & _ & _ & ->).
  exists w2, t. split; [assumption |].
  split; [reflexivity |]. split; [reflexivity |].
  split; [reflexivity |].
  intros Hd. unfold resolvedExpiration. rewrite decide_False; auto.
Qed.

Lemma template_validity_window_witness :
  exists tpl key w',
    @generateCertificateTemplate Sample.runtime "testCSR" 0
      ["server auth"] false 0 = (Ok (tpl, key), w') /\
    exists w2 t,
      @time_Now Sample.runtime w2 = (t, w') /\
      x509.NotBefore tpl =
        {| time.instant := time.instant t - 300000000000;
           time.location := time.UTCLoc |} /\
      x509.NotAfter tpl =
        {| time.instant := time.instant t + 315360000000000000;
           time.location := time.UTCLoc |}.
Proof.
  eexists _, _, _. split; [vm_compute; reflexivity |].
  destruct (@template_validity_window Sample.runtime "testCSR" 0
              ["server auth"] false 0 _ _ _ eq_refl)
    as (w2 & t & Ht & Hb & Ha & _ & _).
  exists w2, t. split; [exact Ht |]. split; [exact Hb | exact Ha].
Defined.

(** ** Usage names *)

Lemma keyUsage_bits (u : string) (k : x509.KeyUsage) :
  keyUsage !! u = Some k -> k <> 0 /\ extKeyUsage !! u = None.
Proof.
  intros Hu. unfold keyUsage in Hu.
  apply elem_of_list_to_map_2 in Hu.
  repeat (apply elem_of_cons in Hu as [[= -> ->] | Hu];
          [split; [discriminate | reflexivity] |]).
  apply elem_of_nil in Hu. contradiction.
Qed.

Lemma sortUsages_fold (usages : list string) :
  forall ku eku,
    foldl sortUsages_step (ku, eku) usages =
      (Z.lor ku (keyUsageBits usages), eku ++ extKeyUsages usages).
Proof.
  unfold keyUsageBits, extKeyUsages.
  induction usages as [| u usages IH]; intros ku eku; simpl.
  - rewrite Z.lor_0_r, app_nil_r. reflexivity.
  - destruct (keyUsage !! u) as [kuse |] eqn:Ek; simpl.
    + destruct (keyUsage_bits u kuse Ek) as [_ ->].
      rewrite IH, Z.lor_assoc. reflexivity.
    + destruct (extKeyUsage !! u) as [ekuse |] eqn:Ee; simpl; rewrite IH.
      * rewrite <- app_assoc. reflexivity.
      * reflexivity.
Qed.

Lemma sortUsages_spec (usages : list string) :
  sortUsages usages = (keyUsageBits usages, extKeyUsages usages).
Proof. unfold sortUsages. rewrite sortUsages_fold. reflexivity. Qed.

Lemma keyUsageBits_zero (usages : list string) :
  keyUsageBits usages = 0 <-> Forall (fun u => keyUsage !! u = None) usages.
Proof.
  unfold keyUsageBits.
  induction usages as [| u usages IH].
  - split; [constructor | reflexivity].
  - rewrite Forall_cons, <- IH. cbn [omap list_omap].
    destruct (keyUsage !! u) as [kuse |] eqn:Ek; cbn [foldr].
    + destruct (keyUsage_bits u kuse Ek) as [Hk _].
      rewrite Z.lor_eq_0_iff. split.
      * intros [? _]. contradiction.
      * intros [? _]. discriminate.
    + tauto.
Qed.

Lemma extKeyUsages_nil (usages : list string) :
  extKeyUsages usages = [] <->
  Forall (fun u => extKeyUsage !! u = None) usages.
Proof.
  unfold extKeyUsages.
  induction usages as [| u usages IH].
  - split; [constructor | reflexivity].
  - rewrite Forall_cons, <- IH. cbn [omap list_omap].
    destruct (extKeyUsage !! u) as [ekuse |] eqn:Ee.
    + split; [discriminate |]. intros [? _]. discriminate.
    + tauto.
Qed.

Lemma sortUsages_skips (us vs : list string) (u : string) :
  keyUsage !! u = None -> extKeyUsage !! u = None ->
  sortUsages (us ++ u :: vs) = sortUsages (us ++ vs).
Proof.
  intros Hk He. rewrite !sortUsages_spec.
  unfold keyUsageBits, extKeyUsages.
  rewrite !omap_app. cbn [omap list_omap]. rewrite Hk, He. reflexivity.
Qed.

(** C6. [sortUsages] ORs the bits of the names it finds in [keyUsage],
    collects the entries of the names it finds in [extKeyUsage] in order
    and with repetitions ("s/mime" standing for email protection), and
    skips every other name; once the request is parsed, the serial number
    drawn and the key generated, template construction returns the error
    "no key usage(s) specified" exactly when the bit mask is zero and the
    list is empty, and a template carrying both otherwise. *)
Theorem usage_resolution `{GoRuntime} :
  (forall usages,
     sortUsages usages = (keyUsageBits usages, extKeyUsages usages)) /\
  (forall us u vs,
     keyUsage !! u = None -> extKeyUsage !! u = None ->
     sortUsages (us ++ u :: vs) = sortUsages (us ++ vs)) /\
  extKeyUsage !! "s/mime" = Some x509.ExtKeyUsageEmailProtection /\
  sortUsages ["server auth"; "bogus"; "server auth"; "s/mime"; "signing";
              "cert sign"] =
    (Z.lor x509.KeyUsageDigitalSignature x509.KeyUsageCertSign,
     [x509.ExtKeyUsageServerAuth; x509.ExtKeyUsageServerAuth;
      x509.ExtKeyUsageEmailProtection]) /\
  (forall csrData expires usage isCA w csr sn w1 key w2,
     ParseCertificateRequest csrData = Ok csr ->
     rand_Int math.MaxInt64 w = (inr sn, w1) ->
     generateKey csr w1 = (Ok key, w2) ->
     (keyUsageBits usage = 0 /\ extKeyUsages usage = [] ->
      generateCertificateTemplate csrData expires usage isCA w =
        (Err ErrNoKeyUsage, w2)) /\
     (~ (keyUsageBits usage = 0 /\ extKeyUsages usage = []) ->
      exists tpl w3,
        generateCertificateTemplate csrData expires usage isCA w =
          (Ok (tpl, key), w3) /\
        x509.KeyUsage_ tpl = keyUsageBits usage /\
        x509.ExtKeyUsage_ tpl = extKeyUsages usage)).
Proof.
  split; [exact sortUsages_spec |].
  split; [intros us u vs; apply sortUsages_skips |].
  split; [vm_compute; reflexivity |].
  split; [vm_compute; reflexivity |].
  intros csrData expires usage isCA w csr sn w1 key w2 Hp Hr Hk.
  destruct (generateCertificateTemplate_run csrData expires usage isCA
              w csr sn w1 key w2 Hp Hr Hk)
    as (pub & sig & _ & _ & Hrun).
  rewrite Hrun, sortUsages_spec. split.
  - intros [-> ->]. rewrite decide_True; reflexivity.
  - intros Hne. rewrite decide_False by (intros [= ? ?]; tauto).
    eexists _, _. split; [reflexivity |].
    unfold templateOf; simpl. rewrite sortUsages_spec. split; reflexivity.
Qed.

Lemma usage_resolution_witness :
  exists w2,
    @generateCertificateTemplate Sample.runtime "testCSR" 0
      ["tls"; "bogus"] false 0 = (Err ErrNoKeyUsage, w2).
Proof.
  eexists.
  refine (proj1 (proj2 (proj2 (proj2 (proj2
            (@usage_resolution Sample.runtime))))
            "testCSR" 0 ["tls"; "bogus"] false 0 _ _ _ _ _ _ _ _) _).
  - vm_compute; reflexivity.
  - vm_compute; reflexivity.
  - vm_compute; reflexivity.
  - split; vm_compute; reflexivity.
Defined.

(** ** Issuance *)

Lemma sortUsages_CA :
  sortUsages ["cert sign"; "crl sign"] =
    (Z.lor x509.KeyUsageCertSign x509.KeyUsageCRLSign, []).
Proof. vm_compute. reflexivity. Qed.

(** C9. For a request that parses and for which a serial number is drawn
    and a key generated, [GenerateCA] builds a template with [IsCA] set,
    key usage CertSign | CRLSign and no extended key usage, and hands
    [x509.CreateCertificate] that template both as the certificate to sign
    and as its parent, with the public and the private key of the key just
    generated; the results are the PEM block "CERTIFICATE" and the encoded
    key. *)
Theorem GenerateCA_self_signed `{GoRuntime}
    (csrData : string) (expires : time.Duration) (w w1 w2 : World)
    (csr : CertificateRequest) (sn : Z) (key : Key) :
  ParseCertificateRequest csrData = Ok csr ->
  rand_Int math.MaxInt64 w = (inr sn, w1) ->
  generateKey csr w1 = (Ok key, w2) ->
  exists tpl pub w3,
    generateCertificateTemplate csrData expires ["cert sign"; "crl sign"]
      true w = (Ok (tpl, key), w3) /\
    x509.IsCA tpl = true /\
    x509.KeyUsage_ tpl = Z.lor x509.KeyUsageCertSign x509.KeyUsageCRLSign /\
    x509.ExtKeyUsage_ tpl = [] /\
    PublicKey key = Ok pub /\
    x509.PublicKey tpl = pub /\
    GenerateCA csrData expires w =
      match x509_CreateCertificate tpl tpl pub (PrivateKey key) w3 with
      | (inr cert, w4) =>
          (Ok (pem_EncodeToMemory
                 {| pem.Type_ := "CERTIFICATE"; pem.Bytes := cert |},
               Encoded key), w4)
      | (inl msg, w4) => (Err (ErrLibrary msg), w4)
      end.
Proof.
  intros Hp Hr Hk.
  destruct (generateCertificateTemplate_run csrData expires
              ["cert sign"; "crl sign"] true w csr sn w1 key w2 Hp Hr Hk)
    as (pub & sig & Hpub & _ & Hrun).
  rewrite sortUsages_CA in Hrun.
  rewrite decide_False in Hrun by discriminate.
  eexists _, pub, _. split; [exact Hrun |].
  split; [reflexivity |].
  split; [unfold templateOf; simpl; rewrite sortUsages_CA; reflexivity |].
  split; [unfold templateOf; simpl; rewrite sortUsages_CA; reflexivity |].
  split; [exact Hpub |]. split; [reflexivity |].
  unfold GenerateCA, bindM at 1. rewrite Hrun.
  unfold bindM, lift, call, ret. rewrite Hpub.
  match goal with
  | |- context [x509_CreateCertificate ?t ?p ?k ?s ?w0] =>
      destruct (x509_CreateCertificate t p k s w0) as [[msg | cert] w4]
  end; reflexivity.
Qed.

Lemma GenerateCA_self_signed_witness :
  exists cert key w',
    @GenerateCA Sample.runtime "testCSR" DefaultCertificateExpiration 0 =
      (Ok (cert, key), w').
Proof.
  destruct (@GenerateCA_self_signed Sample.runtime "testCSR"
              DefaultCertificateExpiration 0 _ _ _ _ _
              eq_refl eq_refl eq_refl)
    as (tpl & pub & w3 & _ & _ & _ & _ & _ & _ & Hca).
  rewrite Hca. simpl. eexists _, _, _. reflexivity.
Defined.

(** C2. When [pem.Decode] finds no PEM block it returns a nil block, and
    both [parsePrivateKey] and [Generate] read [p.Bytes] through it without
    a check: the outcome is a nil-dereference panic, not an error value.
    This happens for an undecodable key, for an undecodable CA certificate
    and for an undecodable CA key. *)
Theorem undecodable_pem_panics `{GoRuntime} :
  (forall keyPEM,
     pem_Decode keyPEM = None ->
     parsePrivateKey keyPEM = Panic PanicNilDereference) /\
  (forall csrData ca caKey expires usage w tpl key w',
     generateCertificateTemplate csrData expires usage false w =
       (Ok (tpl, key), w') ->
     pem_Decode ca = None ->
     Generate csrData ca caKey expires usage w =
       (Panic PanicNilDereference, w')) /\
  (forall csrData ca caKey expires usage w tpl key w' blk caCert,
     generateCertificateTemplate csrData expires usage false w =
       (Ok (tpl, key), w') ->
     pem_Decode ca = Some blk ->
     x509_ParseCertificate (pem.Bytes blk) = inr caCert ->
     pem_Decode caKey = None ->
     Generate csrData ca caKey expires usage w =
       (Panic PanicNilDereference, w')).
Proof.
  split; [| split].
  - intros keyPEM Hd. unfold parsePrivateKey. rewrite Hd. reflexivity.
  - intros csrData ca caKey expires usage w tpl key w' Hg Hd.
    unfold Generate, bindM at 1. rewrite Hg.
    unfold bindM, lift. rewrite Hd. reflexivity.
  - intros csrData ca caKey expires usage w tpl key w' blk caCert
      Hg Hd Hc Hk.
    unfold Generate, bindM at 1. rewrite Hg.
    unfold bindM, lift. rewrite Hd; simpl. rewrite Hc; simpl.
    unfold parsePrivateKey. rewrite Hk. reflexivity.
Qed.

Lemma undecodable_pem_panics_witness :
  @parsePrivateKey Sample.runtime "" = Panic PanicNilDereference /\
  exists w',
    @Generate Sample.runtime "testCSR" "" "" 0 ["server auth"] 0 =
      (Panic PanicNilDereference, w').
Proof.
  destruct (@undecodable_pem_panics Sample.runtime) as (Hkey & Hca & _).
  split.
  - apply Hkey. reflexivity.
  - eexists. eapply Hca.
    + vm_compute; reflexivity.
    + reflexivity.
Defined.

(** ** The subject of a request *)

Lemma subject_fold (names : list CertificateName) :
  forall s : pkix.Name,
    let s' := foldl subject_step s names in
    pkix.Locality s' = pkix.Locality s /\
    pkix.Country s' =
      pkix.Country s ++ filter (fun c => nonempty c = true) (n_C <$> names) /\
    pkix.Organization s' =
      pkix.Organization s ++
      filter (fun c => nonempty c = true) (n_O <$> names) /\
    pkix.OrganizationalUnit s' =
      pkix.OrganizationalUnit s ++
      filter (fun c => nonempty c = true) (n_OU <$> names) /\
    pkix.CommonName s' = pkix.CommonName s /\
    pkix.SerialNumber s' = pkix.SerialNumber s.
Proof.
  induction names as [| n names IH]; intros s; simpl.
  - rewrite !app_nil_r. tauto.
  - destruct (IH (subject_step s n)) as (Hl & Hc & Ho & Hou & Hcn & Hsn).
    rewrite Hl, Hc, Ho, Hou, Hcn, Hsn. simpl.
    rewrite !filter_cons.
    repeat split.
    all: repeat case_decide;
      repeat match goal with
             | E : nonempty ?x = true |- _ => rewrite E
             | E : nonempty ?x <> true |- _ =>
                 apply not_true_is_false in E; rewrite E
             end;
      rewrite <- ?app_assoc; reflexivity.
Qed.

(** The fields [subject] does aggregate as stated. *)
Lemma subject_aggregates (csr : CertificateRequest) :
  pkix.Country (subject csr) =
    filter (fun c => nonempty c = true) (n_C <$> csr_Names csr) /\
  pkix.Organization (subject csr) =
    filter (fun c => nonempty c = true) (n_O <$> csr_Names csr) /\
  pkix.OrganizationalUnit (subject csr) =
    filter (fun c => nonempty c = true) (n_OU <$> csr_Names csr) /\
  pkix.CommonName (subject csr) = csr_CommonName csr /\
  pkix.SerialNumber (subject csr) = csr_SerialNumber csr.
Proof.
  unfold subject; simpl.
  destruct (subject_fold (csr_Names csr)
              (with_CommonName pkix.zero (csr_CommonName csr)))
    as (_ & Hc & Ho & Hou & Hcn & _).
  rewrite Hc, Ho, Hou, Hcn. simpl. tauto.
Qed.

(** C1. [subject] never fills [Locality]: the loop stores
    [append(subject.Locality, n.L)] into [Province], which loses the
    provinces collected so far. For the request of the package's own test
    (C: CA, ST: QC, L: Montreal) the subject has Province [Montreal] and an
    empty Locality. *)
Theorem subject_loses_locality :
  (forall csr, pkix.Locality (subject csr) = []) /\
  pkix.Province (subject Sample.testCSR) = ["Montreal"] /\
  pkix.Locality (subject Sample.testCSR) = [] /\
  pkix.Country (subject Sample.testCSR) = ["CA"].
Proof.
  split.
  - intros csr. unfold subject; simpl.
    destruct (subject_fold (csr_Names csr)
                (with_CommonName pkix.zero (csr_CommonName csr)))
      as (Hl & _).
    rewrite Hl. reflexivity.
  - repeat split; reflexivity.
Qed.

(** ** Host classification *)

Section Hosts.
Context `{GoRuntime}.

Lemma parseHosts_fold (hosts : list string) :
  forall out,
    foldl parseHosts_step out hosts =
      {| h_DNSNames := h_DNSNames out ++ omap dnsOf (classify <$> hosts);
         h_EmailAddresses :=
           h_EmailAddresses out ++ omap emailOf (classify <$> hosts);
         h_IPAddresses :=
           h_IPAddresses out ++ omap ipOf (classify <$> hosts);
         h_URIs := h_URIs out ++ omap uriOf (classify <$> hosts) |}.
Proof.
  induction hosts as [| host hosts IH]; intros out.
  - simpl. rewrite !app_nil_r. destruct out; reflexivity.
  - cbn [foldl fmap list_fmap omap list_omap]. rewrite IH.
    unfold parseHosts_step, classify.
    destruct (net_ParseIP host) as [ip |];
      [| destruct (mail_ParseAddress host) as [e1 | email];
         [destruct (url_ParseRequestURI host) as [e2 | uri] |]];
      simpl; rewrite <- ?app_assoc; reflexivity.
Qed.

Lemma category_count (cs : list hostCategory) :
  (length (omap ipOf cs) + length (omap emailOf cs) +
   length (omap uriOf cs) + length (omap dnsOf cs))%nat = length cs.
Proof.
  induction cs as [| c cs IH]; [reflexivity |].
  destruct c; cbn [omap list_omap ipOf emailOf uriOf dnsOf length]; lia.
Qed.
End Hosts.

(** C7, counterexample. The host "/etc/passwd" is no IP address and no
    email address and has no scheme, so it is a DNS name for the classifier
    as specified; [url.ParseRequestURI] accepts it as an absolute path, and
    [parseHosts] files it under the URIs and leaves the DNS names empty. *)
Lemma absolute_path_filed_as_URI :
  @specCategory Sample.runtime "/etc/passwd" = KindDNS /\
  @parseHosts Sample.runtime
    {| csr_Algorithm := "ecdsa"; csr_Size := 0; csr_CommonName := "";
       csr_Names := []; csr_Hosts := ["/etc/passwd"];
       csr_SerialNumber := "" |} =
    {| h_DNSNames := [];
       h_EmailAddresses := [];
       h_IPAddresses := [];
       h_URIs := [{| url.Scheme := ""; url.Host := "";
                     url.Path := "/etc/passwd" |}] |} /\
  h_DNSNames
    (@parseHosts Sample.runtime
       {| csr_Algorithm := "ecdsa"; csr_Size := 0; csr_CommonName := "";
          csr_Names := []; csr_Hosts := ["/etc/passwd"];
          csr_SerialNumber := "" |}) <> ["/etc/passwd"].
Proof.
  split; [reflexivity |]. split; [reflexivity | discriminate].
Qed.

(** C7, amended. [parseHosts] gives every host the one category that
    [classify] decides: IP address when [net.ParseIP] returns one, else
    email address when [mail.ParseAddress] succeeds, else URI when
    [url.ParseRequestURI] succeeds, else DNS name. So the four output lists
    together have as many entries as there are hosts, and each list keeps
    the order of the hosts; the hosts of the package's test give one entry
    in each list. The third test is wider than "absolute URI": the
    category differs from the specified one exactly for a host that is no
    IP address and no email address and that [url.ParseRequestURI] accepts
    without a scheme (an absolute path, or "*"), which is filed under the
    URIs and not under the DNS names; for every other host the two
    agree. *)
Theorem parseHosts_classifies `{GoRuntime} :
  (forall csr,
     parseHosts csr =
       {| h_DNSNames := omap dnsOf (classify <$> csr_Hosts csr);
          h_EmailAddresses := omap emailOf (classify <$> csr_Hosts csr);
          h_IPAddresses := omap ipOf (classify <$> csr_Hosts csr);
          h_URIs := omap uriOf (classify <$> csr_Hosts csr) |}) /\
  (forall csr,
     (length (h_IPAddresses (parseHosts csr)) +
      length (h_EmailAddresses (parseHosts csr)) +
      length (h_URIs (parseHosts csr)) +
      length (h_DNSNames (parseHosts csr)))%nat = length (csr_Hosts csr)) /\
  (forall csr ip uri e1 e2 e3,
     csr_Hosts csr = ["10.1.0.1"; "admin@example.com";
                      "https://example.com"; "example.com"] ->
     net_ParseIP "10.1.0.1" = Some ip ->
     net_ParseIP "admin@example.com" = None ->
     mail_ParseAddress "admin@example.com" =
       inr {| mail.Name := ""; mail.Address_ := "admin@example.com" |} ->
     net_ParseIP "https://example.com" = None ->
     mail_ParseAddress "https://example.com" = inl e1 ->
     url_ParseRequestURI "https://example.com" = inr uri ->
     net_ParseIP "example.com" = None ->
     mail_ParseAddress "example.com" = inl e2 ->
     url_ParseRequestURI "example.com" = inl e3 ->
     parseHosts csr =
       {| h_DNSNames := ["example.com"];
          h_EmailAddresses := ["admin@example.com"];
          h_IPAddresses := [ip];
          h_URIs := [uri] |}) /\
  (forall host,
     kindOf (classify host) <> specCategory host <->
     exists e uri,
       net_ParseIP host = None /\
       mail_ParseAddress host = inl e /\
       url_ParseRequestURI host = inr uri /\
       url.Scheme uri = "" /\
       classify host = URI uri /\
       specCategory host = KindDNS) /\
  (forall host,
     (forall uri,
        url_ParseRequestURI host = inr uri -> url.Scheme uri <> "") ->
     kindOf (classify host) = specCategory host).
Proof.
  assert (Hspec : forall csr,
     parseHosts csr =
       {| h_DNSNames := omap dnsOf (classify <$> csr_Hosts csr);
          h_EmailAddresses := omap emailOf (classify <$> csr_Hosts csr);
          h_IPAddresses := omap ipOf (classify <$> csr_Hosts csr);
          h_URIs := omap uriOf (classify <$> csr_Hosts csr) |}).
  { intros csr. unfold parseHosts. rewrite parseHosts_fold. reflexivity. }
  split; [exact Hspec |]. split; [| split; [| split]].
  - intros csr. rewrite Hspec; simpl.
    rewrite category_count, length_fmap. reflexivity.
  - intros csr ip uri e1 e2 e3 Hh Hi1 Hi2 Hm2 Hi3 Hm3 Hu3 Hi4 Hm4 Hu4.
    rewrite Hspec, Hh.
    cbn [fmap list_fmap]. unfold classify.
    rewrite Hi1, Hi2, Hm2, Hi3, Hm3, Hu3, Hi4, Hm4, Hu4.
    reflexivity.
  - intros host. unfold classify, specCategory, url.IsAbs.
    destruct (net_ParseIP host) as [ip |] eqn:Ei.
    { split; [intros Hn; contradiction Hn; reflexivity |].
      intros (e & uri & Hi & _). discriminate. }
    destruct (mail_ParseAddress host) as [e | email] eqn:Em.
    2: { split; [intros Hn; contradiction Hn; reflexivity |].
         intros (e & uri & _ & Hm & _). discriminate. }
    destruct (url_ParseRequestURI host) as [e' | uri] eqn:Eu.
    { split; [intros Hn; contradiction Hn; reflexivity |].
      intros (e0 & uri & _ & _ & Hu & _). discriminate. }
    destruct (String.eqb_spec (url.Scheme uri) "") as [Hs | Hs];
      cbn [negb kindOf].
    + split; [| discriminate].
      intros _. exists e, uri. repeat split; auto.
    + split; [intros Hn; contradiction Hn; reflexivity |].
      intros (e0 & uri0 & _ & _ & [= <-] & Hs0 & _). contradiction.
  - intros host Hscheme. unfold classify, specCategory, url.IsAbs.
    destruct (net_ParseIP host) as [ip |]; [reflexivity |].
    destruct (mail_ParseAddress host) as [e | email]; [| reflexivity].
    destruct (url_ParseRequestURI host) as [e' | uri] eqn:Eu;
      [reflexivity |].
    destruct (String.eqb_spec (url.Scheme uri) "") as [Hs | Hs];
      [| reflexivity].
    exfalso. exact (Hscheme uri eq_refl Hs).
Qed.

Lemma parseHosts_classifies_witness :
  @parseHosts Sample.runtime
    {| csr_Algorithm := "ecdsa"; csr_Size := 0; csr_CommonName := "";
       csr_Names := [];
       csr_Hosts := ["10.1.0.1"; "admin@example.com";
                     "https://example.com"; "example.com"];
       csr_SerialNumber := "" |} =
    {| h_DNSNames := ["example.com"];
       h_EmailAddresses := ["admin@example.com"];
       h_IPAddresses :=
         [[0; 0; 0; 0; 0; 0; 0; 0; 0; 0; 255; 255; 10; 1; 0; 1]];
       h_URIs := [{| url.Scheme := "https"; url.Host := "example.com";
                     url.Path := "" |}] |} /\
  kindOf (@classify Sample.runtime "https://example.com") =
    @specCategory Sample.runtime "https://example.com".
Proof.
  split.
  - eapply (proj1 (proj2 (proj2 (@parseHosts_classifies Sample.runtime))));
      reflexivity.
  - apply (proj2 (proj2 (proj2 (proj2
             (@parseHosts_classifies Sample.runtime))))).
    intros uri Hu. vm_compute in Hu. injection Hu as <-. discriminate.
Defined.

(** ** Parsing a request *)

Section Parsing.
Context `{GoRuntime}.

Lemma names_fold (names : list CertificateName) :
  forall acc,
    foldl names_step acc names =
      acc ++ filter (fun n => Empty n = false) (trim <$> names).
Proof.
  induction names as [| n names IH]; intros acc.
  - simpl. rewrite app_nil_r. reflexivity.
  - cbn [foldl fmap list_fmap]. rewrite IH, filter_cons.
    unfold names_step.
    destruct (Empty (trim n)) eqn:E.
    + rewrite decide_False by discriminate. reflexivity.
    + rewrite decide_True by reflexivity.
      rewrite <- app_assoc. reflexivity.
Qed.

Lemma no_names_left (names : list CertificateName) :
  filter (fun n => Empty n = false) (trim <$> names) = [] <->
  Forall (fun n => Empty (trim n) = true) names.
Proof.
  induction names as [| n names IH].
  - split; [constructor | reflexivity].
  - cbn [fmap list_fmap]. rewrite filter_cons, Forall_cons, <- IH.
    destruct (Empty (trim n)) eqn:E.
    + rewrite decide_False by discriminate. tauto.
    + rewrite decide_True by reflexivity.
      split; [discriminate | intros [? _]; discriminate].
Qed.

Lemma no_subject_test (cn : string) (names : list CertificateName) :
  String.eqb cn "" && (length names =? 0)%nat = true <->
  cn = "" /\ names = [].
Proof.
  rewrite andb_true_iff, String.eqb_eq, Nat.eqb_eq.
  destruct names; simpl; intuition (discriminate || auto).
Qed.
End Parsing.

(** C8. Once the text is decoded and the algorithm and size are valid,
    [ParseCertificateRequest] trims the common name, the serial number,
    the names and the hosts, drops the names that are empty after
    trimming, and returns the error "no subject information provided"
    exactly when the trimmed common name is empty and no name is left; in
    every other case it returns the trimmed request. So a request with an
    empty common name whose names are all empty fails, and a request with
    a common name and no names parses. *)
Theorem ParseCertificateRequest_subject `{GoRuntime}
    (input : string) (raw : CertificateRequest) :
  yaml_Unmarshal input = inr raw ->
  validateKey (csr_Algorithm raw) (csr_Size raw) = Ok tt ->
  let commonName := strings_TrimSpace (csr_CommonName raw) in
  let names :=
    filter (fun n => Empty n = false) (trim <$> csr_Names raw) in
  (commonName = "" /\ names = [] ->
   ParseCertificateRequest input = Err ErrNoSubject) /\
  (~ (commonName = "" /\ names = []) ->
   ParseCertificateRequest input =
     Ok {| csr_Algorithm := csr_Algorithm raw;
           csr_Size := csr_Size raw;
           csr_CommonName := commonName;
           csr_Names := names;
           csr_Hosts := strings_TrimSpace <$> csr_Hosts raw;
           csr_SerialNumber := strings_TrimSpace (csr_SerialNumber raw) |}) /\
  (commonName = "" ->
   Forall (fun n => Empty (trim n) = true) (csr_Names raw) ->
   ParseCertificateRequest input = Err ErrNoSubject) /\
  (commonName <> "" -> csr_Names raw = [] ->
   is_Ok (ParseCertificateRequest input) = true).
Proof.
  intros Hy Hv commonName names.
  assert (Hparse :
    ParseCertificateRequest input =
      if String.eqb commonName "" && (length names =? 0)%nat
      then Err ErrNoSubject
      else Ok {| csr_Algorithm := csr_Algorithm raw;
                 csr_Size := csr_Size raw;
                 csr_CommonName := commonName;
                 csr_Names := names;
                 csr_Hosts := strings_TrimSpace <$> csr_Hosts raw;
                 csr_SerialNumber :=
                   strings_TrimSpace (csr_SerialNumber raw) |}).
  { unfold ParseCertificateRequest. rewrite Hy; simpl. rewrite Hv; simpl.
    rewrite names_fold. reflexivity. }
  assert (Hfail : commonName = "" /\ names = [] ->
                  ParseCertificateRequest input = Err ErrNoSubject).
  { intros Hs. apply no_subject_test in Hs.
    rewrite Hparse, Hs. reflexivity. }
  assert (Hok : ~ (commonName = "" /\ names = []) ->
    ParseCertificateRequest input =
      Ok {| csr_Algorithm := csr_Algorithm raw;
            csr_Size := csr_Size raw;
            csr_CommonName := commonName;
            csr_Names := names;
            csr_Hosts := strings_TrimSpace <$> csr_Hosts raw;
            csr_SerialNumber :=
              strings_TrimSpace (csr_SerialNumber raw) |}).
  { intros Hs. rewrite Hparse.
    destruct (String.eqb commonName "" && (length names =? 0)%nat) eqn:E;
      [| reflexivity].
    apply no_subject_test in E. contradiction. }
  split; [exact Hfail |]. split; [exact Hok |]. split.
  - intros Hc Hn. apply Hfail. split; [exact Hc |].
    apply no_names_left. exact Hn.
  - intros Hc Hn. rewrite Hok; [reflexivity |]. tauto.
Qed.

Lemma ParseCertificateRequest_subject_witness :
  @ParseCertificateRequest Sample.runtime "testCSREmptyNames" =
    Err ErrNoSubject /\
  is_Ok (@ParseCertificateRequest Sample.runtime "onlyCommonName") = true.
Proof.
  split.
  - refine (proj1 (proj2 (proj2
              (@ParseCertificateRequest_subject Sample.runtime
                 "testCSREmptyNames" Sample.testCSREmptyNames
                 eq_refl eq_refl))) _ _).
    + reflexivity.
    + repeat constructor.
  - refine (proj2 (proj2 (proj2
              (@ParseCertificateRequest_subject Sample.runtime
                 "onlyCommonName" Sample.onlyCommonName
                 eq_refl eq_refl))) _ _).
    + vm_compute. discriminate.
    + reflexivity.
Defined.

(** * Further properties of the package *)

(** ** Algorithm names and key validation *)

(** X1. [ParseKeyAlgorithm] and [KeyAlgorithm.String] are inverse to each
    other on the two supported algorithms, and parsing never yields the
    unset algorithm. *)
Theorem KeyAlgorithm_name_roundtrip :
  (forall a s, KeyAlgorithm_String a = Ok s -> ParseKeyAlgorithm s = Ok a) /\
  (forall s a, ParseKeyAlgorithm s = Ok a -> KeyAlgorithm_String a = Ok s) /\
  (forall s, ParseKeyAlgorithm s <> Ok keyAlgorithmNotSet).
Proof.
  split; [| split].
  - intros [] s [= <-]; reflexivity.
  - intros s a. unfold ParseKeyAlgorithm.
    destruct (String.eqb s "ecdsa") eqn:E1.
    + apply String.eqb_eq in E1 as ->. intros [= <-]. reflexivity.
    + destruct (String.eqb s "rsa") eqn:E2; [| discriminate].
      apply String.eqb_eq in E2 as ->. intros [= <-]. reflexivity.
  - intros s. unfold ParseKeyAlgorithm.
    destruct (String.eqb s "ecdsa"); [discriminate |].
    destruct (String.eqb s "rsa"); discriminate.
Qed.

Lemma KeyAlgorithm_name_roundtrip_witness :
  ParseKeyAlgorithm "rsa" = Ok RSAKey /\
  KeyAlgorithm_String ECDSAKey = Ok "ecdsa".
Proof.
  destruct KeyAlgorithm_name_roundtrip as (Hs & Hp & _).
  split.
  - apply (Hs RSAKey "rsa"). reflexivity.
  - apply (Hp "ecdsa" ECDSAKey). reflexivity.
Defined.

Lemma validateKey_eq (alg : string) (size : Z) :
  validateKey alg size =
    (if decide (alg = "ecdsa") then
       if decide (size = 0 \/ size = 256 \/ size = 384 \/ size = 521)
       then Ok tt else Err (ErrInvalidECDSAKeySize size)
     else if decide (alg = "rsa") then
       if decide (size = 0 \/ 2048 <= size <= 8192)
       then Ok tt else Err (ErrInvalidRSAKeySize size)
     else Err (ErrUnknownKeyType alg)).
Proof.
  unfold validateKey, ParseKeyAlgorithm.
  destruct (String.eqb alg "ecdsa") eqn:E1.
  - apply String.eqb_eq in E1 as ->. rewrite decide_True by reflexivity.
    cbn [rbind]. rewrite ValidKeySize_ECDSA. case_decide; reflexivity.
  - apply String.eqb_neq in E1. rewrite decide_False by assumption.
    destruct (String.eqb alg "rsa") eqn:E2.
    + apply String.eqb_eq in E2 as ->. rewrite decide_True by reflexivity.
      cbn [rbind]. rewrite ValidKeySize_RSA. case_decide; reflexivity.
    + apply String.eqb_neq in E2. rewrite decide_False by assumption.
      reflexivity.
Qed.

Lemma validateKey_no_panic (alg : string) (size : Z) :
  is_Panic (validateKey alg size) = false.
Proof. rewrite validateKey_eq. repeat case_decide; reflexivity. Qed.

(** X2. [validateKey] accepts exactly the pairs ("ecdsa", 0/256/384/521) and
    ("rsa", 0 or 2048..8192); the algorithm name is compared byte for byte,
    an unknown name is reported whatever the size, and no input makes it
    panic. *)
Theorem validateKey_outcomes (alg : string) (size : Z) :
  validateKey alg size =
    (if decide (alg = "ecdsa") then
       if decide (size = 0 \/ size = 256 \/ size = 384 \/ size = 521)
       then Ok tt else Err (ErrInvalidECDSAKeySize size)
     else if decide (alg = "rsa") then
       if decide (size = 0 \/ 2048 <= size <= 8192)
       then Ok tt else Err (ErrInvalidRSAKeySize size)
     else Err (ErrUnknownKeyType alg)) /\
  is_Panic (validateKey alg size) = false.
Proof. split; [apply validateKey_eq | apply validateKey_no_panic]. Qed.

(** ** Generated and loaded keys *)

Lemma GenerateKey_signatureFor `{GoRuntime}
    (a : KeyAlgorithm) (size : Z) (w w' : World) (key : Key) :
  GenerateKey a size w = (Ok key, w') ->
  (exists pub, PublicKey key = Ok pub) /\
  SignatureAlgorithm key = Ok (signatureFor a (resolvedSize a size)) /\
  PublicKeyAlgorithm key =
    match a with RSAKey => x509.RSA | _ => x509.ECDSA end /\
  signatureFor ECDSAKey (resolvedSize ECDSAKey 0) = x509.ECDSAWithSHA256 /\
  signatureFor RSAKey (resolvedSize RSAKey 0) = x509.SHA512WithRSA.
Proof.
  intros Hg. apply GenerateKey_inv in Hg as [Hv [[-> Hg] | [-> Hg]]].
  - apply generateECDSAKey_inv in Hg
      as (curve & priv & der & Hs & _ & _ & ->).
    split; [eexists; reflexivity |].
    split; [| repeat split; reflexivity].
    unfold SignatureAlgorithm, signatureFor; simpl.
    destruct Hs as [[-> _] | [[-> _] | [-> _]]]; reflexivity.
  - apply generateRSAKey_inv in Hg as (priv & _ & ->).
    split; [eexists; reflexivity |].
    split; [| repeat split; reflexivity].
    unfold SignatureAlgorithm, signatureFor; simpl.
    rewrite ValidKeySize_RSA in Hv. case_decide as Hs; [| discriminate].
    unfold resolvedSize in *.
    destruct (size =? 0) eqn:E0; [reflexivity |].
    apply Z.eqb_neq in E0.
    destruct (size >=? 4096) eqn:E1.
    { rewrite decide_True by lia. reflexivity. }
    rewrite decide_False by lia.
    destruct (size >=? 3072) eqn:E2.
    { rewrite decide_True by lia. reflexivity. }
    rewrite decide_False by lia.
    destruct (size >=? 2048) eqn:E3; [reflexivity | lia].
Qed.

(** X3. A key returned by [GenerateKey] answers [PublicKey] and
    [SignatureAlgorithm] without panicking. Its signature algorithm follows
    from the algorithm and the resolved size: SHA-256/384/512 with ECDSA
    for the curve sizes 256/384/521, and for RSA SHA-512 from 4096 bits,
    SHA-384 from 3072 bits and SHA-256 below; the defaults give
    ECDSA-with-SHA256 and SHA512-with-RSA. *)
Theorem generated_key_signature `{GoRuntime}
    (a : KeyAlgorithm) (size : Z) (w w' : World) (key : Key) :
  GenerateKey a size w = (Ok key, w') ->
  (exists pub, PublicKey key = Ok pub) /\
  SignatureAlgorithm key = Ok (signatureFor a (resolvedSize a size)) /\
  PublicKeyAlgorithm key =
    match a with RSAKey => x509.RSA | _ => x509.ECDSA end /\
  signatureFor ECDSAKey (resolvedSize ECDSAKey 0) = x509.ECDSAWithSHA256 /\
  signatureFor RSAKey (resolvedSize RSAKey 0) = x509.SHA512WithRSA.
Proof. apply GenerateKey_signatureFor. Qed.

Lemma generated_key_signature_witness :
  exists key w',
    @GenerateKey Sample.runtime ECDSAKey 384 0 = (Ok key, w') /\
    SignatureAlgorithm key = Ok x509.ECDSAWithSHA384.
Proof.
  eexists _, _. split; [reflexivity |].
  apply (@generated_key_signature Sample.runtime ECDSAKey 384 0 _ _ eq_refl).
Defined.

(** X4. A key returned by [parsePrivateKey] keeps the PEM text it was
    loaded from as its encoding, carries the algorithm tag of its private
    key (RSA or ECDSA, in the matching implementation of [Key]), and
    answers [PublicKey] without panicking. *)
Theorem loaded_key_consistent `{GoRuntime} (keyPEM : string) (key : Key) :
  parsePrivateKey keyPEM = Ok key ->
  Encoded key = keyPEM /\
  (exists pub, PublicKey key = Ok pub) /\
  ((exists priv,
      PrivateKey key = crypto.RSAPrivate priv /\
      Algorithm key = RSAKey /\ PublicKeyAlgorithm key = x509.RSA) \/
   (exists priv,
      PrivateKey key = crypto.ECDSAPrivate priv /\
      Algorithm key = ECDSAKey /\ PublicKeyAlgorithm key = x509.ECDSA)).
Proof.
  intros Hk.
  apply parsePrivateKey_inv in Hk
    as (blk & _ & [(priv & ->) | (priv & sz & _ & ->)]).
  - split; [reflexivity |]. split; [eexists; reflexivity |].
    left. exists priv. repeat split; reflexivity.
  - split; [reflexivity |]. split; [eexists; reflexivity |].
    right. exists priv. repeat split; reflexivity.
Qed.

Lemma loaded_key_consistent_witness :
  exists key,
    @parsePrivateKey Sample.runtime "ecP384.pem" = Ok key /\
    Encoded key = "ecP384.pem".
Proof.
  eexists. split; [reflexivity |].
  apply (@loaded_key_consistent Sample.runtime "ecP384.pem" _ eq_refl).
Defined.

(** X5. [parsePrivateKey] has three ways to fail and no other: it panics
    exactly when [pem.Decode] finds no block; it returns "unknown private
    key type" exactly when the PKCS#8 decoder succeeds with a key that is
    neither RSA nor ECDSA (the PKCS#1 and SEC1 decoders are then not
    consulted); it returns "cannot parse private key" exactly when all
    three decoders reject the block. The text of a decoder's error is
    never passed on. *)
Theorem parsePrivateKey_failures `{GoRuntime} (keyPEM : string) :
  (forall p, parsePrivateKey keyPEM = Panic p <->
             p = PanicNilDereference /\ pem_Decode keyPEM = None) /\
  (parsePrivateKey keyPEM = Err ErrUnknownPrivateKeyType <->
   exists blk k,
     pem_Decode keyPEM = Some blk /\
     x509_ParsePKCS8PrivateKey (pem.Bytes blk) =
       inr (crypto.OtherPrivate k)) /\
  (parsePrivateKey keyPEM = Err ErrCannotParsePrivateKey <->
   exists blk m8 m1 mec,
     pem_Decode keyPEM = Some blk /\
     x509_ParsePKCS8PrivateKey (pem.Bytes blk) = inl m8 /\
     x509_ParsePKCS1PrivateKey (pem.Bytes blk) = inl m1 /\
     x509_ParseECPrivateKey (pem.Bytes blk) = inl mec) /\
  (forall e, parsePrivateKey keyPEM = Err e ->
             e = ErrUnknownPrivateKeyType \/ e = ErrCannotParsePrivateKey).
Proof.
  unfold parsePrivateKey, deref, rbind.
  destruct (pem_Decode keyPEM) as [blk |] eqn:Hd;
    [destruct (x509_ParsePKCS8PrivateKey (pem.Bytes blk))
       as [m8 | [k | k | k]] eqn:H8;
     [destruct (x509_ParsePKCS1PrivateKey (pem.Bytes blk))
        as [m1 | k1] eqn:H1;
      [destruct (x509_ParseECPrivateKey (pem.Bytes blk))
         as [mec | kec] eqn:Hec |]
     | | |] |].
  all: try destruct (ecdsa.Curve (ecdsa.Public kec)); simpl.
  all: try destruct (ecdsa.Curve (ecdsa.Public k)); simpl.
  all: repeat split.
  all: intros;
    repeat match goal with
           | H : _ /\ _ |- _ => destruct H
           | H : ex _ |- _ => destruct H
           end;
    try discriminate; try reflexivity; try congruence;
    try (left; congruence); try (right; congruence).
  all: repeat eexists; eassumption.
Qed.

Lemma parsePrivateKey_failures_witness :
  @parsePrivateKey Sample.runtime "ca.pem" = Err ErrCannotParsePrivateKey.
Proof.
  apply (proj1 (proj2 (proj2 (@parsePrivateKey_failures
                                Sample.runtime "ca.pem")))).
  eexists _, _, _, _. repeat split; reflexivity.
Defined.

Lemma parsePrivateKey_signatures `{GoRuntime} (keyPEM : string) (key : Key) :
  parsePrivateKey keyPEM = Ok key ->
  (forall priv,
     PrivateKey key = crypto.ECDSAPrivate priv ->
     SignatureAlgorithm key =
       Ok match ecdsa.Curve (ecdsa.Public priv) with
          | elliptic.P384 => x509.ECDSAWithSHA384
          | elliptic.P521 => x509.ECDSAWithSHA512
          | _ => x509.ECDSAWithSHA256
          end) /\
  (forall priv,
     PrivateKey key = crypto.RSAPrivate priv ->
     rsa.BitLen (rsa.N (rsa.Public priv)) <= 16376 ->
     SignatureAlgorithm key = Panic (PanicLog "unexpected key size")).
Proof.
  intros Hk.
  apply parsePrivateKey_inv in Hk
    as (blk & _ & [(priv' & ->) | (priv' & sz & Hsz & ->)]).
  - split; intros priv Hp; [discriminate |].
    injection Hp as ->. intros Hb.
    unfold SignatureAlgorithm, rsa.Size; simpl.
    assert (Hs : (rsa.BitLen (rsa.N (rsa.Public priv)) + 7) / 8 < 2048)
      by (apply Z.div_lt_upper_bound; lia).
    destruct (_ >=? 4096) eqn:E1; [lia |].
    destruct (_ >=? 3072) eqn:E2; [lia |].
    destruct (_ >=? 2048) eqn:E3; [lia |].
    reflexivity.
  - split; intros priv Hp; [| discriminate].
    injection Hp as ->.
    unfold SignatureAlgorithm; simpl.
    destruct (ecdsa.Curve (ecdsa.Public priv)); simpl in Hsz;
      injection Hsz as <-; reflexivity.
Qed.

(** X6. The signature algorithm of a loaded key. For an ECDSA key it is
    decided by the curve, P-224 falling in with P-256. For an RSA key the
    stored size counts bytes, so for every modulus of at most 16376 bits
    [SignatureAlgorithm] takes the branch "unexpected key size" and
    panics. *)
Theorem loaded_key_signature `{GoRuntime} (keyPEM : string) (key : Key) :
  parsePrivateKey keyPEM = Ok key ->
  (forall priv,
     PrivateKey key = crypto.ECDSAPrivate priv ->
     SignatureAlgorithm key =
       Ok match ecdsa.Curve (ecdsa.Public priv) with
          | elliptic.P384 => x509.ECDSAWithSHA384
          | elliptic.P521 => x509.ECDSAWithSHA512
          | _ => x509.ECDSAWithSHA256
          end) /\
  (forall priv,
     PrivateKey key = crypto.RSAPrivate priv ->
     rsa.BitLen (rsa.N (rsa.Public priv)) <= 16376 ->
     SignatureAlgorithm key = Panic (PanicLog "unexpected key size")).
Proof. apply parsePrivateKey_signatures. Qed.

Lemma loaded_key_signature_witness :
  exists key,
    @parsePrivateKey Sample.runtime "rsa4096.pem" = Ok key /\
    SignatureAlgorithm key = Panic (PanicLog "unexpected key size").
Proof.
  eexists. split; [reflexivity |].
  apply (proj2 (@loaded_key_signature Sample.runtime "rsa4096.pem" _
                  eq_refl) Sample.rsa4096 eq_refl).
  vm_compute. discriminate.
Defined.

(** ** Parsed requests *)

Section ParsedRequests.
Context `{GoRuntime}.

Lemma ParseCertificateRequest_inv input csr :
  ParseCertificateRequest input = Ok csr ->
  exists raw,
    yaml_Unmarshal input = inr raw /\
    validateKey (csr_Algorithm raw) (csr_Size raw) = Ok tt /\
    csr = {| csr_Algorithm := csr_Algorithm raw;
             csr_Size := csr_Size raw;
             csr_CommonName := strings_TrimSpace (csr_CommonName raw);
             csr_Names :=
               filter (fun n => Empty n = false) (trim <$> csr_Names raw);
             csr_Hosts := strings_TrimSpace <$> csr_Hosts raw;
             csr_SerialNumber :=
               strings_TrimSpace (csr_SerialNumber raw) |} /\
    ~ (csr_CommonName csr = "" /\ csr_Names csr = []).
Proof.
  unfold ParseCertificateRequest.
  destruct (yaml_Unmarshal input) as [msg | raw] eqn:Hy; [discriminate |].
  simpl.
  destruct (validateKey (csr_Algorithm raw) (csr_Size raw))
    as [[] | e | p] eqn:Hv; [| discriminate ..].
  simpl. rewrite names_fold; simpl.
  destruct (String.eqb _ _ && _) eqn:E; [discriminate |].
  intros [= <-]. exists raw.
  split; [reflexivity |]. split; [exact Hv |]. split; [reflexivity |].
  simpl. intros Hs. apply no_subject_test in Hs. congruence.
Qed.

Lemma ParseCertificateRequest_no_panic input :
  is_Panic (ParseCertificateRequest input) = false.
Proof.
  unfold ParseCertificateRequest.
  destruct (yaml_Unmarshal input) as [msg | raw]; [reflexivity |].
  simpl.
  pose proof (validateKey_no_panic (csr_Algorithm raw) (csr_Size raw)) as Hn.
  destruct (validateKey (csr_Algorithm raw) (csr_Size raw))
    as [[] | e | p]; [| reflexivity | discriminate].
  simpl. destruct (String.eqb _ _ && _); reflexivity.
Qed.

Lemma GenerateKey_outcomes a size w :
  ValidKeySize a size = Ok tt ->
  match GenerateKey a size w with
  | (Ok key, _) => Algorithm key = a /\ Size key = resolvedSize a size
  | (Err e, _) => exists msg, e = ErrLibrary msg
  | (Panic _, _) => False
  end.
Proof.
  intros Hv. destruct a; [discriminate | |].
  - rewrite ValidKeySize_ECDSA in Hv. case_decide as Hs; [| discriminate].
    unfold GenerateKey, generateECDSAKey, resolvedSize. run.
    destruct Hs as [-> | [-> | [-> | ->]]]; simpl.
    all: match goal with
         | |- context [ecdsa_GenerateKey ?c ?w0] =>
             destruct (ecdsa_GenerateKey c w0) as [[? | priv] ?]; simpl;
             [eauto |];
             destruct (x509_MarshalECPrivateKey priv) as [? | ?]; simpl;
             eauto
         end.
  - pose proof Hv as Hv'.
    rewrite ValidKeySize_RSA in Hv'. case_decide as Hs; [| discriminate].
    unfold GenerateKey, generateRSAKey, resolvedSize, bindM, lift.
    rewrite Hv. unfold call, ret, of_lib.
    destruct (size =? 0); simpl.
    all: match goal with
         | |- context [rsa_GenerateKey ?b ?w0] =>
             destruct (rsa_GenerateKey b w0) as [[? | ?] ?]; simpl
         end.
    all: eauto.
Qed.

(** After a successful parse the algorithm is one of the two names, so
    key generation validates the size again, with the same verdict, and
    goes on to the library generator. *)
Lemma generateKey_after_parse input csr w :
  ParseCertificateRequest input = Ok csr ->
  match generateKey csr w with
  | (Ok key, _) =>
      KeyAlgorithm_String (Algorithm key) = Ok (csr_Algorithm csr) /\
      Size key = resolvedSize (Algorithm key) (csr_Size csr)
  | (Err e, _) => exists msg, e = ErrLibrary msg
  | (Panic _, _) => False
  end.
Proof.
  intros Hp.
  apply ParseCertificateRequest_inv in Hp as (raw & _ & Hv & -> & _).
  unfold validateKey in Hv. unfold generateKey, bindM, lift.
  cbn [csr_Algorithm csr_Size].
  destruct (ParseKeyAlgorithm (csr_Algorithm raw)) as [a | e | p] eqn:Ha;
    [| discriminate ..].
  cbn [rbind] in Hv.
  destruct (ValidKeySize a (csr_Size raw)) as [[] | e | p] eqn:Hs;
    [| discriminate ..].
  pose proof (GenerateKey_outcomes a (csr_Size raw) w Hs) as Hg.
  destruct (GenerateKey a (csr_Size raw) w) as [[key | e | p] w'];
    [| exact Hg ..].
  destruct Hg as [Hk Hz]. rewrite Hk. split; [| exact Hz].
  revert Ha. unfold ParseKeyAlgorithm.
  destruct (String.eqb (csr_Algorithm raw) "ecdsa") eqn:E1.
  - apply String.eqb_eq in E1 as ->. intros [= <-]. reflexivity.
  - destruct (String.eqb (csr_Algorithm raw) "rsa") eqn:E2; [| discriminate].
    apply String.eqb_eq in E2 as ->. intros [= <-]. reflexivity.
Qed.
End ParsedRequests.

(** X7. A request returned by [ParseCertificateRequest] satisfies what the
    rest of the package relies on: its algorithm and size pass
    [validateKey]; none of its names is empty; it has a common name or a
    name; its names are, in order, names of the decoded text after
    trimming; and it has as many hosts as the decoded text, each trimmed,
    none dropped. *)
Theorem parsed_request_invariants `{GoRuntime}
    (input : string) (csr : CertificateRequest) :
  ParseCertificateRequest input = Ok csr ->
  validateKey (csr_Algorithm csr) (csr_Size csr) = Ok tt /\
  Forall (fun n => Empty n = false) (csr_Names csr) /\
  (csr_CommonName csr <> "" \/ csr_Names csr <> []) /\
  exists raw,
    yaml_Unmarshal input = inr raw /\
    csr_Names csr `sublist_of` (trim <$> csr_Names raw) /\
    csr_Hosts csr = strings_TrimSpace <$> csr_Hosts raw /\
    length (csr_Hosts csr) = length (csr_Hosts raw).
Proof.
  intros Hp.
  apply ParseCertificateRequest_inv in Hp as (raw & Hy & Hv & -> & Hs).
  simpl in *. split; [exact Hv |]. split.
  - apply Forall_forall. intros n Hn.
    apply list_elem_of_filter in Hn as [Hn _]. exact Hn.
  - split.
    + destruct (decide (strings_TrimSpace (csr_CommonName raw) = ""));
        [| tauto].
      right. intros Hn. apply Hs. tauto.
    + exists raw. split; [exact Hy |]. split; [apply sublist_filter |].
      split; [reflexivity | apply length_fmap].
Qed.

Lemma parsed_request_invariants_witness :
  exists csr,
    @ParseCertificateRequest Sample.runtime "testCSR" = Ok csr /\
    Forall (fun n => Empty n = false) (csr_Names csr).
Proof.
  eexists. split; [vm_compute; reflexivity |].
  apply (@parsed_request_invariants Sample.runtime "testCSR" _ eq_refl).
Defined.

(** X8. The order of the checks of [ParseCertificateRequest]: a decoding
    error is returned as it is; an invalid algorithm or size is reported
    even when the request has no subject; and no input text makes the
    parser panic. *)
Theorem ParseCertificateRequest_errors `{GoRuntime} (input : string) :
  (forall msg, yaml_Unmarshal input = inl msg ->
               ParseCertificateRequest input = Err (ErrLibrary msg)) /\
  (forall raw e,
     yaml_Unmarshal input = inr raw ->
     validateKey (csr_Algorithm raw) (csr_Size raw) = Err e ->
     ParseCertificateRequest input = Err e) /\
  is_Panic (ParseCertificateRequest input) = false.
Proof.
  split; [| split].
  - intros msg Hy. unfold ParseCertificateRequest. rewrite Hy. reflexivity.
  - intros raw e Hy Hv. unfold ParseCertificateRequest.
    rewrite Hy; simpl. rewrite Hv. reflexivity.
  - apply ParseCertificateRequest_no_panic.
Qed.

Lemma ParseCertificateRequest_errors_witness :
  @ParseCertificateRequest Sample.runtime "keyAlgorithm: rsa : x" =
    Err (ErrLibrary "yaml: unmarshal errors").
Proof.
  apply (proj1 (@ParseCertificateRequest_errors Sample.runtime
                  "keyAlgorithm: rsa : x")).
  reflexivity.
Defined.

(** X9. For a parsed request, [generateKey] does not panic and does not
    report the algorithm or the size: it either returns a key of the
    request's algorithm and resolved size or passes on an error of the
    library generator. *)
Theorem generateKey_of_parsed_request `{GoRuntime}
    (input : string) (csr : CertificateRequest) (w : World) :
  ParseCertificateRequest input = Ok csr ->
  match generateKey csr w with
  | (Ok key, _) =>
      KeyAlgorithm_String (Algorithm key) = Ok (csr_Algorithm csr) /\
      Size key = resolvedSize (Algorithm key) (csr_Size csr)
  | (Err e, _) => exists msg, e = ErrLibrary msg
  | (Panic _, _) => False
  end.
Proof. apply generateKey_after_parse. Qed.

Lemma generateKey_of_parsed_request_witness :
  exists key w',
    @generateKey Sample.runtime
      {| csr_Algorithm := "ecdsa"; csr_Size := 384;
         csr_CommonName := "test.example.com";
         csr_Names :=
           [ {| n_C := "CA"; n_ST := "QC"; n_L := "Montreal";
                n_O := "test org"; n_OU := "test org unit";
                n_SerialNumber := "" |} ];
         csr_Hosts := ["example.com"; "admin@example.com"; "localhost";
                       "10.1.0.1"];
         csr_SerialNumber := "" |} 0 = (Ok key, w') /\
    Size key = 384.
Proof.
  eexists _, _. split; [reflexivity |].
  pose proof (@generateKey_of_parsed_request Sample.runtime "testCSR" _ 0
                eq_refl) as Hg.
  simpl in Hg. exact (proj2 Hg).
Defined.

(** ** Issuance: what can and what cannot go wrong *)

Section IssuanceOutcomes.
Context `{GoRuntime}.

(** The outcomes of template construction, by the step that decides. *)
Lemma generateCertificateTemplate_cases csrData expires usage isCA w :
  (exists e w', generateCertificateTemplate csrData expires usage isCA w
                = (Err e, w')) \/
  (exists csr sn w1 key w2 pub sig,
     ParseCertificateRequest csrData = Ok csr /\
     rand_Int math.MaxInt64 w = (inr sn, w1) /\
     generateKey csr w1 = (Ok key, w2) /\
     PublicKey key = Ok pub /\
     SignatureAlgorithm key = Ok sig /\
     sortUsages usage <> (0, []) /\
     generateCertificateTemplate csrData expires usage isCA w =
       (Ok (templateOf csr key pub sig sn (fst (time_Now w2))
              (resolvedExpiration expires) usage isCA, key),
        snd (time_Now w2))).
Proof.
  pose proof (ParseCertificateRequest_no_panic csrData) as Hnp.
  destruct (ParseCertificateRequest csrData) as [csr | e | p] eqn:Hp;
    [| left | discriminate].
  2: { exists e, w. unfold generateCertificateTemplate, bindM, lift.
       rewrite Hp. reflexivity. }
  destruct (rand_Int math.MaxInt64 w) as [[msg | sn] w1] eqn:Hr.
  { left. exists (ErrLibrary msg), w1.
    unfold generateCertificateTemplate, bindM, lift, call.
    rewrite Hp, Hr. reflexivity. }
  pose proof (generateKey_after_parse csrData csr w1 Hp) as Hk.
  destruct (generateKey csr w1) as [[key | e | p] w2] eqn:Hg;
    [| left | contradiction].
  2: { exists e, w2. unfold generateCertificateTemplate, bindM, lift, call.
       rewrite Hp, Hr; simpl. rewrite Hg. reflexivity. }
  destruct (generateCertificateTemplate_run csrData expires usage isCA
              w csr sn w1 key w2 Hp Hr Hg)
    as (pub & sig & Hpub & Hsig & Hrun).
  case_decide as Hu.
  - left. eauto.
  - right. exists csr, sn, w1, key, w2, pub, sig. auto 10.
Qed.
End IssuanceOutcomes.

(** X10. Template construction and CA issuance never panic: whatever the
    request text, the expiration, the usage names and the answers of the
    library, [generateCertificateTemplate] and [GenerateCA] return a
    result or an error. *)
Theorem GenerateCA_never_panics `{GoRuntime} :
  (forall csrData expires usage isCA w,
     is_Panic
       (fst (generateCertificateTemplate csrData expires usage isCA w))
     = false) /\
  (forall csrData expires w,
     is_Panic (fst (GenerateCA csrData expires w)) = false).
Proof.
  split.
  - intros csrData expires usage isCA w.
    destruct (generateCertificateTemplate_cases csrData expires usage isCA w)
      as [(e & w' & ->) | (? & ? & ? & ? & ? & ? & ? & H')];
      [reflexivity |].
    destruct H' as (_ & _ & _ & _ & _ & _ & ->). reflexivity.
  - intros csrData expires w. unfold GenerateCA, bindM at 1.
    destruct (generateCertificateTemplate_cases csrData expires
                ["cert sign"; "crl sign"] true w)
      as [(e & w' & ->) | (? & ? & ? & key & ? & pub & ? & H')];
      [reflexivity |].
    destruct H' as (_ & _ & _ & Hpub & _ & _ & ->).
    unfold bindM, lift, call, ret. rewrite Hpub.
    match goal with
    | |- context [x509_CreateCertificate ?t ?p ?k ?s ?w0] =>
        destruct (x509_CreateCertificate t p k s w0) as [[? | ?] ?]
    end; reflexivity.
Qed.

(** X11. Leaf issuance. When the template is built and the CA certificate
    and the CA key are decoded and parsed, [Generate] hands
    [x509.CreateCertificate] the template (with [IsCA] unset and the
    caller's usages), the CA certificate as parent, the public key of the
    freshly generated leaf key and the private key of the CA; it returns
    the PEM block "CERTIFICATE" and the encoding of the leaf key. *)
Theorem Generate_signs_with_CA `{GoRuntime}
    (csrData ca caKey : string) (expires : time.Duration)
    (usage : list string) (w w' : World) (tpl caCert : x509.Certificate)
    (key caPrivateKey : Key) (blk : pem.Block) :
  generateCertificateTemplate csrData expires usage false w
    = (Ok (tpl, key), w') ->
  pem_Decode ca = Some blk ->
  x509_ParseCertificate (pem.Bytes blk) = inr caCert ->
  parsePrivateKey caKey = Ok caPrivateKey ->
  x509.IsCA tpl = false /\
  (x509.KeyUsage_ tpl, x509.ExtKeyUsage_ tpl) = sortUsages usage /\
  Ok (x509.PublicKey tpl) = PublicKey key /\
  Generate csrData ca caKey expires usage w =
    match x509_CreateCertificate tpl caCert (x509.PublicKey tpl)
            (PrivateKey caPrivateKey) w' with
    | (inr cert, w'') =>
        (Ok (pem_EncodeToMemory
               {| pem.Type_ := "CERTIFICATE"; pem.Bytes := cert |},
             Encoded key), w'')
    | (inl msg, w'') => (Err (ErrLibrary msg), w'')
    end.
Proof.
  intros Hg Hd Hc Hk.
  pose proof Hg as Hg'.
  apply generateCertificateTemplate_inv in Hg'
    as (csr & sn & w1 & w2 & t & pub & sig & _ & _ & _ & _ & _ & Hpub & _ & ->).
  split; [reflexivity |].
  split; [unfold templateOf; simpl; symmetry; apply surjective_pairing |].
  split; [unfold templateOf; simpl; congruence |].
  unfold Generate, bindM at 1. rewrite Hg.
  unfold bindM, lift, call, ret. rewrite Hd; simpl. rewrite Hc; simpl.
  rewrite Hk, Hpub; simpl.
  match goal with
  | |- context [x509_CreateCertificate ?t ?p ?k ?s ?w0] =>
      destruct (x509_CreateCertificate t p k s w0) as [[? | ?] ?]
  end; reflexivity.
Qed.

(** X12. The order in which [Generate] fails: an error of template
    construction is returned without the CA material being looked at; a CA
    certificate that decodes but does not parse is reported before the CA
    key is looked at, after the leaf key has been generated; and when both
    PEM texts contain a block, [Generate] does not panic. *)
Theorem Generate_failure_order `{GoRuntime}
    (csrData ca caKey : string) (expires : time.Duration)
    (usage : list string) (w : World) :
  (forall e w',
     generateCertificateTemplate csrData expires usage false w
       = (Err e, w') ->
     Generate csrData ca caKey expires usage w = (Err e, w')) /\
  (forall tpl key w' blk msg,
     generateCertificateTemplate csrData expires usage false w
       = (Ok (tpl, key), w') ->
     pem_Decode ca = Some blk ->
     x509_ParseCertificate (pem.Bytes blk) = inl msg ->
     Generate csrData ca caKey expires usage w = (Err (ErrLibrary msg), w')) /\
  (pem_Decode ca <> None -> pem_Decode caKey <> None ->
   is_Panic (fst (Generate csrData ca caKey expires usage w)) = false).
Proof.
  split; [| split].
  - intros e w' Hg. unfold Generate, bindM at 1. rewrite Hg. reflexivity.
  - intros tpl key w' blk msg Hg Hd Hc. unfold Generate, bindM at 1.
    rewrite Hg. unfold bindM, lift. rewrite Hd; simpl. rewrite Hc.
    reflexivity.
  - intros Hca Hkey. unfold Generate, bindM at 1.
    destruct (generateCertificateTemplate_cases csrData expires usage
                false w)
      as [(e & w' & ->) | (? & ? & ? & key & ? & pub & ? & H')];
      [reflexivity |].
    destruct H' as (_ & _ & _ & Hpub & _ & _ & ->).
    unfold bindM, lift, call, ret.
    destruct (pem_Decode ca) as [blk |]; [| contradiction]. simpl.
    destruct (x509_ParseCertificate (pem.Bytes blk)) as [msg | caCert];
      [reflexivity |]. simpl.
    destruct (parsePrivateKey caKey) as [caPriv | e | p] eqn:Hk;
      [| reflexivity |].
    + rewrite Hpub.
      match goal with
      | |- context [x509_CreateCertificate ?t ?p ?k ?s ?w0] =>
          destruct (x509_CreateCertificate t p k s w0) as [[? | ?] ?]
      end; reflexivity.
    + exfalso. revert Hk. unfold parsePrivateKey, deref, rbind.
      destruct (pem_Decode caKey) as [kblk |]; [| contradiction].
      destruct (x509_ParsePKCS8PrivateKey _) as [? | [k | k | k]];
        [destruct (x509_ParsePKCS1PrivateKey _) as [? | ?];
         [destruct (x509_ParseECPrivateKey _) as [? | kec];
          [| destruct (ecdsa.Curve (ecdsa.Public kec))] |]
        | | destruct (ecdsa.Curve (ecdsa.Public k)) |];
        discriminate.
Qed.

Lemma Generate_signs_with_CA_witness :
  exists cert key w',
    @Generate SampleCA.runtime "testCSR" "ca.pem" "ecP384.pem" 0
      ["signing"; "key encipherment"; "server auth"; "client auth"] 0 =
      (Ok (cert, key), w').
Proof.
  destruct (@Generate_signs_with_CA SampleCA.runtime
              "testCSR" "ca.pem" "ecP384.pem" 0
              ["signing"; "key encipherment"; "server auth"; "client auth"]
              0 _ _ SampleCA.caCert _ _ _
              eq_refl eq_refl eq_refl eq_refl)
    as (_ & _ & _ & Hg).
  rewrite Hg. simpl. eexists _, _, _. reflexivity.
Defined.

Lemma Generate_failure_order_witness :
  exists w',
    @Generate Sample.runtime "testCSR" "ca.pem" "" 0 ["server auth"] 0 =
      (Err (ErrLibrary "x509: malformed certificate"), w').
Proof.
  eexists.
  eapply (proj1 (proj2 (@Generate_failure_order Sample.runtime
                          "testCSR" "ca.pem" "" 0 ["server auth"] 0))).
  - vm_compute; reflexivity.
  - reflexivity.
  - reflexivity.
Defined.

(** X13. What a template carries. Its subject and its four lists of
    alternative names are those computed from the parsed request; its
    serial number is the number drawn below [math.MaxInt64]; basic
    constraints are valid and [IsCA] is the caller's flag; its public key
    is the one of the returned key; and the public-key and signature
    algorithms are decided by the algorithm and size of the request. *)
Theorem template_contents `{GoRuntime}
    (csrData : string) (expires : time.Duration) (usage : list string)
    (isCA : bool) (w w' : World) (tpl : x509.Certificate) (key : Key) :
  generateCertificateTemplate csrData expires usage isCA w
    = (Ok (tpl, key), w') ->
  exists csr a sn w1,
    ParseCertificateRequest csrData = Ok csr /\
    ParseKeyAlgorithm (csr_Algorithm csr) = Ok a /\
    rand_Int math.MaxInt64 w = (inr sn, w1) /\
    x509.Subject tpl = subject csr /\
    x509.IPAddresses tpl = h_IPAddresses (parseHosts csr) /\
    x509.EmailAddresses tpl = h_EmailAddresses (parseHosts csr) /\
    x509.URIs tpl = h_URIs (parseHosts csr) /\
    x509.DNSNames tpl = h_DNSNames (parseHosts csr) /\
    x509.SerialNumber tpl = sn /\
    x509.BasicConstraintsValid tpl = true /\
    x509.IsCA tpl = isCA /\
    Ok (x509.PublicKey tpl) = PublicKey key /\
    x509.PublicKeyAlgorithm_ tpl =
      match a with RSAKey => x509.RSA | _ => x509.ECDSA end /\
    x509.SignatureAlgorithm_ tpl =
      signatureFor a (resolvedSize a (csr_Size csr)).
Proof.
  intros Hg.
  apply generateCertificateTemplate_inv in Hg
    as (csr & sn & w1 & w2 & t & pub & sig
        & Hp & Hr & Hk & _ & _ & Hpub & Hsig & ->).
  unfold generateKey, bindM, lift in Hk.
  destruct (ParseKeyAlgorithm (csr_Algorithm csr)) as [a | e | p] eqn:Ha;
    [| discriminate ..].
  apply GenerateKey_signatureFor in Hk as (_ & Hs & Ha' & _).
  exists csr, a, sn, w1.
  repeat (split; [first [assumption | reflexivity] |]).
  unfold templateOf; simpl.
  split; [congruence |]. split; [assumption | congruence].
Qed.

Lemma template_contents_witness :
  exists tpl key w',
    @generateCertificateTemplate Sample.runtime "testCSR" 0
      ["server auth"] false 0 = (Ok (tpl, key), w') /\
    x509.SignatureAlgorithm_ tpl = x509.ECDSAWithSHA384 /\
    x509.BasicConstraintsValid tpl = true.
Proof.
  eexists _, _, _. split; [vm_compute; reflexivity |].
  destruct (@template_contents Sample.runtime "testCSR" 0 ["server auth"]
              false 0 _ _ _ eq_refl)
    as (csr & a & sn & w1 & Hp & Ha & _ & _ & _ & _ & _ & _ & _ & Hb & _
        & _ & _ & Hs).
  vm_compute in Hp. injection Hp as <-.
  vm_compute in Ha. injection Ha as <-.
  split; [exact Hs | exact Hb].
Defined.

(** ** Usage names, continued *)

Lemma keyUsage_range (u : string) (k : x509.KeyUsage) :
  keyUsage !! u = Some k -> 0 <= k < 512.
Proof.
  intros Hu. unfold keyUsage in Hu.
  apply elem_of_list_to_map_2 in Hu.
  repeat (apply elem_of_cons in Hu as [[= -> ->] | Hu];
          [vm_compute; split; [discriminate | reflexivity] |]).
  apply elem_of_nil in Hu. contradiction.
Qed.

Lemma lor_range (n a b : Z) :
  0 <= n -> 0 <= a < 2 ^ n -> 0 <= b < 2 ^ n -> 0 <= Z.lor a b < 2 ^ n.
Proof.
  intros Hn Ha Hb. split; [apply Z.lor_nonneg; lia |].
  destruct (Z.eq_dec (Z.lor a b) 0) as [-> | Hz]; [lia |].
  apply Z.log2_lt_pow2; [pose proof (Z.lor_nonneg a b); lia |].
  rewrite Z.log2_lor by lia.
  destruct (Z.eq_dec a 0) as [-> | Ha0];
    destruct (Z.eq_dec b 0) as [-> | Hb0].
  - rewrite Z.lor_0_l in Hz. contradiction.
  - rewrite Z.max_r by (simpl; apply Z.log2_nonneg).
    apply Z.log2_lt_pow2; lia.
  - rewrite Z.max_l by (simpl; apply Z.log2_nonneg).
    apply Z.log2_lt_pow2; lia.
  - apply Z.max_lub_lt; apply Z.log2_lt_pow2; lia.
Qed.

Lemma foldr_lor (ks : list Z) (x : Z) :
  foldr Z.lor x ks = Z.lor (foldr Z.lor 0 ks) x.
Proof.
  induction ks as [| k ks IH]; simpl.
  - reflexivity.
  - rewrite IH, Z.lor_assoc. reflexivity.
Qed.

Lemma keyUsageBits_app (us vs : list string) :
  keyUsageBits (us ++ vs) = Z.lor (keyUsageBits us) (keyUsageBits vs).
Proof.
  unfold keyUsageBits. rewrite omap_app, foldr_app. apply foldr_lor.
Qed.

Lemma keyUsageBits_Permutation (us vs : list string) :
  us ≡ₚ vs -> keyUsageBits us = keyUsageBits vs.
Proof.
  induction 1 as [| u us vs _ IH | u v us | us vs ws _ IH1 _ IH2].
  - reflexivity.
  - change (u :: us) with ([u] ++ us). change (u :: vs) with ([u] ++ vs).
    rewrite !keyUsageBits_app, IH. reflexivity.
  - change (v :: u :: us) with ([v] ++ [u] ++ us).
    change (u :: v :: us) with ([u] ++ [v] ++ us).
    rewrite !keyUsageBits_app, !Z.lor_assoc.
    f_equal. apply Z.lor_comm.
  - congruence.
Qed.

Lemma keyUsageBits_range (us : list string) : 0 <= keyUsageBits us < 512.
Proof.
  unfold keyUsageBits.
  induction us as [| u us IH]; [simpl; lia |].
  cbn [omap list_omap].
  destruct (keyUsage !! u) as [k |] eqn:Ek; [| exact IH].
  cbn [foldr]. apply (lor_range 9); [lia | | exact IH].
  apply (keyUsage_range u). exact Ek.
Qed.

Lemma extKeyUsages_length (us : list string) :
  (length (extKeyUsages us) <= length us)%nat.
Proof.
  unfold extKeyUsages.
  induction us as [| u us IH]; [reflexivity |].
  cbn [omap list_omap length].
  destruct (extKeyUsage !! u); cbn [length]; lia.
Qed.

(** X14. The bit mask [sortUsages] returns does not depend on the order of
    the names nor on repetitions, and fits in the nine bits of the key
    usages; on a concatenation the masks are ORed and the lists of
    extended usages appended; the list is never longer than the list of
    names. *)
Theorem sortUsages_algebra :
  (forall us vs,
     sortUsages (us ++ vs) =
       (Z.lor (fst (sortUsages us)) (fst (sortUsages vs)),
        snd (sortUsages us) ++ snd (sortUsages vs))) /\
  (forall us vs, us ≡ₚ vs -> fst (sortUsages us) = fst (sortUsages vs)) /\
  (forall us, fst (sortUsages (us ++ us)) = fst (sortUsages us)) /\
  (forall us, 0 <= fst (sortUsages us) < 512) /\
  (forall us, (length (snd (sortUsages us)) <= length us)%nat).
Proof.
  split; [| split; [| split; [| split]]].
  - intros us vs. rewrite !sortUsages_spec; simpl.
    rewrite keyUsageBits_app. unfold extKeyUsages. rewrite omap_app.
    reflexivity.
  - intros us vs Hp. rewrite !sortUsages_spec; simpl.
    apply keyUsageBits_Permutation. exact Hp.
  - intros us. rewrite !sortUsages_spec; simpl.
    rewrite keyUsageBits_app. apply Z.lor_diag.
  - intros us. rewrite sortUsages_spec; simpl. apply keyUsageBits_range.
  - intros us. rewrite sortUsages_spec; simpl.
    apply extKeyUsages_length.
Qed.

Lemma sortUsages_algebra_witness :
  fst (sortUsages ["crl sign"; "cert sign"]) =
  fst (sortUsages ["cert sign"; "crl sign"]).
Proof.
  apply (proj1 (proj2 sortUsages_algebra)).
  apply Permutation_swap.
Defined.

(** X15. In terms of the names: once the request is parsed, the serial
    number drawn and the key generated, template construction fails with
    "no key usage(s) specified" exactly when not one of the usage names is
    a key of [keyUsage] or of [extKeyUsage]; the empty list of names is
    such a case. *)
Theorem no_known_usage `{GoRuntime}
    (csrData : string) (expires : time.Duration) (usage : list string)
    (isCA : bool) (w w1 w2 : World) (csr : CertificateRequest) (sn : Z)
    (key : Key) :
  ParseCertificateRequest csrData = Ok csr ->
  rand_Int math.MaxInt64 w = (inr sn, w1) ->
  generateKey csr w1 = (Ok key, w2) ->
  (generateCertificateTemplate csrData expires usage isCA w
     = (Err ErrNoKeyUsage, w2) <->
   Forall (fun u => keyUsage !! u = None /\ extKeyUsage !! u = None) usage) /\
  (usage = [] ->
   generateCertificateTemplate csrData expires usage isCA w
     = (Err ErrNoKeyUsage, w2)).
Proof.
  intros Hp Hr Hk.
  destruct (generateCertificateTemplate_run csrData expires usage isCA
              w csr sn w1 key w2 Hp Hr Hk)
    as (pub & sig & _ & _ & Hrun).
  assert (Hiff : sortUsages usage = (0, []) <->
                 Forall (fun u => keyUsage !! u = None /\
                                  extKeyUsage !! u = None) usage).
  { rewrite sortUsages_spec, Forall_and,
      <- keyUsageBits_zero, <- extKeyUsages_nil.
    split; [intros [= -> ->]; auto | intros [-> ->]; reflexivity]. }
  rewrite Hrun. split.
  - rewrite <- Hiff. case_decide as Hu; split.
    + intros _. exact Hu.
    + intros _. reflexivity.
    + discriminate.
    + intros Hz. contradiction.
  - intros ->. rewrite decide_True by reflexivity. reflexivity.
Qed.

Lemma no_known_usage_witness :
  exists w2,
    @generateCertificateTemplate Sample.runtime "testCSR" 0 [] true 0 =
      (Err ErrNoKeyUsage, w2).
Proof.
  eexists.
  refine (proj2 (@no_known_usage Sample.runtime "testCSR" 0 [] true 0
                   _ _ _ _ _ _ _ _) eq_refl);
    vm_compute; reflexivity.
Defined.

(** ** The subject, field by field *)

Lemma nonempty_spec (s : string) : nonempty s = true <-> s <> "".
Proof.
  unfold nonempty. destruct s; simpl.
  - split; [discriminate | congruence].
  - split; [discriminate | reflexivity].
Qed.

Lemma province_fold_no_locality (names : list CertificateName) :
  Forall (fun n => n_L n = "") names ->
  forall s : pkix.Name,
    pkix.Province (foldl subject_step s names) =
      pkix.Province s ++
      filter (fun c => nonempty c = true) (n_ST <$> names).
Proof.
  induction 1 as [| n names Hn _ IH]; intros s.
  - simpl. rewrite app_nil_r. reflexivity.
  - cbn [foldl fmap list_fmap]. rewrite IH, filter_cons.
    assert (Hp : pkix.Province (subject_step s n) =
                 if nonempty (n_ST n) then pkix.Province s ++ [n_ST n]
                 else pkix.Province s).
    { unfold subject_step; cbn [pkix.Province]. rewrite Hn. reflexivity. }
    rewrite Hp.
    destruct (nonempty (n_ST n)) eqn:E.
    + rewrite decide_True by reflexivity.
      rewrite <- app_assoc. reflexivity.
    + rewrite decide_False by discriminate. reflexivity.
Qed.

(** X16. What [subject] leaves in [Province]. When no name has a locality
    it is, in order, the non-empty provinces of the names. Otherwise it
    starts with the locality of the last name that has one, followed by
    the non-empty provinces of the names after that one; the provinces of
    that name and of the names before it are lost. *)
Theorem subject_province :
  (forall csr,
     Forall (fun n => n_L n = "") (csr_Names csr) ->
     pkix.Province (subject csr) =
       filter (fun c => nonempty c = true) (n_ST <$> csr_Names csr)) /\
  (forall csr pre n post,
     csr_Names csr = pre ++ n :: post ->
     n_L n <> "" ->
     Forall (fun m => n_L m = "") post ->
     pkix.Province (subject csr) =
       n_L n :: filter (fun c => nonempty c = true) (n_ST <$> post)).
Proof.
  split.
  - intros csr Hn. unfold subject; cbn [pkix.Province with_SerialNumber].
    rewrite province_fold_no_locality by exact Hn. reflexivity.
  - intros csr pre n post Hnames Hl Hpost.
    unfold subject; cbn [pkix.Province with_SerialNumber].
    rewrite Hnames, foldl_app. cbn [foldl].
    rewrite province_fold_no_locality by exact Hpost.
    apply nonempty_spec in Hl.
    destruct (subject_fold pre
                (with_CommonName pkix.zero (csr_CommonName csr)))
      as (Hloc & _).
    cbn zeta in Hloc.
    set (s := foldl subject_step
                (with_CommonName pkix.zero (csr_CommonName csr)) pre) in *.
    assert (Hp : pkix.Province (subject_step s n) =
                 pkix.Locality s ++ [n_L n]).
    { unfold subject_step; cbn [pkix.Province]. rewrite Hl. reflexivity. }
    rewrite Hp, Hloc. reflexivity.
Qed.

Lemma subject_province_witness :
  pkix.Province
    (subject
       {| csr_Algorithm := "ecdsa"; csr_Size := 0; csr_CommonName := "";
          csr_Names :=
            [ {| n_C := "CA"; n_ST := "QC"; n_L := "Montreal"; n_O := "";
                 n_OU := ""; n_SerialNumber := "" |};
              {| n_C := "CA"; n_ST := "ON"; n_L := ""; n_O := "";
                 n_OU := ""; n_SerialNumber := "" |} ];
          csr_Hosts := []; csr_SerialNumber := "" |}) =
    ["Montreal"; "ON"].
Proof.
  apply (proj2 subject_province
           {| csr_Algorithm := "ecdsa"; csr_Size := 0; csr_CommonName := "";
              csr_Names :=
                [ {| n_C := "CA"; n_ST := "QC"; n_L := "Montreal";
                     n_O := ""; n_OU := ""; n_SerialNumber := "" |};
                  {| n_C := "CA"; n_ST := "ON"; n_L := ""; n_O := "";
                     n_OU := ""; n_SerialNumber := "" |} ];
              csr_Hosts := []; csr_SerialNumber := "" |}
           []
           {| n_C := "CA"; n_ST := "QC"; n_L := "Montreal"; n_O := "";
              n_OU := ""; n_SerialNumber := "" |}
           [ {| n_C := "CA"; n_ST := "ON"; n_L := ""; n_O := "";
                n_OU := ""; n_SerialNumber := "" |} ]).
  - reflexivity.
  - discriminate.
  - repeat constructor.
Defined.

(** X17. The fields [subject] does aggregate: Country, Organization and
    OrganizationalUnit are, in the order of the names, their non-empty
    C, O and OU; the common name and the serial number are those of the
    request; the serial numbers of the names are not used. *)
Theorem subject_aggregated_fields (csr : CertificateRequest) :
  pkix.Country (subject csr) =
    filter (fun c => c <> "") (n_C <$> csr_Names csr) /\
  pkix.Organization (subject csr) =
    filter (fun c => c <> "") (n_O <$> csr_Names csr) /\
  pkix.OrganizationalUnit (subject csr) =
    filter (fun c => c <> "") (n_OU <$> csr_Names csr) /\
  pkix.CommonName (subject csr) = csr_CommonName csr /\
  pkix.SerialNumber (subject csr) = csr_SerialNumber csr.
Proof.
  assert (Hf : forall l : list string,
            filter (fun c => nonempty c = true) l =
            filter (fun c => c <> "") l).
  { intros l. apply list_filter_iff. intros c. apply nonempty_spec. }
  unfold subject; simpl.
  destruct (subject_fold (csr_Names csr)
              (with_CommonName pkix.zero (csr_CommonName csr)))
    as (_ & Hc & Ho & Hou & Hcn & _).
  rewrite Hc, Ho, Hou, Hcn, <- !Hf. simpl. tauto.
Qed.

(** X18. A name counts as empty exactly when its five fields C, ST, L, O
    and OU are empty strings; its serial number plays no part, so the
    parser drops a name that has nothing but a serial number. *)
Theorem Empty_ignores_serial `{GoRuntime} :
  (forall n,
     Empty n = true <->
     n_C n = "" /\ n_ST n = "" /\ n_L n = "" /\ n_O n = "" /\ n_OU n = "") /\
  (forall names n,
     strings_TrimSpace (n_C n) = "" -> strings_TrimSpace (n_ST n) = "" ->
     strings_TrimSpace (n_L n) = "" -> strings_TrimSpace (n_O n) = "" ->
     strings_TrimSpace (n_OU n) = "" ->
     names_step names n = names).
Proof.
  assert (He : forall n,
     Empty n = true <->
     n_C n = "" /\ n_ST n = "" /\ n_L n = "" /\ n_O n = "" /\ n_OU n = "").
  { intros [c st l o ou sn]. unfold Empty; simpl.
    rewrite Nat.eqb_eq. split.
    - intros Hs.
      destruct c, st, l, o, ou; simpl in Hs; try lia. tauto.
    - intros (-> & -> & -> & -> & ->). reflexivity. }
  split; [exact He |].
  intros names n Hc Hst Hl Ho Hou. unfold names_step.
  assert (Ht : Empty (trim n) = true) by (apply He; simpl; tauto).
  rewrite Ht. reflexivity.
Qed.

Lemma Empty_ignores_serial_witness :
  @names_step Sample.runtime []
    {| n_C := " "; n_ST := ""; n_L := ""; n_O := ""; n_OU := "";
       n_SerialNumber := "12345" |} = [].
Proof.
  apply (proj2 (@Empty_ignores_serial Sample.runtime)); reflexivity.
Defined.

(** ** Certificate signing requests *)

(** X19. [generate] with the key that [generateKey] made for a parsed
    request does not panic: it hands [x509.CreateCertificateRequest] the
    subject and the alternative names of the request, the signature
    algorithm decided by the request's algorithm and size, both lists of
    extensions as given, and the private key, and wraps the result in the
    PEM block "CERTIFICATE REQUEST". With a loaded RSA key of at most
    16376 bits it panics before calling the library. *)
Theorem generate_signing_request `{CSRRuntime} :
  (forall input csr a w key w1 exts extra,
     ParseCertificateRequest input = Ok csr ->
     ParseKeyAlgorithm (csr_Algorithm csr) = Ok a ->
     generateKey csr w = (Ok key, w1) ->
     generate csr key exts extra w1 =
       match x509_CreateCertificateRequest
               {| x509csr.Subject := subject csr;
                  x509csr.SignatureAlgorithm_ :=
                    signatureFor a (resolvedSize a (csr_Size csr));
                  x509csr.IPAddresses := h_IPAddresses (parseHosts csr);
                  x509csr.EmailAddresses :=
                    h_EmailAddresses (parseHosts csr);
                  x509csr.URIs := h_URIs (parseHosts csr);
                  x509csr.DNSNames := h_DNSNames (parseHosts csr);
                  x509csr.Extensions := exts;
                  x509csr.ExtraExtensions := extra |}
               (PrivateKey key) w1 with
       | (inr out, w2) =>
           (Ok (pem_EncodeToMemory
                  {| pem.Type_ := "CERTIFICATE REQUEST";
                     pem.Bytes := out |}), w2)
       | (inl msg, w2) => (Err (ErrLibrary msg), w2)
       end) /\
  (forall csr keyPEM key priv exts extra w,
     parsePrivateKey keyPEM = Ok key ->
     PrivateKey key = crypto.RSAPrivate priv ->
     rsa.BitLen (rsa.N (rsa.Public priv)) <= 16376 ->
     generate csr key exts extra w =
       (Panic (PanicLog "unexpected key size"), w)).
Proof.
  split.
  - intros input csr a w key w1 exts extra _ Ha Hk.
    unfold generateKey, bindM, lift in Hk. rewrite Ha in Hk.
    apply GenerateKey_signatureFor in Hk as (_ & Hs & _).
    unfold generate, bindM, lift, call, ret. rewrite Hs.
    match goal with
    | |- context [x509_CreateCertificateRequest ?t ?k ?w0] =>
        destruct (x509_CreateCertificateRequest t k w0) as [[? | ?] ?]
    end; reflexivity.
  - intros csr keyPEM key priv exts extra w Hk Hp Hb.
    unfold generate, bindM, lift.
    rewrite (proj2 (parsePrivateKey_signatures keyPEM key Hk) priv Hp Hb).
    reflexivity.
Qed.

Lemma generate_signing_request_witness :
  exists key w1,
    @generateKey Sample.runtime Sample.testCSR 0 = (Ok key, w1) /\
    exists w2,
      @generate Sample.runtime SampleCSR.runtime Sample.testCSR key [] [] w1
        = (Ok (Sample.EncodeToMemory
                 {| pem.Type_ := "CERTIFICATE REQUEST";
                    pem.Bytes := "csr.der" |}), w2).
Proof.
  eexists _, _. split; [reflexivity |].
  eexists.
  rewrite (proj1 (@generate_signing_request Sample.runtime SampleCSR.runtime)
             "testCSR" Sample.testCSR ECDSAKey 0 _ _ [] []
             eq_refl eq_refl eq_refl).
  reflexivity.
Defined.

(** * Package [linux] and package [keyvalue] *)

(** ** Distribution names *)

(** X20. [ParseDistributionID] undoes [Distribution.String] on every
    distribution but the unset one, which prints as "linux" and so reads
    back as the generic distribution; parsing never yields the unset
    distribution, and printing a parsed id gives the id back or "linux". *)
Theorem Distribution_roundtrip :
  (forall d,
     d <> linux.noDistributionSet ->
     linux.ParseDistributionID (linux.Distribution_String d) = d) /\
  linux.ParseDistributionID
    (linux.Distribution_String linux.noDistributionSet)
    = linux.GenericLinux /\
  (forall id, linux.ParseDistributionID id <> linux.noDistributionSet) /\
  (forall id,
     linux.Distribution_String (linux.ParseDistributionID id) = id \/
     linux.ParseDistributionID id = linux.GenericLinux).
Proof.
  split; [| split; [| split]].
  - intros [] Hd; try reflexivity. contradiction.
  - reflexivity.
  - intros id. unfold linux.ParseDistributionID.
    repeat (destruct (String.eqb id _); [discriminate |]). discriminate.
  - intros id. unfold linux.ParseDistributionID.
    repeat match goal with
           | |- context [String.eqb id ?s] =>
               destruct (String.eqb_spec id s) as [-> | _];
               [left; reflexivity |]
           end.
    right. reflexivity.
Qed.

Lemma Distribution_roundtrip_witness :
  linux.ParseDistributionID (linux.Distribution_String linux.UbuntuLinux)
  = linux.UbuntuLinux.
Proof.
  apply (proj1 Distribution_roundtrip). discriminate.
Defined.

(** ** Texts *)

Lemma string_append_cons (x : ascii) (a b : string) :
  String.append (String x a) b = String x (String.append a b).
Proof. reflexivity. Qed.

Lemma string_append_nil_l (b : string) : String.append "" b = b.
Proof. reflexivity. Qed.

Lemma length_append (a b : string) :
  String.length (String.append a b) = (String.length a + String.length b)%nat.
Proof. induction a as [| c a IH]; simpl; [reflexivity | rewrite IH; lia]. Qed.

Lemma substring_append_skip (a b : string) (n : nat) :
  String.substring (String.length a) n (String.append a b) =
  String.substring 0 n b.
Proof. induction a as [| c a IH]; simpl; [reflexivity | exact IH]. Qed.

Lemma substring_append_take (a b : string) :
  String.substring 0 (String.length a) (String.append a b) = a.
Proof.
  induction a as [| c a IH]; simpl.
  - destruct b; reflexivity.
  - rewrite IH. reflexivity.
Qed.

Lemma substring_all (a : string) :
  String.substring 0 (String.length a) a = a.
Proof. induction a as [| c a IH]; simpl; [reflexivity | rewrite IH; reflexivity]. Qed.

Lemma HasPrefix_char (c d : ascii) (s : string) :
  gostrings.HasPrefix (String c s) (String d "") = bool_decide (d = c).
Proof.
  unfold gostrings.HasPrefix. simpl.
  destruct (ascii_dec d c) as [-> | Hn].
  - rewrite bool_decide_eq_true_2 by reflexivity. destruct s; reflexivity.
  - rewrite bool_decide_eq_false_2 by assumption. reflexivity.
Qed.

(** Removing the quotes [q] around a non-empty text. *)
Lemma RemoveOuterQuotes_quoted (k v : string) (q : ascii) :
  q = "034"%char \/ q = "039"%char ->
  v <> "" ->
  keyvalue.RemoveOuterQuotes
    {| keyvalue.Key := k;
       keyvalue.Value := String q (String.append v (String q "")) |} =
    inr {| keyvalue.Key := k; keyvalue.Value := v |}.
Proof.
  intros Hq Hv.
  assert (Hlen : String.length (String q (String.append v (String q "")))
                 = S (S (String.length v))).
  { simpl. rewrite length_append. simpl. lia. }
  assert (Hpos : (0 < String.length v)%nat).
  { destruct v; [contradiction | simpl; lia]. }
  assert (Hsuf : gostrings.HasSuffix
                   (String q (String.append v (String q ""))) (String q "")
                 = true).
  { unfold gostrings.HasSuffix. rewrite Hlen.
    cbn [String.length]. replace (S (S (String.length v)) - 1)%nat
      with (S (String.length v)) by lia.
    cbn [String.substring]. rewrite substring_append_skip.
    simpl. rewrite Ascii.eqb_refl. reflexivity. }
  assert (Hsl : gostrings.slice
                  (String q (String.append v (String q ""))) 1
                  (String.length
                     (String q (String.append v (String q ""))) - 1) = v).
  { unfold gostrings.slice. rewrite Hlen.
    replace (S (S (String.length v)) - 1 - 1)%nat with (String.length v)
      by lia.
    cbn [String.substring]. apply substring_append_take. }
  unfold keyvalue.RemoveOuterQuotes, keyvalue.doubleQuote,
    keyvalue.singleQuote.
  cbn [keyvalue.Value keyvalue.Key].
  rewrite Hsl, Hlen.
  assert (Hlt : (2 <? S (S (String.length v)))%nat = true)
    by (apply Nat.ltb_lt; lia).
  rewrite Hlt.
  rewrite !HasPrefix_char.
  destruct Hq as [-> | ->]; rewrite Hsuf; reflexivity.
Qed.

Lemma RemoveOuterQuotes_shape (kv : keyvalue.Pair) :
  exists kv',
    keyvalue.RemoveOuterQuotes kv = inr kv' /\
    keyvalue.Key kv' = keyvalue.Key kv /\
    (keyvalue.Value kv' = keyvalue.Value kv \/
     (2 < String.length (keyvalue.Value kv))%nat /\
     keyvalue.Value kv' =
       String.substring 1 (String.length (keyvalue.Value kv) - 2)
         (keyvalue.Value kv)).
Proof.
  unfold keyvalue.RemoveOuterQuotes, gostrings.slice.
  destruct (2 <? String.length (keyvalue.Value kv))%nat eqn:El.
  - apply Nat.ltb_lt in El.
    replace (String.length (keyvalue.Value kv) - 1 - 1)%nat
      with (String.length (keyvalue.Value kv) - 2)%nat by lia.
    cbn [andb].
    destruct (gostrings.HasPrefix (keyvalue.Value kv) keyvalue.doubleQuote
              && gostrings.HasSuffix (keyvalue.Value kv)
                   keyvalue.doubleQuote);
      [eexists; split; [reflexivity |]; simpl; auto |].
    destruct (gostrings.HasPrefix (keyvalue.Value kv) keyvalue.singleQuote
              && gostrings.HasSuffix (keyvalue.Value kv)
                   keyvalue.singleQuote);
      eexists; (split; [reflexivity |]); simpl; auto.
  - cbn [andb]. eexists. split; [reflexivity |]. auto.
Qed.

Lemma substring_length (s : string) (n m : nat) :
  (n + m <= String.length s)%nat ->
  String.length (String.substring n m s) = m.
Proof.
  revert n m. induction s as [| c s IH]; intros n m Hl; simpl in *.
  - destruct n, m; simpl; lia.
  - destruct n as [| n].
    + destruct m as [| m]; simpl; [reflexivity |].
      rewrite IH by lia. reflexivity.
    + apply IH. lia.
Qed.

Lemma substring_zero (s : string) (n : nat) : String.substring n 0 s = "".
Proof.
  revert n. induction s as [| c s IH]; intros [| n]; simpl;
    [reflexivity | reflexivity | reflexivity | apply IH].
Qed.

(** A text that ends with the character [q] is a text followed by [q]. *)
Lemma HasSuffix_char (s : string) (q : ascii) :
  gostrings.HasSuffix s (String q "") = true ->
  exists s0, s = String.append s0 (String q "").
Proof.
  unfold gostrings.HasSuffix. cbn [String.length].
  induction s as [| c s IH]; [discriminate |].
  cbn [String.length]. intros Hs.
  apply andb_true_iff in Hs as [_ Hs].
  replace (S (String.length s) - 1)%nat with (String.length s) in Hs by lia.
  destruct s as [| d s].
  - cbn in Hs. destruct (Ascii.eqb_spec c q) as [-> | _]; [| discriminate].
    exists ""%string. reflexivity.
  - cbn [String.length String.substring] in Hs.
    destruct IH as [s0 Hs0].
    { apply andb_true_iff. split; [reflexivity |].
      cbn [String.length].
      replace (S (String.length s) - 1)%nat with (String.length s) by lia.
      exact Hs. }
    exists (String c s0). rewrite Hs0. reflexivity.
Qed.

Lemma HasPrefix_char_inv (s : string) (q : ascii) :
  gostrings.HasPrefix s (String q "") = true ->
  exists s1, s = String q s1.
Proof.
  destruct s as [| c s]; [discriminate |].
  rewrite HasPrefix_char. intros Hq. apply bool_decide_eq_true_1 in Hq.
  subst c. exists s. reflexivity.
Qed.

(** The test of [RemoveOuterQuotes] for the quote [q] holds only of a
    non-empty text between two [q]. *)
Lemma quoted_inv (v : string) (q : ascii) :
  (2 <? String.length v)%nat && gostrings.HasPrefix v (String q "")
  && gostrings.HasSuffix v (String q "") = true ->
  exists inner,
    inner <> "" /\ v = String q (String.append inner (String q "")).
Proof.
  intros Ht. apply andb_true_iff in Ht as [Ht Hsuf].
  apply andb_true_iff in Ht as [Hlen Hpre].
  apply Nat.ltb_lt in Hlen.
  apply HasPrefix_char_inv in Hpre as [s1 ->].
  apply HasSuffix_char in Hsuf as [s0 Hs0].
  destruct s0 as [| c s0].
  - rewrite string_append_nil_l in Hs0. injection Hs0 as ->.
    simpl in Hlen. lia.
  - rewrite string_append_cons in Hs0. injection Hs0 as <- ->.
    exists s0. split; [| reflexivity].
    intros ->. simpl in Hlen. lia.
Qed.

(** X21. [RemoveOuterQuotes] never fails and never touches the key. It
    takes one pair of double or of single quotes off a value that has a
    non-empty text between them, and nothing else: every value that is not
    a non-empty text between two double quotes or between two single
    quotes is left as it is (a value with a quote at one end only, with
    two different quotes, or made of two quotes alone), and a non-empty
    value stays non-empty. *)
Theorem RemoveOuterQuotes_spec :
  (forall k v q,
     q = "034"%char \/ q = "039"%char ->
     v <> "" ->
     keyvalue.RemoveOuterQuotes
       {| keyvalue.Key := k;
          keyvalue.Value := String q (String.append v (String q "")) |} =
       inr {| keyvalue.Key := k; keyvalue.Value := v |}) /\
  (forall kv,
     (forall q v,
        q = "034"%char \/ q = "039"%char ->
        v <> "" ->
        keyvalue.Value kv <> String q (String.append v (String q ""))) ->
     keyvalue.RemoveOuterQuotes kv = inr kv) /\
  (forall k q,
     keyvalue.RemoveOuterQuotes
       {| keyvalue.Key := k; keyvalue.Value := String q (String q "") |} =
       inr {| keyvalue.Key := k; keyvalue.Value := String q (String q "") |}) /\
  (forall kv,
     exists kv',
       keyvalue.RemoveOuterQuotes kv = inr kv' /\
       keyvalue.Key kv' = keyvalue.Key kv /\
       (keyvalue.Value kv <> "" -> keyvalue.Value kv' <> "") /\
       (String.length (keyvalue.Value kv') = String.length (keyvalue.Value kv)
        \/ (String.length (keyvalue.Value kv') + 2)%nat
           = String.length (keyvalue.Value kv))).
Proof.
  split; [exact RemoveOuterQuotes_quoted |]. split; [| split].
  - intros kv Hnot. unfold keyvalue.RemoveOuterQuotes.
    destruct ((2 <? String.length (keyvalue.Value kv))%nat
              && gostrings.HasPrefix (keyvalue.Value kv) keyvalue.doubleQuote
              && gostrings.HasSuffix (keyvalue.Value kv) keyvalue.doubleQuote)
      eqn:Ed.
    { apply quoted_inv in Ed as (inner & Hi & Hv).
      exfalso. apply (Hnot "034"%char inner); auto. }
    destruct ((2 <? String.length (keyvalue.Value kv))%nat
              && gostrings.HasPrefix (keyvalue.Value kv) keyvalue.singleQuote
              && gostrings.HasSuffix (keyvalue.Value kv) keyvalue.singleQuote)
      eqn:Es.
    { apply quoted_inv in Es as (inner & Hi & Hv).
      exfalso. apply (Hnot "039"%char inner); auto. }
    reflexivity.
  - intros k q. reflexivity.
  - intros kv.
    destruct (RemoveOuterQuotes_shape kv) as (kv' & Hr & Hk & Hv).
    exists kv'. split; [exact Hr |]. split; [exact Hk |].
    destruct Hv as [-> | [Hl ->]].
    + split; [auto | left; reflexivity].
    + assert (Hs : String.length
                     (String.substring 1
                        (String.length (keyvalue.Value kv) - 2)
                        (keyvalue.Value kv))
                   = (String.length (keyvalue.Value kv) - 2)%nat)
        by (apply substring_length; lia).
      split.
      * intros _ He. rewrite He in Hs. simpl in Hs. lia.
      * right. rewrite Hs. lia.
Qed.

Lemma RemoveOuterQuotes_spec_witness :
  keyvalue.RemoveOuterQuotes
    {| keyvalue.Key := "HOME_URL";
       keyvalue.Value :=
         String "034"%char
           (String.append "https://example.com/" keyvalue.doubleQuote) |} =
    inr {| keyvalue.Key := "HOME_URL";
           keyvalue.Value := "https://example.com/" |} /\
  keyvalue.RemoveOuterQuotes
    {| keyvalue.Key := "NAME";
       keyvalue.Value := String "034"%char "Debian'" |} =
    inr {| keyvalue.Key := "NAME";
           keyvalue.Value := String "034"%char "Debian'" |}.
Proof.
  split.
  - apply (proj1 RemoveOuterQuotes_spec "HOME_URL" "https://example.com/"
             "034"%char).
    + left. reflexivity.
    + discriminate.
  - apply (proj1 (proj2 RemoveOuterQuotes_spec)).
    intros q v [-> | ->] _ Hv; cbn [keyvalue.Value] in Hv.
    + injection Hv as Hv.
      assert (Hlast : gostrings.HasSuffix "Debian'" (String "034"%char "")
                      = true).
      { rewrite Hv. clear. unfold gostrings.HasSuffix.
        rewrite length_append. cbn [String.length].
        replace (String.length v + 1 - 1)%nat with (String.length v) by lia.
        rewrite substring_append_skip.
        apply andb_true_iff. split; [apply Nat.leb_le; lia | reflexivity]. }
      vm_compute in Hlast. discriminate.
    + discriminate.
Defined.

(** ** Pairs as a map *)

Lemma ToMap_from_inr (s : list keyvalue.Pair) :
  forall out m,
    keyvalue.ToMap_from out s = inr m ->
    NoDup (keyvalue.Key <$> s) /\
    Forall (fun kv => out !! keyvalue.Key kv = None) s /\
    m = list_to_map (entry <$> s) ∪ out.
Proof.
  induction s as [| kv s IH]; intros out m Hm; simpl in Hm.
  - injection Hm as <-. split; [constructor |]. split; [constructor |].
    cbn. rewrite (left_id_L ∅ (∪)). reflexivity.
  - destruct (out !! keyvalue.Key kv) eqn:Ek; [discriminate |].
    apply IH in Hm as (Hnd & Hfresh & ->).
    assert (Hk : keyvalue.Key kv ∉ keyvalue.Key <$> s).
    { intros Hin. apply list_elem_of_fmap in Hin as (kv' & Heq & Hin).
      rewrite Forall_forall in Hfresh. specialize (Hfresh kv' Hin).
      rewrite <- Heq, lookup_insert_eq in Hfresh. discriminate. }
    split; [cbn [fmap list_fmap]; constructor; assumption |].
    split.
    + constructor; [exact Ek |].
      eapply Forall_impl; [exact Hfresh |].
      intros kv' Hl. cbn beta in Hl.
      destruct (decide (keyvalue.Key kv = keyvalue.Key kv')) as [He | Hne].
      * rewrite He, lookup_insert_eq in Hl. discriminate.
      * rewrite lookup_insert_ne in Hl by exact Hne. exact Hl.
    + cbn [fmap list_fmap list_to_map foldr]. unfold entry at 2.
      cbn [uncurry fst snd].
      rewrite <- insert_union_l. rewrite <- insert_union_r; [reflexivity |].
      apply not_elem_of_list_to_map_1.
      rewrite <- list_fmap_compose. exact Hk.
Qed.

Lemma ToMap_from_fresh (s : list keyvalue.Pair) :
  forall out,
    NoDup (keyvalue.Key <$> s) ->
    Forall (fun kv => out !! keyvalue.Key kv = None) s ->
    exists m, keyvalue.ToMap_from out s = inr m.
Proof.
  induction s as [| kv s IH]; intros out Hnd Hfresh; simpl.
  - eauto.
  - cbn [fmap list_fmap] in Hnd. apply NoDup_cons in Hnd as [Hk Hnd].
    apply Forall_cons in Hfresh as [Ek Hfresh]. rewrite Ek.
    apply IH; [exact Hnd |].
    rewrite Forall_forall in *. intros kv' Hin.
    rewrite lookup_insert_ne; [apply Hfresh; exact Hin |].
    intros He. apply Hk. rewrite He.
    apply list_elem_of_fmap. eauto.
Qed.

Lemma ToMap_from_inl (s : list keyvalue.Pair) :
  forall out e,
    keyvalue.ToMap_from out s = inl e ->
    exists pre kv post,
      s = pre ++ kv :: post /\
      e = keyvalue.ErrDuplicateKeys (keyvalue.Key kv) /\
      NoDup (keyvalue.Key <$> pre) /\
      Forall (fun p => out !! keyvalue.Key p = None) pre /\
      (is_Some (out !! keyvalue.Key kv) \/
       keyvalue.Key kv ∈ keyvalue.Key <$> pre).
Proof.
  induction s as [| kv s IH]; intros out e He; simpl in He.
  - discriminate.
  - destruct (out !! keyvalue.Key kv) as [v |] eqn:Ek.
    + injection He as <-. exists [], kv, s.
      split; [reflexivity |]. split; [reflexivity |].
      split; [constructor |]. split; [constructor |]. left. eauto.
    + apply IH in He as (pre & kv' & post & -> & -> & Hnd & Hfresh & Hdup).
      assert (Hk : keyvalue.Key kv ∉ keyvalue.Key <$> pre).
      { intros Hin. apply list_elem_of_fmap in Hin as (p & Heq & Hin).
        rewrite Forall_forall in Hfresh. specialize (Hfresh p Hin).
        rewrite <- Heq, lookup_insert_eq in Hfresh. discriminate. }
      exists (kv :: pre), kv', post.
      split; [reflexivity |]. split; [reflexivity |].
      split; [cbn [fmap list_fmap]; constructor; assumption |].
      split.
      * constructor; [exact Ek |].
        eapply Forall_impl; [exact Hfresh |].
        intros p Hl. cbn beta in Hl.
        destruct (decide (keyvalue.Key kv = keyvalue.Key p)) as [E | E].
        -- rewrite E, lookup_insert_eq in Hl. discriminate.
        -- rewrite lookup_insert_ne in Hl by exact E. exact Hl.
      * destruct Hdup as [[v Hv] | Hdup].
        -- destruct (decide (keyvalue.Key kv = keyvalue.Key kv')) as [E | E].
           ++ right. rewrite <- E. cbn [fmap list_fmap]. left.
           ++ rewrite lookup_insert_ne in Hv by exact E.
              left. eauto.
        -- right. cbn [fmap list_fmap]. right. exact Hdup.
Qed.

(** X22. [ToMap] succeeds exactly when no key occurs twice, and then the
    map has one entry for each pair: a key is bound to a value in the map
    if and only if that pair is in the slice. When it fails, the error
    names the key of the first pair whose key already occurred. *)
Theorem ToMap_spec :
  (forall s m,
     keyvalue.ToMap s = inr m <->
     NoDup (keyvalue.Key <$> s) /\ m = list_to_map (entry <$> s)) /\
  (forall s m k v,
     keyvalue.ToMap s = inr m ->
     (m !! k = Some v <->
      {| keyvalue.Key := k; keyvalue.Value := v |} ∈ s)) /\
  (forall s e,
     keyvalue.ToMap s = inl e ->
     exists pre kv post,
       s = pre ++ kv :: post /\
       e = keyvalue.ErrDuplicateKeys (keyvalue.Key kv) /\
       NoDup (keyvalue.Key <$> pre) /\
       keyvalue.Key kv ∈ keyvalue.Key <$> pre).
Proof.
  assert (Hok : forall s m,
     keyvalue.ToMap s = inr m ->
     NoDup (keyvalue.Key <$> s) /\ m = list_to_map (entry <$> s)).
  { intros s m Hm. apply ToMap_from_inr in Hm as (Hnd & _ & ->).
    split; [exact Hnd |]. apply (right_id_L ∅ (∪)). }
  split; [| split].
  - intros s m. split; [apply Hok |].
    intros [Hnd ->].
    destruct (ToMap_from_fresh s ∅ Hnd) as [m Hm].
    { apply Forall_forall. intros kv _. apply lookup_empty. }
    unfold keyvalue.ToMap. rewrite Hm.
    apply Hok in Hm as [_ ->]. reflexivity.
  - intros s m k v Hm. apply Hok in Hm as [Hnd ->].
    rewrite <- elem_of_list_to_map.
    + rewrite list_elem_of_fmap. split.
      * intros ([k' v'] & [= -> ->] & Hin). exact Hin.
      * intros Hin. eexists. split; [| exact Hin]. reflexivity.
    + rewrite <- list_fmap_compose. exact Hnd.
  - intros s e He.
    apply ToMap_from_inl in He as (pre & kv & post & Hs & He & Hnd & _ & Hd).
    exists pre, kv, post. repeat (split; [assumption |]).
    destruct Hd as [[v Hv] | Hd]; [| exact Hd].
    rewrite lookup_empty in Hv. discriminate.
Qed.

Lemma ToMap_spec_witness :
  keyvalue.ToMap
    [ {| keyvalue.Key := "ID"; keyvalue.Value := "ubuntu" |};
      {| keyvalue.Key := "NAME"; keyvalue.Value := "Ubuntu" |} ] =
    inr (list_to_map [("ID", "ubuntu"); ("NAME", "Ubuntu")]).
Proof.
  apply (proj1 ToMap_spec). split; [| reflexivity].
  apply (bool_decide_unpack _). vm_compute. reflexivity.
Defined.

(** ** Parsing one pair *)

Lemma hasNewline_spec (s : string) :
  keyvalue.hasNewline s = false <-> ("010"%char ∉ chars s).
Proof.
  unfold chars. induction s as [| c s IH]; simpl.
  - split; [intros _; apply not_elem_of_nil | reflexivity].
  - rewrite not_elem_of_cons, orb_false_iff, IH, Ascii.eqb_neq.
    split; intros [? ?]; split; auto.
Qed.

Lemma cutAtEquals_build (k v : string) :
  ("="%char ∉ chars k) ->
  keyvalue.cutAtEquals (String.append k (String "="%char v)) = Some (k, v).
Proof.
  unfold chars. induction k as [| c k IH]; simpl; intros Hk.
  - reflexivity.
  - rewrite not_elem_of_cons in Hk. destruct Hk as [Hc Hk].
    destruct (Ascii.eqb_spec c "="%char) as [-> | _]; [contradiction |].
    rewrite IH by exact Hk. reflexivity.
Qed.

Lemma cutAtEquals_inv (s : string) :
  forall k v,
    keyvalue.cutAtEquals s = Some (k, v) ->
    s = String.append k (String "="%char v) /\ ("="%char ∉ chars k).
Proof.
  unfold chars. induction s as [| c s IH]; intros k v; simpl.
  - discriminate.
  - destruct (Ascii.eqb_spec c "="%char) as [-> | Hc].
    + intros [= <- <-]. split; [reflexivity | apply not_elem_of_nil].
    + destruct (keyvalue.cutAtEquals s) as [[k' v'] |]; [| discriminate].
      intros [= <- <-].
      destruct (IH k' v' eq_refl) as [-> Hk]. simpl.
      split; [reflexivity |]. rewrite not_elem_of_cons. auto.
Qed.

Lemma cutAtEquals_Some (s k v : string) :
  keyvalue.cutAtEquals s = Some (k, v) <->
  s = String.append k (String "="%char v) /\ ("="%char ∉ chars k).
Proof.
  split; [apply cutAtEquals_inv |].
  intros [-> Hk]. apply cutAtEquals_build. exact Hk.
Qed.

Lemma cutAtEquals_None (s : string) :
  keyvalue.cutAtEquals s = None <-> ("="%char ∉ chars s).
Proof.
  unfold chars. induction s as [| c s IH]; simpl.
  - split; [intros _; apply not_elem_of_nil | reflexivity].
  - rewrite not_elem_of_cons.
    destruct (Ascii.eqb_spec c "="%char) as [-> | Hc].
    + split; [discriminate | intros [? _]; contradiction].
    + destruct (keyvalue.cutAtEquals s) as [[k v] |].
      * split; [discriminate |]. intros [_ Hs]. apply IH in Hs. discriminate.
      * split; [| reflexivity]. intros _. split; [auto | apply IH; reflexivity].
Qed.

Lemma cut_unique (k v k' v' : string) :
  String.append k (String "="%char v) = String.append k' (String "="%char v') ->
  ("="%char ∉ chars k) -> ("="%char ∉ chars k') ->
  k = k' /\ v = v'.
Proof.
  intros Hs Hk Hk'.
  pose proof (cutAtEquals_build k v Hk) as H1.
  pose proof (cutAtEquals_build k' v' Hk') as H2.
  rewrite Hs, H2 in H1. injection H1 as -> ->. auto.
Qed.

(** What the regular expression accepts. *)
Lemma keyValueRegex_Some (s k v : string) :
  keyvalue.keyValueRegex s = Some (k, v) <->
  s = String.append k (String "="%char v) /\
  k <> "" /\ ("="%char ∉ chars k) /\ ("010"%char ∉ chars v).
Proof.
  unfold keyvalue.keyValueRegex.
  destruct (keyvalue.cutAtEquals s) as [[k' v'] |] eqn:Ec.
  - apply cutAtEquals_inv in Ec as [Hs' Hk'].
    assert (Huniq : s = String.append k (String "="%char v) ->
                    ("="%char ∉ chars k) -> k = k' /\ v = v').
    { intros Hs Hk. rewrite Hs in Hs'. apply cut_unique; assumption. }
    destruct (String.eqb_spec k' "") as [Hk0 | Hne]; simpl.
    + split; [discriminate |].
      intros (Hs & Hk & Hke & _).
      destruct (Huniq Hs Hke) as [-> _]. contradiction.
    + destruct (keyvalue.hasNewline v') eqn:En; simpl.
      * split; [discriminate |].
        intros (Hs & Hk & Hke & Hv).
        destruct (Huniq Hs Hke) as [_ ->].
        apply hasNewline_spec in Hv. congruence.
      * apply hasNewline_spec in En. split.
        -- intros [= <- <-]. auto.
        -- intros (Hs & Hk & Hke & Hv).
           destruct (Huniq Hs Hke) as [-> ->]. reflexivity.
  - split; [discriminate |].
    intros (Hs & Hk & Hke & _).
    rewrite Hs, cutAtEquals_build in Ec by exact Hke. discriminate.
Qed.

(** X23. [ParsePair] on a text [value], with [t] the trimmed text. An
    empty [t] is the error "value cannot be empty". When [t] is a
    non-empty key without '=', an '=', and a rest without a newline, the
    pair is the trimmed key and the trimmed rest (so "a=b=c" has the
    value "b=c" and "key=" the empty value), handed to the transforms in
    order. Every other text, in particular one without '=' or one that
    starts with '=', is the error "invalid syntax". *)
Theorem ParsePair_spec `{TextRuntime}
    (value : string) (transform : list keyvalue.TransformPair) :
  let t := text_TrimSpace value in
  (t = "" -> keyvalue.ParsePair value transform = inl keyvalue.ErrEmptyValue) /\
  (forall k v,
     t = String.append k (String "="%char v) ->
     k <> "" -> ("="%char ∉ chars k) -> ("010"%char ∉ chars v) ->
     keyvalue.ParsePair value transform =
       keyvalue.applyTransforms transform
         {| keyvalue.Key := text_TrimSpace k;
            keyvalue.Value := text_TrimSpace v |}) /\
  (t <> "" ->
   (forall k v,
      t = String.append k (String "="%char v) ->
      ("="%char ∉ chars k) -> k = "" \/ ("010"%char ∈ chars v)) ->
   keyvalue.ParsePair value transform = inl keyvalue.ErrInvalidSyntax) /\
  (t <> "" -> ("="%char ∉ chars t) ->
   keyvalue.ParsePair value transform = inl keyvalue.ErrInvalidSyntax) /\
  (forall v, t = String "="%char v ->
   keyvalue.ParsePair value transform = inl keyvalue.ErrInvalidSyntax).
Proof.
  intros t. unfold keyvalue.ParsePair. fold t.
  assert (Hbad : t <> "" ->
    (forall k v,
       t = String.append k (String "="%char v) ->
       ("="%char ∉ chars k) -> k = "" \/ ("010"%char ∈ chars v)) ->
    (if String.eqb t ""
     then inl keyvalue.ErrEmptyValue
     else match keyvalue.keyValueRegex t with
          | Some (g1, g2) =>
              keyvalue.applyTransforms transform
                {| keyvalue.Key := text_TrimSpace g1;
                   keyvalue.Value := text_TrimSpace g2 |}
          | None => inl keyvalue.ErrInvalidSyntax
          end) = inl keyvalue.ErrInvalidSyntax).
  { intros Ht Hall.
    destruct (String.eqb_spec t "") as [? | _]; [contradiction |].
    destruct (keyvalue.keyValueRegex t) as [[g1 g2] |] eqn:Er;
      [| reflexivity].
    apply keyValueRegex_Some in Er as (Hs & Hk & Hke & Hv).
    destruct (Hall g1 g2 Hs Hke) as [? | ?]; contradiction. }
  split; [| split; [| split; [| split]]].
  - intros ->. reflexivity.
  - intros k v Hs Hk Hke Hv.
    destruct (String.eqb_spec t "") as [Ht | _].
    { rewrite Ht in Hs. destruct k; discriminate. }
    rewrite (proj2 (keyValueRegex_Some t k v)) by auto. reflexivity.
  - exact Hbad.
  - intros Ht Hne. apply Hbad; [exact Ht |].
    intros k v Hs _. exfalso. apply Hne. rewrite Hs. unfold chars.
    clear. induction k as [| c k IH]; simpl; [left | right; exact IH].
  - intros v Hs. apply Hbad; [rewrite Hs; discriminate |].
    intros k v' Hs' Hk. left.
    destruct k as [| c k]; [reflexivity |].
    rewrite Hs in Hs'. simpl in Hs'. injection Hs' as <- _.
    exfalso. apply Hk. simpl. left.
Qed.

Lemma ParsePair_spec_witness :
  @keyvalue.ParsePair SampleText.runtime "  key    =  value  " [] =
    inr {| keyvalue.Key := "key"; keyvalue.Value := "value" |}.
Proof.
  apply (proj1 (proj2 (@ParsePair_spec SampleText.runtime
                         "  key    =  value  " []))
           "key    " "  value").
  - reflexivity.
  - discriminate.
  - vm_compute. intros Hin.
    repeat (apply elem_of_cons in Hin as [Hin | Hin]; [discriminate |]).
    apply elem_of_nil in Hin. exact Hin.
  - vm_compute. intros Hin.
    repeat (apply elem_of_cons in Hin as [Hin | Hin]; [discriminate |]).
    apply elem_of_nil in Hin. exact Hin.
Defined.

(** ** Parsing a list of pairs *)

Section PairSlices.
Context `{TextRuntime}.

Lemma ParsePairSlice_lines_collect
    (transform : list keyvalue.TransformPair) (lines : list string) :
  forall out,
    keyvalue.ParsePairSlice_lines out lines transform =
      match collect (fun line => keyvalue.ParsePair line transform)
              (significant lines) with
      | inr pairs => inr (out ++ pairs)
      | inl err => inl err
      end.
Proof.
  unfold significant.
  induction lines as [| text lines IH]; intros out.
  - simpl. rewrite app_nil_r. reflexivity.
  - cbn [keyvalue.ParsePairSlice_lines fmap list_fmap].
    rewrite filter_cons. fold (isSkipped (text_TrimSpace text)).
    destruct (isSkipped (text_TrimSpace text)) eqn:Es.
    + rewrite decide_False by discriminate. apply IH.
    + rewrite decide_True by reflexivity. cbn [collect].
      destruct (keyvalue.ParsePair (text_TrimSpace text) transform)
        as [err | kv]; [reflexivity |].
      rewrite IH.
      destruct (collect _ _) as [err | pairs]; [reflexivity |].
      rewrite <- app_assoc. reflexivity.
Qed.

Lemma collect_length {A B E : Type} (f : A -> E + B) (l : list A) bs :
  collect f l = inr bs -> length bs = length l.
Proof.
  revert bs. induction l as [| a l IH]; intros bs; simpl.
  - intros [= <-]. reflexivity.
  - destruct (f a) as [e | b]; [discriminate |].
    destruct (collect f l) as [e | bs']; [discriminate |].
    intros [= <-]. simpl. rewrite (IH bs') by reflexivity. reflexivity.
Qed.

Lemma collect_error {A B E : Type} (f : A -> E + B) (l : list A) e :
  collect f l = inl e -> exists a, a ∈ l /\ f a = inl e.
Proof.
  induction l as [| a l IH]; simpl; [discriminate |].
  destruct (f a) as [e' | b] eqn:Ef.
  - intros [= <-]. exists a. split; [left | exact Ef].
  - destruct (collect f l) as [e' | bs]; [| discriminate].
    intros [= <-]. destruct (IH eq_refl) as (a' & Hin & Ha).
    exists a'. split; [right; exact Hin | exact Ha].
Qed.
End PairSlices.

(** X24. [ParsePairSlice] trims every scanned line, passes over the lines
    that are then empty or start with '#' or ';', and parses the others in
    order, stopping at the first error: it returns as many pairs as there
    are such lines, or the error of the first line that fails. With the
    transform [RemoveOuterQuotes], and lines on which trimming twice is
    trimming once, that error can only be "invalid syntax". *)
Theorem ParsePairSlice_spec `{TextRuntime}
    (input : string) (transform : list keyvalue.TransformPair) :
  keyvalue.ParsePairSlice input transform =
    collect (fun line => keyvalue.ParsePair line transform)
      (significant (bufio_ScanLines input)) /\
  (forall pairs,
     keyvalue.ParsePairSlice input transform = inr pairs ->
     length pairs = length (significant (bufio_ScanLines input))) /\
  (forall err,
     keyvalue.ParsePairSlice input transform = inl err ->
     exists line,
       line ∈ significant (bufio_ScanLines input) /\
       keyvalue.ParsePair line transform = inl err) /\
  (forall err,
     Forall (fun text => text_TrimSpace (text_TrimSpace text)
                         = text_TrimSpace text) (bufio_ScanLines input) ->
     keyvalue.ParsePairSlice input [keyvalue.RemoveOuterQuotes] = inl err ->
     err = keyvalue.ErrInvalidSyntax).
Proof.
  assert (Heq : forall ts,
    keyvalue.ParsePairSlice input ts =
      collect (fun line => keyvalue.ParsePair line ts)
        (significant (bufio_ScanLines input))).
  { intros ts. unfold keyvalue.ParsePairSlice.
    rewrite ParsePairSlice_lines_collect.
    destruct (collect _ _); reflexivity. }
  split; [apply Heq |]. split; [| split].
  - intros pairs Hp. rewrite Heq in Hp. apply collect_length in Hp.
    exact Hp.
  - intros err He. rewrite Heq in He. apply collect_error in He. exact He.
  - intros err Hidem He. rewrite Heq in He.
    apply collect_error in He as (line & Hin & Hl).
    unfold significant in Hin.
    apply list_elem_of_filter in Hin as [Hs Hin].
    apply list_elem_of_fmap in Hin as (text & -> & Hin).
    rewrite Forall_forall in Hidem. specialize (Hidem text Hin).
    revert Hl. unfold keyvalue.ParsePair. rewrite Hidem.
    destruct (String.eqb_spec (text_TrimSpace text) "") as [He | _].
    { rewrite He in Hs. discriminate. }
    destruct (keyvalue.keyValueRegex (text_TrimSpace text)) as [[g1 g2] |];
      [| congruence].
    cbn [keyvalue.applyTransforms].
    match goal with
    | |- context [keyvalue.RemoveOuterQuotes ?kv] =>
        destruct (RemoveOuterQuotes_shape kv) as (kv' & -> & _)
    end.
    discriminate.
Qed.

Lemma ParsePairSlice_spec_witness :
  (exists pairs,
     @keyvalue.ParsePairSlice SampleText.runtime SampleText.kvSliceIn
       [keyvalue.RemoveOuterQuotes] = inr pairs /\
     length pairs = 3%nat) /\
  @keyvalue.ParsePairSlice SampleText.runtime SampleText.badInput
    [keyvalue.RemoveOuterQuotes] = inl keyvalue.ErrInvalidSyntax.
Proof.
  split.
  - destruct (@keyvalue.ParsePairSlice SampleText.runtime
                SampleText.kvSliceIn [keyvalue.RemoveOuterQuotes])
      as [err | pairs] eqn:Hp; [vm_compute in Hp; discriminate |].
    exists pairs. split; [reflexivity |].
    rewrite (proj1 (proj2 (@ParsePairSlice_spec SampleText.runtime
               SampleText.kvSliceIn [keyvalue.RemoveOuterQuotes]))
               pairs Hp).
    vm_compute. reflexivity.
  - destruct (@keyvalue.ParsePairSlice SampleText.runtime
                SampleText.badInput [keyvalue.RemoveOuterQuotes])
      as [err | pairs] eqn:Hp.
    + f_equal.
      apply (proj2 (proj2 (proj2 (@ParsePairSlice_spec SampleText.runtime
               SampleText.badInput [keyvalue.RemoveOuterQuotes])))).
      * vm_compute. repeat constructor.
      * exact Hp.
    + vm_compute in Hp. discriminate.
Defined.

(** ** os-release files *)

Lemma OSRelease_step_insert (values : gmap string string) (k v : string) :
  linux.OSRelease_step (osReleaseOf values) (k, v) =
  osReleaseOf (<[k := v]> values).
Proof.
  unfold linux.OSRelease_step, osReleaseOf.
  cbn [linux.ID linux.Name linux.PrettyName linux.Version
       linux.VersionCodename linux.Extra].
  repeat match goal with
         | |- context [String.eqb k ?s] =>
             destruct (String.eqb_spec k s) as [-> | ?]
         end.
  1-5: rewrite lookup_insert_eq, !lookup_insert_ne by discriminate;
       rewrite map_filter_insert_not
         by (intros y Hy; apply Hy; cbn;
             apply (bool_decide_unpack _); vm_compute; reflexivity);
       reflexivity.
  rewrite !lookup_insert_ne by congruence.
  rewrite map_filter_insert_True; [reflexivity |].
  cbn. unfold knownKeys. intros Hin.
  repeat (apply elem_of_cons in Hin as [-> | Hin]; [contradiction |]).
  apply elem_of_nil in Hin. exact Hin.
Qed.

Lemma fillOSRelease_list (entries : list (string * string)) :
  NoDup (entries.*1) ->
  linux.fillOSRelease entries = osReleaseOf (list_to_map entries).
Proof.
  unfold linux.fillOSRelease.
  induction entries as [| [k v] entries IH] using rev_ind; intros Hnd.
  - cbn. unfold osReleaseOf, linux.OSRelease_zero.
    rewrite !lookup_empty. cbn. rewrite map_filter_empty. reflexivity.
  - rewrite fmap_app in Hnd. apply NoDup_app in Hnd as (Hnd & Hk & _).
    rewrite foldl_app. cbn [foldl]. rewrite IH by exact Hnd.
    rewrite OSRelease_step_insert, list_to_map_snoc; [reflexivity |].
    intros Hin. apply (Hk k Hin). cbn. left.
Qed.

(** X25. [ParseOSRelease] does not depend on the order in which Go visits
    the map of values: whatever the order, the fields ID, Name,
    PrettyName, Version and VersionCodename come from the keys ID, NAME,
    PRETTY_NAME, VERSION_ID and VERSION_CODENAME (the unset distribution
    and empty strings when a key is missing), and Extra holds every other
    key with its value and none of these five. An error of the pair
    parser or a duplicate key is returned as it is. *)
Theorem ParseOSRelease_fields `{TextRuntime} :
  (forall values entries,
     entries ≡ₚ map_to_list values ->
     linux.fillOSRelease entries = osReleaseOf values) /\
  (forall values k,
     linux.Extra (osReleaseOf values) !! k =
       if decide (k ∈ knownKeys) then None else values !! k) /\
  (forall input out,
     linux.ParseOSRelease input = inr out ->
     exists pairs values,
       keyvalue.ParsePairSlice input [keyvalue.RemoveOuterQuotes]
         = inr pairs /\
       keyvalue.ToMap pairs = inr values /\
       out = osReleaseOf values) /\
  (forall input err,
     linux.ParseOSRelease input = inl err ->
     keyvalue.ParsePairSlice input [keyvalue.RemoveOuterQuotes] = inl err \/
     exists pairs,
       keyvalue.ParsePairSlice input [keyvalue.RemoveOuterQuotes]
         = inr pairs /\
       keyvalue.ToMap pairs = inl err).
Proof.
  assert (Hfill : forall values entries,
     entries ≡ₚ map_to_list values ->
     linux.fillOSRelease entries = osReleaseOf values).
  { intros values entries Hp.
    assert (Hnd : NoDup (entries.*1)).
    { rewrite Hp. apply NoDup_fst_map_to_list. }
    rewrite fillOSRelease_list by exact Hnd.
    rewrite (list_to_map_proper entries (map_to_list values) Hnd Hp).
    rewrite list_to_map_to_list. reflexivity. }
  split; [exact Hfill |]. split; [| split].
  - intros values k. unfold osReleaseOf; cbn [linux.Extra].
    rewrite map_lookup_filter. case_decide as Hk.
    + destruct (values !! k); cbn; [| reflexivity].
      rewrite option_guard_False; [reflexivity |]. cbn. tauto.
    + destruct (values !! k); cbn; [| reflexivity].
      rewrite option_guard_True; [reflexivity |]. exact Hk.
  - intros input out. unfold linux.ParseOSRelease.
    destruct (keyvalue.ParsePairSlice input _) as [e | pairs] eqn:Hs;
      [discriminate |].
    destruct (keyvalue.ToMap pairs) as [e | values] eqn:Hm; [discriminate |].
    intros [= <-]. exists pairs, values.
    split; [reflexivity |]. split; [exact Hm |].
    apply Hfill. reflexivity.
  - intros input err. unfold linux.ParseOSRelease.
    destruct (keyvalue.ParsePairSlice input _) as [e | pairs] eqn:Hs.
    + intros [= <-]. left. reflexivity.
    + destruct (keyvalue.ToMap pairs) as [e | values] eqn:Hm;
        [| discriminate].
      intros [= <-]. right. exists pairs. split; [reflexivity | exact Hm].
Qed.

Lemma ParseOSRelease_fields_witness :
  exists out,
    @linux.ParseOSRelease SampleText.runtime SampleText.osReleaseTest
      = inr out /\
    linux.ID out = linux.UbuntuLinux /\
    linux.VersionCodename out = "focal" /\
    linux.Extra out !! "ID_LIKE" = Some "debian" /\
    linux.Extra out !! "ID" = None.
Proof.
  destruct (@linux.ParseOSRelease SampleText.runtime
              SampleText.osReleaseTest) as [err | out] eqn:Hp;
    [vm_compute in Hp; discriminate |].
  exists out. split; [reflexivity |].
  destruct (proj1 (proj2 (proj2 (@ParseOSRelease_fields SampleText.runtime)))
              _ _ Hp) as (pairs & values & Hs & Hm & ->).
  vm_compute in Hs. injection Hs as <-.
  vm_compute in Hm. injection Hm as <-.
  repeat split; vm_compute; reflexivity.
Defined.

(** * Package [compression] *)

Lemma lor_shiftl_add (a b n : Z) :
  0 <= n -> 0 <= a < 2 ^ n -> Z.lor a (Z.shiftl b n) = a + b * 2 ^ n.
Proof.
  intros Hn Ha.
  rewrite <- Z.add_lor_land, <- Z.shiftl_mul_pow2 by exact Hn.
  assert (Hz : Z.land a (Z.shiftl b n) = 0).
  { apply Z.bits_inj'. intros i Hi.
    rewrite Z.land_spec, Z.bits_0.
    destruct (Z.lt_ge_cases i n) as [Hlt | Hge].
    - rewrite Z.shiftl_spec_low by exact Hlt. apply andb_false_r.
    - destruct (Z.eq_dec a 0) as [-> | Hnz]; [rewrite Z.bits_0; reflexivity |].
      assert (Hl : Z.log2 a < n) by (apply Z.log2_lt_pow2; lia).
      rewrite (Z.bits_above_log2 a i); [reflexivity | lia | lia]. }
  rewrite Hz. lia.
Qed.

Lemma Uint32_sum (b0 b1 b2 b3 : Z) :
  isByte b0 -> isByte b1 -> isByte b2 -> isByte b3 ->
  compression.Uint32 [b0; b1; b2; b3] =
    b0 + 256 * b1 + 65536 * b2 + 16777216 * b3.
Proof.
  unfold isByte, compression.Uint32. intros H0 H1 H2 H3.
  rewrite (lor_shiftl_add b0 b1 8) by lia.
  rewrite (lor_shiftl_add _ b2 16) by lia.
  rewrite (lor_shiftl_add _ b3 24) by lia.
  lia.
Qed.

Lemma land_skip_mask (x : Z) :
  0 <= x < 2 ^ 32 ->
  Z.land x compression.zstdMagicSkipMask = x - x mod 16.
Proof.
  intros Hx. unfold compression.zstdMagicSkipMask.
  assert (H1 : Z.land x (Z.ones 32) = x).
  { rewrite Z.land_ones by lia. apply Z.mod_small. exact Hx. }
  assert (H2 : Z.land x 15 = x mod 16).
  { change 15 with (Z.ones 4). rewrite Z.land_ones by lia. reflexivity. }
  assert (H3 : Z.ones 32 = Z.lor 0xFFFFFFF0 15) by reflexivity.
  rewrite H3, Z.land_lor_distr_r in H1.
  assert (H4 : Z.land (Z.land x 0xFFFFFFF0) (Z.land x 15) = 0).
  { apply Z.bits_inj'. intros i Hi.
    rewrite !Z.land_spec, Z.bits_0.
    destruct (Z.testbit x i); [| reflexivity]. cbn [andb].
    change 15 with (Z.ones 4).
    rewrite Z.testbit_ones_nonneg by lia.
    destruct (Z.ltb_spec i 4) as [Hlt | Hge]; [| apply andb_false_r].
    assert (Hc : i = 0 \/ i = 1 \/ i = 2 \/ i = 3) by lia.
    destruct Hc as [-> | [-> | [-> | ->]]]; reflexivity. }
  pose proof (Z.add_lor_land (Z.land x 0xFFFFFFF0) (Z.land x 15)) as H5.
  rewrite H4, H1, H2 in H5. lia.
Qed.

Lemma zstd_test (b0 b1 b2 b3 : Z) :
  isByte b0 -> isByte b1 -> isByte b2 -> isByte b3 ->
  (compression.Uint32 [b0; b1; b2; b3] =? compression.zstdMagic)
  || (Z.land (compression.Uint32 [b0; b1; b2; b3])
        compression.zstdMagicSkipMask =? compression.zstdMagicSkipStart)
  = true <-> zstdSignature b0 b1 b2 b3.
Proof.
  intros H0 H1 H2 H3.
  rewrite Uint32_sum by assumption.
  unfold isByte in *.
  rewrite land_skip_mask by lia.
  unfold compression.zstdMagic, compression.zstdMagicSkipStart,
    zstdSignature.
  rewrite orb_true_iff, !Z.eqb_eq.
  set (x := b0 + 256 * b1 + 65536 * b2 + 16777216 * b3).
  pose proof (Z.mod_pos_bound x 16 ltac:(lia)) as Hm.
  assert (Hx : x mod 16 = b0 mod 16).
  { unfold x.
    replace (b0 + 256 * b1 + 65536 * b2 + 16777216 * b3)
      with (b0 + (16 * b1 + 4096 * b2 + 1048576 * b3) * 16) by lia.
    apply Z.mod_add. lia. }
  pose proof (Z.div_mod b0 16 ltac:(lia)) as Hd.
  pose proof (Z.mod_pos_bound b0 16 ltac:(lia)) as Hb.
  rewrite Hx. unfold x. split.
  - intros [He | He]; [left; lia | right; lia].
  - intros [(-> & -> & -> & ->) | (Hr & -> & -> & ->)];
      [left; reflexivity | right; lia].
Qed.

Lemma drop_nil_length {A} (l : list A) (n : nat) :
  drop n l = [] <-> (length l <= n)%nat.
Proof.
  split.
  - intros Hd. pose proof (length_drop l n) as Hl. rewrite Hd in Hl.
    simpl in Hl. lia.
  - apply drop_ge.
Qed.

(** X26. [AutoDetect] on an in-memory reader, by the bytes left to read.
    With four bytes or more it answers Zstandard exactly when the next
    four are the magic number 28 B5 2F FD or that of a skippable frame
    (50..5F 2A 4D 18), fails with "cannot autodetect algorithm" otherwise,
    and in both cases leaves the reader where it was. With one to three
    bytes left it fails with the same error and leaves the reader at the
    end of the content. With nothing left it panics. *)
Theorem AutoDetect_spec (r : compression.Reader) :
  0 <= compression.offset r ->
  let rest :=
    drop (Z.to_nat (compression.offset r)) (compression.content r) in
  (forall b0 b1 b2 b3 tail,
     rest = b0 :: b1 :: b2 :: b3 :: tail ->
     isByte b0 -> isByte b1 -> isByte b2 -> isByte b3 ->
     (zstdSignature b0 b1 b2 b3 ->
      compression.AutoDetect r = (compression.Done compression.Zstandard, r))
     /\
     (~ zstdSignature b0 b1 b2 b3 ->
      compression.AutoDetect r =
        (compression.Failed compression.ErrCannotAutodetect, r))) /\
  ((0 < length rest < 4)%nat ->
   compression.AutoDetect r =
     (compression.Failed compression.ErrCannotAutodetect,
      {| compression.content := compression.content r;
         compression.offset :=
           Z.of_nat (length (compression.content r)) |})) /\
  (rest = [] ->
   compression.AutoDetect r =
     (compression.Panicked
        "unexpected error while autodetecting compression algorithm", r)).
Proof.
  destruct r as [content offset].
  cbn beta iota delta [compression.offset compression.content].
  intros Ho. set (rest := drop (Z.to_nat offset) content).
  assert (Hend : (Z.of_nat (length content) <=? offset) = true <-> rest = []).
  { unfold rest. rewrite Z.leb_le, drop_nil_length. lia. }
  assert (Hlen : length rest = (length content - Z.to_nat offset)%nat)
    by apply length_drop.
  split; [| split].
  - intros b0 b1 b2 b3 tail Hrest H0 H1 H2 H3.
    assert (Hne : (Z.of_nat (length content) <=? offset) = false).
    { apply Z.leb_gt. rewrite Hrest in Hlen. simpl in Hlen. lia. }
    pose proof (zstd_test b0 b1 b2 b3 H0 H1 H2 H3) as Htest.
    unfold compression.AutoDetect, compression.autoDetectZstd,
      compression.Read, compression.SeekCurrent.
    cbn [compression.offset compression.content].
    rewrite Hne. fold rest.
    replace (take 4 rest) with [b0; b1; b2; b3]
      by (rewrite Hrest; reflexivity).
    rewrite bool_decide_eq_false_2 by (intros Hn; apply Hn; reflexivity).
    change (length [b0; b1; b2; b3] <? 4)%nat with false.
    change (compression.filled [b0; b1; b2; b3]) with [b0; b1; b2; b3].
    cbn [orb compression.offset compression.content length].
    replace (offset + Z.of_nat 4 + -4) with offset by lia.
    replace (offset <? 0) with false by (symmetry; apply Z.ltb_ge; lia).
    destruct ((compression.Uint32 [b0; b1; b2; b3] =? compression.zstdMagic)
              || (Z.land (compression.Uint32 [b0; b1; b2; b3])
                    compression.zstdMagicSkipMask
                  =? compression.zstdMagicSkipStart)) eqn:Et.
    + split; [reflexivity |]. intros Hn. exfalso. apply Hn, Htest.
      reflexivity.
    + split; [| reflexivity]. intros Hs. apply Htest in Hs. discriminate.
  - intros [Hpos Hlt].
    assert (Hne : (Z.of_nat (length content) <=? offset) = false).
    { apply Z.leb_gt. lia. }
    unfold compression.AutoDetect, compression.autoDetectZstd,
      compression.Read.
    cbn [compression.offset compression.content].
    rewrite Hne. fold rest.
    assert (Ht : take 4 rest = rest) by (apply take_ge; lia).
    rewrite Ht.
    rewrite bool_decide_eq_false_2 by (intros Hn; apply Hn; reflexivity).
    replace (length rest <? 4)%nat with true
      by (symmetry; apply Nat.ltb_lt; exact Hlt).
    cbn [orb]. f_equal. f_equal. lia.
  - intros Hrest. apply Hend in Hrest.
    unfold compression.AutoDetect, compression.autoDetectZstd,
      compression.Read.
    cbn [compression.offset compression.content].
    rewrite Hrest. reflexivity.
Qed.

Lemma AutoDetect_spec_witness :
  compression.AutoDetect
    {| compression.content := [0x28; 0xB5; 0x2F; 0xFD; 0; 1];
       compression.offset := 0 |} =
    (compression.Done compression.Zstandard,
     {| compression.content := [0x28; 0xB5; 0x2F; 0xFD; 0; 1];
        compression.offset := 0 |}).
Proof.
  refine (proj1 (proj1 (AutoDetect_spec
            {| compression.content := [0x28; 0xB5; 0x2F; 0xFD; 0; 1];
               compression.offset := 0 |} _)
            0x28 0xB5 0x2F 0xFD [0; 1] eq_refl _ _ _ _) _);
    unfold isByte, zstdSignature; cbn; lia.
Defined.

(** X27. A compression level given with [WithCompressionLevel] is never
    used. [Apply] returns no error and leaves what it is given as it was,
    for every level and every argument: its type switch has a case for the
    struct only, where it changes a copy, and none for the pointer that
    [newZstdCompressor] passes. So [newZstdCompressor] makes its encoder at
    the best compression level whatever the options are, and fails exactly
    when the encoder cannot be made. *)
Theorem compression_level_ignored
  (Encoder : Type)
  (zstd_NewWriter : compression.EncoderLevel -> string + Encoder)
  (opts : list compression.Level) :
  (forall o d, compression.Apply Encoder o d = (None, d)) /\
  compression.newZstdCompressor Encoder zstd_NewWriter opts =
    match zstd_NewWriter compression.zstd_SpeedBestCompression with
    | inl err => inl err
    | inr enc =>
        inr {| compression.encoder := Some enc;
               compression.level := compression.zstd_SpeedBestCompression |}
    end.
Proof.
  assert (Ha : forall o d, compression.Apply Encoder o d = (None, d)).
  { intros o [c | c |]; reflexivity. }
  split; [exact Ha |].
  assert (Hl : forall c, compression.applyOptions Encoder opts c = inr c).
  { induction opts as [| opt rest IH]; intros c; [reflexivity |].
    cbn [compression.applyOptions]. rewrite Ha. apply IH. }
  unfold compression.newZstdCompressor. rewrite Hl. reflexivity.
Qed.

(** * Package [builder] *)

Lemma string_append_assoc (a b c : string) :
  String.append (String.append a b) c = String.append a (String.append b c).
Proof.
  induction a as [| x a IH]; [reflexivity |].
  rewrite !string_append_cons, IH. reflexivity.
Qed.

Lemma string_append_nil_r (a : string) : String.append a "" = a.
Proof.
  induction a as [| x a IH]; [reflexivity |].
  rewrite string_append_cons, IH. reflexivity.
Qed.

Lemma rev_app_append (s1 : string) :
  forall s2 s,
    String.append (String.rev_app s1 s2) s =
    String.rev_app s1 (String.append s2 s).
Proof.
  induction s1 as [| x s1 IH]; intros s2 s; [reflexivity |].
  cbn [String.rev_app]. rewrite IH, string_append_cons. reflexivity.
Qed.

Lemma rev_cons_append (c : ascii) (cur s : string) :
  String.append (String.rev (String c cur)) s =
  String.append (String.rev cur) (String c s).
Proof.
  unfold String.rev. rewrite !rev_app_append. reflexivity.
Qed.

Lemma chars_cons (c : ascii) (s : string) : chars (String c s) = c :: chars s.
Proof. reflexivity. Qed.

Lemma Split_go_nonempty (sep : ascii) (s : string) :
  forall cur, builder.Split_go cur s sep <> [].
Proof.
  induction s as [| c s IH]; intros cur; cbn [builder.Split_go].
  - discriminate.
  - destruct (Ascii.eqb c sep); [discriminate | apply IH].
Qed.

(** [Split_go] gives one part exactly when the separator is not in the
    text, and two exactly when it is there once. *)
Lemma Split_go_one (sep : ascii) (s : string) :
  forall cur x,
    builder.Split_go cur s sep = [x] <->
    (sep ∉ chars s) /\ x = String.append (String.rev cur) s.
Proof.
  induction s as [| c s IH]; intros cur x; cbn [builder.Split_go].
  - rewrite string_append_nil_r. split.
    + intros [= <-]. split; [apply not_elem_of_nil | reflexivity].
    + intros [_ ->]. reflexivity.
  - rewrite chars_cons, not_elem_of_cons.
    destruct (Ascii.eqb_spec c sep) as [-> | Hc].
    + split.
      * intros [= _ Hs]. exfalso. exact (Split_go_nonempty _ _ _ Hs).
      * intros [[Hn _] _]. contradiction.
    + rewrite IH, rev_cons_append. split.
      * intros [Hs ->]. split; [split; [congruence | exact Hs] | reflexivity].
      * intros [[_ Hs] ->]. split; [exact Hs | reflexivity].
Qed.

Lemma Split_go_two (sep : ascii) (s : string) :
  forall cur x y,
    builder.Split_go cur s sep = [x; y] <->
    exists a,
      s = String.append a (String sep y) /\
      (sep ∉ chars a) /\ (sep ∉ chars y) /\
      x = String.append (String.rev cur) a.
Proof.
  induction s as [| c s IH]; intros cur x y; cbn [builder.Split_go].
  - split; [discriminate |].
    intros (a & Hs & _). destruct a; discriminate.
  - destruct (Ascii.eqb_spec c sep) as [-> | Hc].
    + split.
      * intros [= <- Hs]. apply Split_go_one in Hs as [Hn ->].
        exists ""%string. rewrite string_append_nil_r.
        repeat split; [apply not_elem_of_nil | exact Hn].
      * intros (a & Hs & Ha & Hy & ->).
        destruct a as [| c a].
        -- rewrite string_append_nil_l in Hs. injection Hs as ->.
           rewrite string_append_nil_r. f_equal.
           apply Split_go_one. split; [exact Hy | reflexivity].
        -- rewrite string_append_cons in Hs. injection Hs as <- _.
           exfalso. apply Ha. rewrite chars_cons. apply elem_of_cons. left. reflexivity.
    + rewrite IH. split.
      * intros (a & -> & Ha & Hy & ->). exists (String c a).
        rewrite rev_cons_append, chars_cons, not_elem_of_cons.
        repeat split; try assumption. congruence.
      * intros (a & Hs & Ha & Hy & ->).
        destruct a as [| c' a].
        -- rewrite string_append_nil_l in Hs. injection Hs as -> _.
           contradiction.
        -- rewrite string_append_cons in Hs. injection Hs as <- ->.
           exists a. rewrite rev_cons_append.
           rewrite chars_cons, not_elem_of_cons in Ha.
           repeat split; try assumption. apply Ha.
Qed.

(** X28. [Hash] of a docker image identifier. It returns [h] exactly when
    the identifier is a prefix, one colon and [h], with no colon in the
    prefix or in [h]; the prefix may be anything, also empty. In every
    other case it panics with "cannot parse" and the identifier; so it
    does for an identifier without a colon, the empty one among them. *)
Theorem Hash_spec (i : string) :
  (forall h,
     builder.Hash i = builder.Returned h <->
     exists p,
       i = String.append p (String ":"%char h) /\
       (":"%char ∉ chars p) /\ (":"%char ∉ chars h)) /\
  (forall msg,
     builder.Hash i = builder.Panicked msg ->
     msg = String.append "cannot parse " i) /\
  ((":"%char ∉ chars i) ->
   builder.Hash i = builder.Panicked (String.append "cannot parse " i)).
Proof.
  unfold builder.Hash, builder.Split. split; [| split].
  - intros h. split.
    + destruct (builder.Split_go "" i ":") as [| x [| y [| z l]]] eqn:E;
        try discriminate.
      intros [= ->]. apply Split_go_two in E as (a & Hs & Ha & Hy & _).
      exists a. auto.
    + intros (p & Hs & Hp & Hh).
      assert (E : builder.Split_go "" i ":" = [p; h]).
      { apply Split_go_two. exists p. auto. }
      rewrite E. reflexivity.
  - intros msg.
    destruct (builder.Split_go "" i ":") as [| x [| y [| z l]]];
      try discriminate; intros [= <-]; reflexivity.
  - intros Hn.
    assert (E : builder.Split_go "" i ":" = [i]).
    { apply Split_go_one. split; [exact Hn | reflexivity]. }
    rewrite E. reflexivity.
Qed.

Lemma Hash_spec_witness :
  builder.Hash "sha256:0a1b2c" = builder.Returned "0a1b2c" /\
  builder.Hash "" = builder.Panicked "cannot parse ".
Proof.
  split.
  - apply (proj1 (Hash_spec "sha256:0a1b2c")). exists "sha256"%string.
    split; [reflexivity |].
    split; apply (bool_decide_unpack _); vm_compute; reflexivity.
  - apply (proj2 (proj2 (Hash_spec ""))).
    apply (bool_decide_unpack _). vm_compute. reflexivity.
Defined.

Lemma ImageID_loop_skip (skipped rest : list builder.dockerResponseLine) :
  Forall builder.carriesNoID skipped ->
  builder.ImageID_loop (skipped ++ rest) = builder.ImageID_loop rest.
Proof.
  induction 1 as [| l skipped Hl _ IH]; [reflexivity |].
  cbn [app builder.ImageID_loop]. unfold builder.IsAux, builder.Aux.
  destruct Hl as [Hl | (a & Hl & Ha)]; rewrite Hl.
  - rewrite bool_decide_eq_false_2 by (intros [v Hv]; discriminate).
    exact IH.
  - rewrite bool_decide_eq_true_2 by (eexists; reflexivity).
    cbn [negb]. rewrite Ha. exact IH.
Qed.

(** X29. [ImageID] reads the answer of the daemon from its last line to its
    first, passing over the lines without an "aux" member and those whose
    "aux" object has no "ID". The first line it cannot pass over decides:
    if its "aux" object has a string as "ID", that string is returned,
    whatever the lines before it hold; if its "aux" is not an object or its
    "ID" is not a string, the call panics. When every line is passed over,
    the result is the empty identifier. *)
Theorem ImageID_spec (pre post : list builder.dockerResponseLine) :
  Forall builder.carriesNoID post ->
  builder.ImageID post = builder.Returned "" /\
  (forall l id,
     builder.carriesID l id ->
     builder.ImageID (pre ++ l :: post) = builder.Returned id) /\
  (forall l,
     builder.malformed l ->
     exists msg, builder.ImageID (pre ++ l :: post) = builder.Panicked msg).
Proof.
  intros Hpost.
  assert (Hrev : Forall builder.carriesNoID (reverse post))
    by (apply Forall_reverse; exact Hpost).
  assert (Hshape : forall l,
            builder.ImageID (pre ++ l :: post) =
            builder.ImageID_loop (l :: reverse pre)).
  { intros l. unfold builder.ImageID.
    rewrite reverse_app, reverse_cons, <- app_assoc.
    rewrite ImageID_loop_skip by exact Hrev. reflexivity. }
  split; [| split].
  - unfold builder.ImageID.
    rewrite <- (app_nil_r (reverse post)).
    rewrite ImageID_loop_skip by exact Hrev. reflexivity.
  - intros l id (a & Hl & Ha). rewrite Hshape.
    cbn [builder.ImageID_loop]. unfold builder.IsAux, builder.Aux.
    rewrite Hl, bool_decide_eq_true_2 by (eexists; reflexivity).
    cbn [negb]. rewrite Ha. reflexivity.
  - intros l Hm. rewrite Hshape.
    cbn [builder.ImageID_loop]. unfold builder.IsAux, builder.Aux.
    destruct Hm as [(v & Hl & Hv) | (a & v & Hl & Ha & Hv)]; rewrite Hl;
      rewrite bool_decide_eq_true_2 by (eexists; reflexivity); cbn [negb].
    + destruct v; try discriminate; eexists; reflexivity.
    + rewrite Ha. destruct v; try discriminate; eexists; reflexivity.
Qed.

Lemma ImageID_spec_witness :
  builder.ImageID
    [ {[ "aux" := builder.JObject {[ "ID" := builder.JString "sha256:old" ]} ]};
      {[ "aux" := builder.JObject {[ "ID" := builder.JString "sha256:new" ]} ]};
      {[ "stream" := builder.JString "Successfully built" ]};
      {[ "aux" := builder.JObject {[ "Tag" := builder.JString "latest" ]} ]} ]
  = builder.Returned "sha256:new".
Proof.
  refine (proj1 (proj2 (ImageID_spec
    [ {[ "aux" := builder.JObject {[ "ID" := builder.JString "sha256:old" ]} ]} ]
    [ {[ "stream" := builder.JString "Successfully built" ]};
      {[ "aux" := builder.JObject {[ "Tag" := builder.JString "latest" ]} ]} ]
    _))
    {[ "aux" := builder.JObject {[ "ID" := builder.JString "sha256:new" ]} ]}
    "sha256:new" _).
  - constructor; [| constructor; [| constructor]].
    + left. vm_compute. reflexivity.
    + right. exists {[ "Tag" := builder.JString "latest" ]}.
      split; vm_compute; reflexivity.
  - exists {[ "ID" := builder.JString "sha256:new" ]}.
    split; vm_compute; reflexivity.
Defined.
